(** * AI-EMAIL-ASSISTANT: tone resolution, email generation and resume matching

    A shallow embedding of [backend/services/tone_adapter.py],
    [backend/services/generator.py], [backend/services/resume_matcher.py],
    [backend/utils/validators.py] and of the email counter of
    [backend/utils/metrics.py], followed by the properties established
    about them.

    Conventions of the embedding:
    - a Python [str] is a Rocq [string] holding the bytes of its UTF-8
      encoding, so that an ASCII text is held character by character;
      [PyStr] writes out [str.lower], [str.strip] and the other methods for
      ASCII text, on which they agree with Python; [PyUnicode] extends them
      to every text: what the tables of the interpreter decide on a text
      that is not ASCII is a parameter there, of class [unicode], which the
      definitions and the statements take implicitly.  The tone adapter and
      the validators of a password, a tone and a text are embedded over
      [PyUnicode]; the generator, the resume matcher and [sanitize_input]
      are embedded over [PyStr], that is, as they run on ASCII text;
    - a Python [float] is an IEEE-754 binary64 value of [SpecFloat], with the
      operations rounded to nearest-even as the interpreter does;
    - an exception is a value of [exn]; code that can raise returns [res];
    - code with side effects (the metrics counter, the calls to the two
      text-generation backends) threads a state explicitly;
    - what the source takes from third-party packages (spaCy, NLTK,
      scikit-learn, the [re] engine, the two generation backends,
      [difflib], [langdetect]) is a parameter of the functions that use it;
      the patterns of the validators, each a class of characters or
      a tag, are written out;
    - a table of the database is the list of its rows. *)

From Stdlib Require Import ZArith QArith Qround Lia String Ascii List Bool DecimalString.
From Stdlib Require Import Floats.SpecFloat.
From stdpp Require Import base gmap strings list.

Local Open Scope string_scope.

(** ** Exceptions and fallible results *)

Inductive exn : Type :=
| KeyError (key : string)
| IndexError
| AttributeError
| ZeroDivisionError
| ValueError (msg : string)
| OverflowError
| BackendError (msg : string).

Inductive res (A : Type) : Type :=
| Ok (a : A)
| Raise (e : exn).
Arguments Ok {A} a.
Arguments Raise {A} e.

Definition res_bind {A B} (r : res A) (k : A -> res B) : res B :=
  match r with
  | Ok a => k a
  | Raise e => Raise e
  end.

(** [str(e)] for the exceptions above. *)
Definition exn_str (e : exn) : string :=
  match e with
  | KeyError k => "'" +:+ k +:+ "'"
  | IndexError => "list index out of range"
  | AttributeError => "'NoneType' object has no attribute 'strip'"
  | ZeroDivisionError => "division by zero"
  | ValueError m => m
  | OverflowError => "cannot convert float infinity to integer"
  | BackendError m => m
  end.

(** ** Python strings *)

Module PyStr.

Definition is_upper_ascii (c : ascii) : bool :=
  let n := nat_of_ascii c in (65 <=? n)%nat && (n <=? 90)%nat.

Definition is_lower_ascii (c : ascii) : bool :=
  let n := nat_of_ascii c in (97 <=? n)%nat && (n <=? 122)%nat.

Definition lower_ascii (c : ascii) : ascii :=
  if is_upper_ascii c then ascii_of_nat (nat_of_ascii c + 32) else c.

Definition upper_ascii (c : ascii) : ascii :=
  if is_lower_ascii c then ascii_of_nat (nat_of_ascii c - 32) else c.

(** [str.isspace] on one ASCII character: TAB, LF, VT, FF, CR, the four
    separators 28..31 and the space; no other byte is one. *)
Definition is_space (c : ascii) : bool :=
  let n := nat_of_ascii c in
  ((9 <=? n)%nat && (n <=? 13)%nat) || ((28 <=? n)%nat && (n <=? 32)%nat).

(** [s.lower()] for an ASCII text. *)
Fixpoint lower (s : string) : string :=
  match s with
  | EmptyString => EmptyString
  | String c s' => String (lower_ascii c) (lower s')
  end.

(** [s.capitalize()] for an ASCII text: first character upper-cased, the
    rest lower-cased. *)
Definition capitalize (s : string) : string :=
  match s with
  | EmptyString => EmptyString
  | String c s' => String (upper_ascii c) (lower s')
  end.

Fixpoint lstrip (s : string) : string :=
  match s with
  | EmptyString => EmptyString
  | String c s' => if is_space c then lstrip s' else s
  end.

Fixpoint rstrip (s : string) : string :=
  match s with
  | EmptyString => EmptyString
  | String c s' =>
      match rstrip s' with
      | EmptyString => if is_space c then EmptyString else String c EmptyString
      | r => String c r
      end
  end.

(** [s.strip()] for an ASCII text. *)
Definition strip (s : string) : string := lstrip (rstrip s).

(** [sub in s] *)
Fixpoint contains (sub s : string) : bool :=
  String.prefix sub s ||
  match s with
  | EmptyString => false
  | String _ s' => contains sub s'
  end.

(** [c in s] for a single character. *)
Fixpoint has_char (c : ascii) (s : string) : bool :=
  match s with
  | EmptyString => false
  | String d s' => if ascii_dec c d then true else has_char c s'
  end.

(** [s.isupper()]: at least one cased character and no lower-case one. *)
Fixpoint isupper_from (seen : bool) (s : string) : bool :=
  match s with
  | EmptyString => seen
  | String c s' =>
      if is_lower_ascii c then false
      else isupper_from (seen || is_upper_ascii c) s'
  end.

Definition isupper (s : string) : bool := isupper_from false s.

(** No character of [s] is an upper-case letter. *)
Fixpoint no_upper (s : string) : bool :=
  match s with
  | EmptyString => true
  | String c s' => negb (is_upper_ascii c) && no_upper s'
  end.

(** [s.replace(old, new)] for a non-empty [old]: occurrences are replaced
    from the left and do not overlap; [skip] counts the characters of an
    occurrence still to be dropped. *)
Fixpoint replace_from (old new : string) (skip : nat) (s : string) : string :=
  match s with
  | EmptyString => EmptyString
  | String c s' =>
      match skip with
      | S k => replace_from old new k s'
      | O =>
          if String.prefix old s
          then new +:+ replace_from old new (String.length old - 1) s'
          else String c (replace_from old new 0 s')
      end
  end.

Definition replace (old new s : string) : string := replace_from old new 0 s.

(** [sep.join(l)] *)
Fixpoint join (sep : string) (l : list string) : string :=
  match l with
  | [] => EmptyString
  | [x] => x
  | x :: l' => x +:+ sep +:+ join sep l'
  end.

(** [x in l] for a list of strings. *)
Definition in_list (x : string) (l : list string) : bool :=
  bool_decide (x ∈ l).

(** [any(w in text for w in words)] *)
Definition any_in (words : list string) (text : string) : bool :=
  existsb (fun w => contains w text) words.

Definition nl : string := String (ascii_of_nat 10) EmptyString.
Definition dquote : string := String (ascii_of_nat 34) EmptyString.

End PyStr.

(** ** Python strings beyond ASCII *)

Module PyUnicode.
Import PyStr.

(** What the interpreter answers on a text that is not ASCII: it depends
    on its Unicode tables (case mappings with their expansions and
    contexts, white space, decimal digits). *)
Record unicode : Type := {
  (** [s.lower()], [s.capitalize()] and [s.strip()] *)
  u_lower : string -> string;
  u_capitalize : string -> string;
  u_strip : string -> string;
  (** [bool(re.search(r'\d', s))] and [bool(re.search(r'\s', s))] *)
  u_search_digit : string -> bool;
  u_search_space : string -> bool
}.
Existing Class unicode.

Definition is_ascii_char (c : ascii) : bool := (nat_of_ascii c <? 128)%nat.

(** [s.isascii()] *)
Fixpoint is_ascii (s : string) : bool :=
  match s with
  | EmptyString => true
  | String c s' => is_ascii_char c && is_ascii s'
  end.

Section WithUnicode.
Context {U : unicode}.

(** [s.lower()] *)
Definition str_lower (s : string) : string :=
  if is_ascii s then lower s else u_lower U s.

(** [s.capitalize()] *)
Definition str_capitalize (s : string) : string :=
  if is_ascii s then capitalize s else u_capitalize U s.

(** [s.strip()] *)
Definition str_strip (s : string) : string :=
  if is_ascii s then strip s else u_strip U s.

End WithUnicode.

(** A byte that continues a character of more than one byte. *)
Definition is_continuation (c : ascii) : bool :=
  let n := nat_of_ascii c in (128 <=? n)%nat && (n <? 192)%nat.

(** The number of characters (code points) of a text. *)
Fixpoint code_points (s : string) : nat :=
  match s with
  | EmptyString => O
  | String c s' => if is_continuation c then code_points s' else S (code_points s')
  end.

End PyUnicode.

(** ** Python floats (IEEE-754 binary64) *)

Module PyFloat.

Definition prec : Z := 53.
Definition emax : Z := 1024.

Definition fmul : spec_float -> spec_float -> spec_float := SFmul prec emax.
Definition fadd : spec_float -> spec_float -> spec_float := SFadd prec emax.
Definition fdiv : spec_float -> spec_float -> spec_float := SFdiv prec emax.

(** [a < b] on floats; false as soon as a NaN is involved. *)
Definition flt (a b : spec_float) : bool := SFltb a b.

(** [float(z)] *)
Definition of_int (z : Z) : spec_float := binary_normalize prec emax z 0 false.

(** The integer [z] as an unrounded mantissa with exponent 0. *)
Definition raw_int (z : Z) : spec_float :=
  match z with
  | Z0 => S754_zero false
  | Zpos p => S754_finite false p 0
  | Zneg p => S754_finite true p 0
  end.

(** [a / b] on two [int]s: the correctly rounded quotient of the exact
    integers, [ZeroDivisionError] when [b] is 0. *)
Definition int_true_div (a b : Z) : res spec_float :=
  if (b =? 0)%Z then Raise ZeroDivisionError
  else Ok (fdiv (raw_int a) (raw_int b)).

(** [int(x)]: truncation toward zero. *)
Definition int_of_float (x : spec_float) : res Z :=
  match x with
  | S754_zero _ => Ok 0%Z
  | S754_infinity _ => Raise OverflowError
  | S754_nan => Raise (ValueError "cannot convert float NaN to integer")
  | S754_finite s m e =>
      let a := (if 0 <=? e then Zpos m * 2 ^ e else Z.quot (Zpos m) (2 ^ (- e)))%Z in
      Ok (if s then (- a)%Z else a)
  end.

(** [min(a, b)]: the first argument unless the second is smaller. *)
Definition py_min (a b : spec_float) : spec_float :=
  if flt b a then b else a.

(** The rational value of a finite float (0 for the others). *)
Definition to_Q (x : spec_float) : Q :=
  match x with
  | S754_finite s m e =>
      let v := if (0 <=? e)%Z then inject_Z (Zpos m * 2 ^ e)
               else Qmake (Zpos m) (Z.to_pos (2 ^ (- e))) in
      if s then Qopp v else v
  | _ => 0%Q
  end.

Definition is_finite (x : spec_float) : bool :=
  match x with
  | S754_zero _ | S754_finite _ _ _ => true
  | _ => false
  end.

(** The literals of the source. *)
Definition f_1_0 : spec_float := Eval vm_compute in of_int 1.
Definition f_100 : spec_float := Eval vm_compute in of_int 100.
(** 0.4 = 0x1.999999999999ap-2 and 0.2 = 0x1.999999999999ap-3 *)
Definition f_0_4 : spec_float := S754_finite false 7205759403792794 (-54).
Definition f_0_2 : spec_float := S754_finite false 7205759403792794 (-55).

End PyFloat.

(** ** config.py *)

Module Config.

Definition TONE_OPTIONS : list string :=
  ["Formal"; "Friendly"; "Persuasive"; "Apologetic"; "Assertive"].

End Config.

(** ** services/tone_adapter.py *)

Module ToneAdapter.
Import PyStr PyUnicode PyFloat.

Record tone_chars : Type := {
  words : list string;
  phrases : list string;
  avoid : list string
}.

(** The dictionary keeps its insertion order, which [analyze_tone] iterates. *)
Definition TONE_CHARACTERISTICS : list (string * tone_chars) :=
  [ ("Formal",
     {| words := ["respectfully"; "kindly"; "accordingly"; "pursuant"; "regarding";
                  "furthermore"; "nevertheless"; "therefore"];
        phrases := ["I am writing to"; "please be advised"; "as per our discussion";
                    "thank you for your consideration"; "at your earliest convenience"];
        avoid := ["hey"; "yeah"; "cool"; "awesome"; "thanks"; "btw"; "okay"] |});
    ("Friendly",
     {| words := ["great"; "wonderful"; "appreciate"; "thanks"; "helpful";
                  "excited"; "looking forward"; "pleased"];
        phrases := ["hope you're doing well"; "great to hear from you";
                    "thanks so much"; "looking forward to"; "all the best"];
        avoid := ["hereby"; "pursuant"; "moreover"; "thus"; "henceforth"] |});
    ("Persuasive",
     {| words := ["opportunity"; "benefit"; "advantage"; "valuable"; "essential";
                  "proven"; "guaranteed"; "exclusive"];
        phrases := ["you'll be pleased to know"; "I'm confident that";
                    "this will ensure"; "consider the benefits"; "imagine how"];
        avoid := ["maybe"; "perhaps"; "possibly"; "might"; "somewhat"] |});
    ("Apologetic",
     {| words := ["apologize"; "sorry"; "regret"; "understand"; "inconvenience";
                  "mistake"; "error"; "rectify"];
        phrases := ["I sincerely apologize"; "please accept our apologies";
                    "we understand your frustration"; "we will make this right"];
        avoid := ["but"; "however"; "though"; "excuse"; "defend"] |});
    ("Assertive",
     {| words := ["will"; "must"; "require"; "ensure"; "immediate";
                  "essential"; "crucial"; "necessary"];
        phrases := ["I expect"; "please ensure that"; "it is essential";
                    "this requires immediate attention"; "I need"];
        avoid := ["maybe"; "kind of"; "sort of"; "hopefully"; "if possible"] |}) ].

Section WithUnicode.
Context {U : unicode}.

Definition normalize_tone (tone : string) : string :=
  match tone with
  | EmptyString => "Formal"
  | _ =>
      let tone_clean := str_capitalize (str_strip tone) in
      if in_list tone_clean Config.TONE_OPTIONS then tone_clean
      else
        let tone_lower := str_lower tone_clean in
        match List.find (fun valid_tone => contains (str_lower valid_tone) tone_lower)
                        Config.TONE_OPTIONS with
        | Some valid_tone => valid_tone
        | None => "Formal"
        end
  end.

(** One of the three marker loops of [analyze_tone]: [score] moves by
    [step] for every marker that occurs in the lower-cased text. *)
Definition scan (markers : list string) (text_lower : string) (step score : Z) : Z :=
  fold_left (fun score m => if contains (str_lower m) text_lower
                            then (score + step)%Z else score)
            markers score.

Definition raw_score (chars : tone_chars) (text_lower : string) : Z :=
  let score := 0%Z in
  let score := scan (words chars) text_lower 1 score in
  let score := scan (phrases chars) text_lower 2 score in
  let score := scan (avoid chars) text_lower (-1) score in
  score.

Definition total_markers (chars : tone_chars) : Z :=
  (Z.of_nat (length (words chars)) + Z.of_nat (length (phrases chars)))%Z.

(** [scores[tone] = v] on an insertion-ordered dictionary. *)
Fixpoint dict_set {V} (d : list (string * V)) (k : string) (v : V) : list (string * V) :=
  match d with
  | [] => [(k, v)]
  | (k', v') :: d' => if String.eqb k' k then (k', v) :: d' else (k', v') :: dict_set d' k v
  end.

(** The loop filling [scores]. *)
Fixpoint fill_scores (catalog : list (string * tone_chars)) (text_lower : string)
         (scores : list (string * spec_float)) : res (list (string * spec_float)) :=
  match catalog with
  | [] => Ok scores
  | (tone, chars) :: rest =>
      res_bind (int_true_div (raw_score chars text_lower) (total_markers chars))
        (fun v => fill_scores rest text_lower (dict_set scores tone v))
  end.

(** [max(items, key=lambda x: x[1])]: a later item replaces the current
    one only when its key is strictly greater. *)
Definition py_max_by_snd (items : list (string * spec_float)) : res (string * spec_float) :=
  match items with
  | [] => Raise (ValueError "max() arg is an empty sequence")
  | x :: rest =>
      Ok (fold_left (fun best item => if flt (snd best) (snd item) then item else best) rest x)
  end.

Definition analyze_tone (text : string) : res (string * spec_float) :=
  let text_lower := str_lower text in
  res_bind (fill_scores TONE_CHARACTERISTICS text_lower [])
    (fun scores =>
       res_bind (py_max_by_snd scores)
         (fun detected_tone => Ok (fst detected_tone, py_min f_1_0 (snd detected_tone)))).

(** [d.get(k)] on an insertion-ordered dictionary. *)
Fixpoint dict_get {V} (d : list (string * V)) (k : string) : option V :=
  match d with
  | [] => None
  | (k', v) :: d' => if String.eqb k' k then Some v else dict_get d' k
  end.

(** [d[k]] *)
Definition dict_getitem {V} (d : list (string * V)) (k : string) : res V :=
  match dict_get d k with
  | Some v => Ok v
  | None => Raise (KeyError k)
  end.

(** The default [TONE_CHARACTERISTICS["Formal"]] is evaluated before the
    call to [get]. *)
Definition get_tone_characteristics (tone : string) : res tone_chars :=
  res_bind (dict_getitem TONE_CHARACTERISTICS "Formal")
    (fun formal => Ok (default formal (dict_get TONE_CHARACTERISTICS tone))).

Definition get_tone_prompt_prefix (tone : string) : res string :=
  res_bind (get_tone_characteristics tone) (fun characteristics =>
  let prompt_parts :=
    [ "Write in a " +:+ str_lower tone +:+ " tone, incorporating these elements:";
      nl +:+ "Preferred words and phrases:";
      join ", " (firstn 3 (words characteristics) ++ firstn 2 (phrases characteristics));
      nl +:+ "Avoid:";
      join ", " (firstn 3 (avoid characteristics)) ] in
  Ok (join nl prompt_parts)).

End WithUnicode.

(** A placeholder in the source: the text comes back unchanged. *)
Definition adjust_tone (text target_tone : string) : string := text.

End ToneAdapter.

(** ** services/generator.py *)

Module Generator.
Import PyStr.

Definition TONE_DESCRIPTIONS : gmap string string :=
  list_to_map
    [ ("Formal", "professional and business-appropriate");
      ("Friendly", "warm and approachable while maintaining professionalism");
      ("Persuasive", "convincing and compelling while being respectful");
      ("Apologetic", "sincere and remorseful while maintaining professionalism");
      ("Assertive", "confident and direct while remaining professional") ].

Record tone_example : Type := { greeting : string; closing : string }.

Definition TONE_EXAMPLES : gmap string tone_example :=
  list_to_map
    [ ("Formal", {| greeting := "Dear [Name],"; closing := "Best regards," |});
      ("Friendly", {| greeting := "Hi [Name],"; closing := "Thanks and best wishes," |});
      ("Persuasive", {| greeting := "Dear [Name],";
                        closing := "Looking forward to your positive response," |});
      ("Apologetic", {| greeting := "Dear [Name],"; closing := "Sincerely apologizing," |});
      ("Assertive", {| greeting := "Dear [Name],"; closing := "Best regards," |}) ].

(** *** The two backends and the process state *)

Record chat_request : Type := {
  model : string;
  messages : list (string * string);   (* role, content *)
  temperature : spec_float;
  max_tokens : Z
}.

(** [response.choices]: the [message.content] of every choice, [None]
    when the content is missing. *)
Record chat_completion : Type := { choices : list (option string) }.

Record hf_request : Type := {
  hf_prompt : string;
  max_length : Z;
  do_sample : bool;
  hf_temperature : spec_float;
  top_p : spec_float;
  repetition_penalty : spec_float
}.

(** The environment of the module: the OpenAI client, the Hugging Face
    pipeline, [config.HF_MODEL] and the clock. *)
Record backends : Type := {
  openai_create : chat_request -> res chat_completion;
  hf_generator : hf_request -> res (list (gmap string string));
  HF_MODEL : string;
  now : string
}.

Inductive call : Type :=
| OpenAICall (req : chat_request)
| HFCall (req : hf_request).

(** [email_generation_count] of utils/metrics.py and the backend calls
    made so far, oldest first. *)
Record state : Type := {
  email_generation_count : Z;
  calls : list call
}.

Definition M (A : Type) : Type := state -> res A * state.

Definition ret {A} (a : A) : M A := fun s => (Ok a, s).
Definition raise {A} (e : exn) : M A := fun s => (Raise e, s).
Definition bind {A B} (m : M A) (k : A -> M B) : M B :=
  fun s => match m s with
           | (Ok a, s') => k a s'
           | (Raise e, s') => (Raise e, s')
           end.
Definition lift {A} (r : res A) : M A := fun s => (r, s).

(** [try: body except Exception as e: handler(e)] *)
Definition try_except {A} (body : M A) (handler : exn -> M A) : M A :=
  fun s => match body s with
           | (Ok a, s') => (Ok a, s')
           | (Raise e, s') => handler e s'
           end.

Local Notation "x <- m ;; k" := (bind m (fun x => k))
  (at level 100, m at next level, right associativity).
Local Notation "m ;;; k" := (bind m (fun _ => k))
  (at level 100, right associativity).

(** [email_generation_count.inc()] *)
Definition inc : M unit :=
  fun s => (Ok tt, {| email_generation_count := email_generation_count s + 1;
                      calls := calls s |}).

Definition call_openai (B : backends) (req : chat_request) : M chat_completion :=
  fun s => (openai_create B req,
            {| email_generation_count := email_generation_count s;
               calls := calls s ++ [OpenAICall req] |}).

Definition call_hf (B : backends) (req : hf_request) : M (list (gmap string string)) :=
  fun s => (hf_generator B req,
            {| email_generation_count := email_generation_count s;
               calls := calls s ++ [HFCall req] |}).

(** [d[k]] *)
Definition getitem {V} (d : gmap string V) (k : string) : res V :=
  match d !! k with
  | Some v => Ok v
  | None => Raise (KeyError k)
  end.

(** [l[0]] *)
Definition first {V} (l : list V) : res V :=
  match l with
  | x :: _ => Ok x
  | [] => Raise IndexError
  end.

(** [content.strip()] where [content] may be [None]. *)
Definition strip_opt (content : option string) : res string :=
  match content with
  | Some c => Ok (strip c)
  | None => Raise AttributeError
  end.

(** [x or ""] and the truth value of an optional string. *)
Definition or_empty (x : option string) : string := default "" x.
Definition truthy (x : option string) : bool :=
  match x with
  | Some (String _ _) => true
  | _ => false
  end.

(** 0.7, 0.9 and 1.2 as binary64 literals. *)
Definition f_0_7 : spec_float := S754_finite false 6305039478318694 (-53).
Definition f_0_9 : spec_float := S754_finite false 8106479329266893 (-53).
Definition f_1_2 : spec_float := S754_finite false 5404319552844595 (-52).

Definition hf_prompt_of (subject context tone : string) : string :=
  "Write a " +:+ lower tone +:+ " email." +:+ nl +:+
  "Subject: " +:+ subject +:+ nl +:+
  "Details: " +:+ context +:+ nl +:+
  "Make it clear, professional, and well-structured." +:+ nl +:+
  "Use proper email format with greeting and closing.".

(** The arguments of the call [hf_generator(prompt, max_length=500, ...)]. *)
Definition hf_call_args (prompt : string) : hf_request :=
  {| hf_prompt := prompt; max_length := 500; do_sample := true;
     hf_temperature := f_0_7; top_p := f_0_9; repetition_penalty := f_1_2 |}.

Definition generate_email_with_huggingface (B : backends)
           (subject context tone : string) : M string :=
  let prompt := hf_prompt_of subject context tone in
  try_except
    (result <- call_hf B (hf_call_args prompt) ;;
     inc ;;;
     r0 <- lift (first result) ;;
     text <- lift (getitem r0 "generated_text") ;;
     ret (strip text))
    (fun e => ret ("Error generating email: " +:+ exn_str e)).

Definition gpt_prompt_of (tone_desc subject context tone greeting : string)
           (recipient_name : option string) (closing : string) : string :=
  "Generate a " +:+ tone_desc +:+ " email based on the following:" +:+ nl +:+
  nl +:+
  "Subject: " +:+ subject +:+ nl +:+
  "Context: " +:+ context +:+ nl +:+
  nl +:+
  "Requirements:" +:+ nl +:+
  "- Use " +:+ lower tone +:+ " tone" +:+ nl +:+
  "- Be clear and concise" +:+ nl +:+
  "- Follow proper email structure" +:+ nl +:+
  "- Include appropriate greeting and closing" +:+ nl +:+
  "- Maintain professional language" +:+ nl +:+
  "- Address key points from the context" +:+ nl +:+
  nl +:+
  "Email structure:" +:+ nl +:+
  "1. Start with: " +:+ dquote +:+
    (if truthy recipient_name then greeting else "Dear Sir/Madam,") +:+ dquote +:+ nl +:+
  "2. Introduction paragraph" +:+ nl +:+
  "3. Main content paragraphs" +:+ nl +:+
  "4. Closing paragraph" +:+ nl +:+
  "5. End with: " +:+ dquote +:+ closing +:+ dquote +:+ nl.

(** The arguments of the call [openai.ChatCompletion.create(...)]. *)
Definition chat_call_args (prompt : string) : chat_request :=
  {| model := "gpt-3.5-turbo";
     messages := [("system", "You are a professional email writing assistant.");
                  ("user", prompt)];
     temperature := f_0_7;
     max_tokens := 500 |}.

(** The body of the [try] block of [generate_email_with_gpt]. *)
Definition gpt_body (B : backends) (subject context tone : string)
           (recipient_name : option string) : M string :=
  let tone_desc := default "professional" (TONE_DESCRIPTIONS !! tone) in
  ex <- lift (getitem TONE_EXAMPLES tone) ;;
  let greeting := replace "[Name]" (or_empty recipient_name) (greeting ex) in
  ex' <- lift (getitem TONE_EXAMPLES tone) ;;
  let prompt := gpt_prompt_of tone_desc subject context tone greeting
                              recipient_name (closing ex') in
  response <- call_openai B (chat_call_args prompt) ;;
  inc ;;;
  c0 <- lift (first (choices response)) ;;
  text <- lift (strip_opt c0) ;;
  ret text.

Definition generate_email_with_gpt (B : backends) (subject context tone : string)
           (recipient_name : option string) : M string :=
  try_except (gpt_body B subject context tone recipient_name)
             (fun e => generate_email_with_huggingface B subject context tone).

(** The dictionary returned by [generate_email]; its five keys are fixed. *)
Record generated_email : Type := {
  content : string;
  tone : string;
  subject : string;
  generated_at : string;
  model_used : string
}.

Definition generate_email (B : backends) (subject context tone : string)
           (recipient_name : option string) (use_gpt : bool) : M generated_email :=
  content <- (if use_gpt
              then generate_email_with_gpt B subject context tone recipient_name
              else generate_email_with_huggingface B subject context tone) ;;
  ret {| content := content;
         tone := tone;
         subject := subject;
         generated_at := now B;
         model_used := if use_gpt then "GPT-3.5" else HF_MODEL B |}.

End Generator.

(** ** services/resume_matcher.py *)

Module ResumeMatcher.
Import PyStr PyFloat.

(** What the module takes from spaCy, [re], NLTK and scikit-learn. *)
Record nlp_env : Type := {
  (** [nlp(text).ents] as pairs [(ent.label_, ent.text)] *)
  ents : string -> list (string * string);
  (** [sent.text] for the sentences of [nlp(text).sents] *)
  sents : string -> list string;
  (** [match.group()] for the matches of [re.finditer(pattern, text, re.IGNORECASE)] *)
  finditer : string -> string -> list string;
  (** [re.sub(r'[^\w\s-]', ' ', text)] *)
  sub_nonword : string -> string;
  word_tokenize : string -> list string;
  (** [lemmatizer.lemmatize] *)
  lemmatize : string -> string;
  (** [set(stopwords.words('english'))] *)
  stop_words : gset string;
  (** [cosine_similarity] of the two rows of
      [TfidfVectorizer().fit_transform([a, b])]; the vectorizer raises
      on an empty vocabulary. *)
  tfidf_cosine : string -> string -> res spec_float
}.

Section WithEnv.
Variable env : nlp_env.

Definition skill_patterns : list string :=
  [ "\b[A-Za-z+#]+(?:\.[A-Za-z+]+)*\b";
    "\b[A-Z][A-Za-z]*(?:\s+[A-Z][A-Za-z]*)*\b";
    "\b(?:proficient|experienced|skilled)\s+in\s+([^,.]+)" ].

(** The set [skills] once both loops of [extract_skills] have run. *)
Definition skill_set (text : string) : gset string :=
  let skills : gset string := ∅ in
  let skills :=
    fold_left (fun (skills : gset string) (ent : string * string) =>
                 if in_list (fst ent) ["ORG"; "PRODUCT"; "LANGUAGE"]
                 then skills ∪ {[ lower (snd ent) ]}
                 else skills)
              (ents env text) skills in
  fold_left (fun (skills : gset string) (pattern : string) =>
               skills ∪ list_to_set (map lower (finditer env pattern text)))
            skill_patterns skills.

(** The iteration order of a Python set is not specified; the embedding
    iterates in the order of [elements]. *)
Definition extract_skills (text : string) : list string :=
  List.filter (fun skill => (2 <? String.length skill)%nat
                            && negb (bool_decide (skill ∈ stop_words env)))
              (elements (skill_set text)).

(** The loop body of [clean_text]. *)
Definition clean_token (cleaned_tokens : list string) (token : string) : list string :=
  if negb (bool_decide (token ∈ stop_words env)) && (2 <? String.length token)%nat
  then
    if has_char "-"%char token || isupper token
    then cleaned_tokens ++ [token]
    else cleaned_tokens ++ [lemmatize env token]
  else cleaned_tokens.

Definition clean_text (text : string) : string :=
  let text := lower text in
  let text := sub_nonword env text in
  let tokens := word_tokenize env text in
  let cleaned_tokens := fold_left clean_token tokens [] in
  join " " cleaned_tokens.

Record requirements : Type := {
  required_skills : list string;
  preferred_skills : list string;
  experience : list string;
  education : list string
}.

(** The loop body of [analyze_requirements]. *)
Definition classify_sentence (reqs : requirements) (sent : string) : requirements :=
  let text := lower sent in
  if any_in ["required"; "must have"; "essential"] text then
    {| required_skills := required_skills reqs ++ extract_skills sent;
       preferred_skills := preferred_skills reqs;
       experience := experience reqs;
       education := education reqs |}
  else if any_in ["preferred"; "desired"; "plus"] text then
    {| required_skills := required_skills reqs;
       preferred_skills := preferred_skills reqs ++ extract_skills sent;
       experience := experience reqs;
       education := education reqs |}
  else if any_in ["experience"; "year"] text then
    {| required_skills := required_skills reqs;
       preferred_skills := preferred_skills reqs;
       experience := experience reqs ++ [strip sent];
       education := education reqs |}
  else if any_in ["degree"; "education"; "certification"] text then
    {| required_skills := required_skills reqs;
       preferred_skills := preferred_skills reqs;
       experience := experience reqs;
       education := education reqs ++ [strip sent] |}
  else reqs.

Definition analyze_requirements (job_description : string) : requirements :=
  fold_left classify_sentence (sents env job_description)
            {| required_skills := []; preferred_skills := [];
               experience := []; education := [] |}.

(** [len(resume_skills & skills) / len(skills) if skills else 1.0] *)
Definition skill_match (resume_skills skills : gset string) : res spec_float :=
  if (size skills =? 0)%nat then Ok f_1_0
  else int_true_div (Z.of_nat (size (resume_skills ∩ skills))) (Z.of_nat (size skills)).

Definition weights : gmap string spec_float :=
  list_to_map [ ("required_skills", f_0_4);
                ("preferred_skills", f_0_2);
                ("content_similarity", f_0_4) ].

(** [score * weights[category] for category, score in detailed_scores.items()] *)
Fixpoint weighted (items : list (string * spec_float)) : res (list spec_float) :=
  match items with
  | [] => Ok []
  | (category, score) :: rest =>
      match weights !! category with
      | Some w => res_bind (weighted rest) (fun l => Ok (fmul score w :: l))
      | None => Raise (KeyError category)
      end
  end.

(** [sum(xs)]: the additions run from the left, starting from the
    integer 0. *)
Definition py_sum (xs : list spec_float) : spec_float :=
  fold_left fadd xs (of_int 0).

(** [detailed_scores] keeps the insertion order of its three keys. *)
Definition compute_match_score (resume_text job_description : string)
  : res (Z * list (string * spec_float)) :=
  let resume_clean := clean_text resume_text in
  let job_clean := clean_text job_description in
  let resume_skills : gset string := list_to_set (extract_skills resume_text) in
  let job_reqs := analyze_requirements job_description in
  let required_skills : gset string := list_to_set (required_skills job_reqs) in
  let preferred_skills : gset string := list_to_set (preferred_skills job_reqs) in
  res_bind (skill_match resume_skills required_skills) (fun required_match =>
  res_bind (skill_match resume_skills preferred_skills) (fun preferred_match =>
  res_bind (tfidf_cosine env resume_clean job_clean) (fun content_similarity =>
  let detailed_scores :=
    [ ("required_skills", fmul required_match f_100);
      ("preferred_skills", fmul preferred_match f_100);
      ("content_similarity", fmul content_similarity f_100) ] in
  res_bind (weighted detailed_scores) (fun terms =>
  let overall_score := py_sum terms in
  res_bind (int_of_float overall_score) (fun overall =>
  Ok (overall, detailed_scores)))))).

Record missing : Type := {
  missing_required : list string;
  missing_preferred : list string
}.

Definition get_missing_requirements (resume_text job_description : string) : missing :=
  let resume_skills : gset string := list_to_set (extract_skills resume_text) in
  let job_reqs := analyze_requirements job_description in
  {| missing_required :=
       List.filter (fun skill => negb (bool_decide (skill ∈ resume_skills)))
                   (required_skills job_reqs);
     missing_preferred :=
       List.filter (fun skill => negb (bool_decide (skill ∈ resume_skills)))
                   (preferred_skills job_reqs) |}.

End WithEnv.

End ResumeMatcher.

(** ** Python integers *)

Module PyInt.

(** [len(s)] for a [str]: its number of characters. *)
Definition len (s : string) : Z := Z.of_nat (PyUnicode.code_points s).

(** [str(n)] for an [int]. *)
Definition str_of_int (n : Z) : string := NilZero.string_of_int (Z.to_int n).

End PyInt.

(** ** services/resume_matcher.py: the application email *)

Module ApplicationEmail.
Import PyStr PyInt PyFloat Generator ResumeMatcher.

(** The dictionary [analysis_data]; its four keys are fixed. *)
Record analysis_data : Type := {
  match_score : Z;
  detailed_scores : list (string * spec_float);
  missing_requirements : missing;
  skills_found : list string
}.

Definition prompt_context_of (skills_to_highlight : list string) (job_reqs : requirements)
           (overall_score : Z) (tone : string) : string :=
  "Resume Skills:" +:+ nl +:+ join ", " skills_to_highlight +:+ nl +:+ nl +:+
  "Job Requirements:" +:+ nl +:+
  "Required: " +:+ join ", " (required_skills job_reqs) +:+ nl +:+
  "Preferred: " +:+ join ", " (preferred_skills job_reqs) +:+ nl +:+ nl +:+
  "Match Score: " +:+ str_of_int overall_score +:+ "%" +:+ nl +:+ nl +:+
  "Write a " +:+ lower tone +:+ " job application email that:" +:+ nl +:+
  "1. Highlights matching skills" +:+ nl +:+
  "2. Addresses any missing requirements positively" +:+ nl +:+
  "3. Shows enthusiasm and relevant experience".

(** [include_match_info] is accepted and never read. *)
Definition generate_application_email (env : nlp_env) (B : backends)
           (resume_text job_description tone : string) (include_match_info : bool)
  : M (generated_email * analysis_data) :=
  bind (lift (compute_match_score env resume_text job_description)) (fun scores =>
  let overall_score := fst scores in
  let detailed_scores := snd scores in
  let missing_reqs := get_missing_requirements env resume_text job_description in
  let skills_to_highlight := extract_skills env resume_text in
  let job_reqs := analyze_requirements env job_description in
  let prompt_context := prompt_context_of skills_to_highlight job_reqs overall_score tone in
  bind (generate_email B "Job Application" prompt_context tone None true) (fun email_content =>
  ret (email_content,
       {| match_score := overall_score;
          detailed_scores := detailed_scores;
          missing_requirements := missing_reqs;
          skills_found := skills_to_highlight |}))).

End ApplicationEmail.

(** ** utils/validators.py *)

Module Validators.
Import PyStr PyUnicode PyInt.

(** [bool(re.search(cls, s))] for a pattern [cls] that matches one
    character. *)
Fixpoint search (cls : ascii -> bool) (s : string) : bool :=
  match s with
  | EmptyString => false
  | String c s' => cls c || search cls s'
  end.

(** The classes [\d] and [\w] on ASCII characters, and the class of the
    special characters of a password. *)
Definition is_digit (c : ascii) : bool :=
  let n := nat_of_ascii c in (48 <=? n)%nat && (n <=? 57)%nat.

Definition is_word (c : ascii) : bool :=
  is_upper_ascii c || is_lower_ascii c || is_digit c || Ascii.eqb c "_".

Definition is_special (c : ascii) : bool :=
  has_char c ("!@#$%^&*(),.?" +:+ dquote +:+ ":{}|<>").

Definition MIN_LENGTH : Z := 8.
Definition MAX_LENGTH : Z := 128.

(** The dictionary [checks]; its seven keys are fixed. *)
Record checks : Type := {
  length_check : bool;
  uppercase : bool;
  lowercase : bool;
  digits : bool;
  special : bool;
  no_whitespace : bool;
  no_common : bool
}.

Section WithUnicode.
Context {U : unicode}.

(** [bool(re.search(r'\d', s))] and [bool(re.search(r'\s', s))] *)
Definition search_digit (s : string) : bool :=
  if is_ascii s then search is_digit s else u_search_digit U s.

Definition search_space (s : string) : bool :=
  if is_ascii s then search is_space s else u_search_space U s.

(** The classes [[A-Z]], [[a-z]] and the special characters hold ASCII
    characters only: no byte of a longer character is in them. *)
Definition checks_of (password : string) : checks :=
  {| length_check := (MIN_LENGTH <=? len password)%Z && (len password <=? MAX_LENGTH)%Z;
     uppercase := search is_upper_ascii password;
     lowercase := search is_lower_ascii password;
     digits := search_digit password;
     special := search is_special password;
     no_whitespace := negb (search_space password);
     no_common := negb (any_in ["password"; "123456"; "qwerty"] (str_lower password)) |}.

(** [checks.values()], in insertion order. *)
Definition values (c : checks) : list bool :=
  [ length_check c; uppercase c; lowercase c; digits c; special c;
    no_whitespace c; no_common c ].

(** [{7: "strong", 6: "good", 5: "moderate", 4: "weak"}.get(score, "very weak")] *)
Definition strength_level_of (strength_score : Z) : string :=
  if (strength_score =? 7)%Z then "strong"
  else if (strength_score =? 6)%Z then "good"
  else if (strength_score =? 5)%Z then "moderate"
  else if (strength_score =? 4)%Z then "weak"
  else "very weak".

(** The second component of the result: the dictionary has the keys
    [strength], [score] and [length] on success, and [strength], [score]
    and [errors] otherwise. *)
Inductive password_report : Type :=
| Strength (strength : string) (score : Z) (length : Z)
| Weakness (strength : string) (score : Z) (errors : list string).

(** [errors.append(msg)] under [if not check]. *)
Definition append_unless (check : bool) (msg : string) (errors : list string) : list string :=
  if check then errors else errors ++ [msg].

Definition validate_password_strength (password : string) : bool * password_report :=
  let checks := checks_of password in
  let strength_score := Z.of_nat (List.length (List.filter (fun check => check) (values checks))) in
  let strength_level := strength_level_of strength_score in
  if forallb (fun check => check) (values checks) then
    (true, Strength strength_level strength_score (len password))
  else
    let errors := [] in
    let errors := append_unless (length_check checks)
                    ("Password must be between " +:+ str_of_int MIN_LENGTH +:+ " and "
                     +:+ str_of_int MAX_LENGTH +:+ " characters") errors in
    let errors := append_unless (uppercase checks) "Include at least one uppercase letter" errors in
    let errors := append_unless (lowercase checks) "Include at least one lowercase letter" errors in
    let errors := append_unless (digits checks) "Include at least one number" errors in
    let errors := append_unless (special checks) "Include at least one special character" errors in
    let errors := append_unless (no_whitespace checks) "Password cannot contain whitespace" errors in
    let errors := append_unless (no_common checks) "Password is too common" errors in
    (false, Weakness strength_level strength_score errors).

(** [difflib.get_close_matches(word, possibilities, n=3, cutoff=0.6)] is a
    parameter. *)
Definition validate_tone (get_close_matches : string -> list string -> list string)
           (tone : string) (allowed_tones : list string) : bool * option string :=
  match tone with
  | EmptyString => (false, Some "Tone cannot be empty")
  | _ =>
      let tone_clean := str_capitalize (str_strip tone) in
      if in_list tone_clean allowed_tones then (true, None)
      else
        let matches := get_close_matches tone_clean allowed_tones in
        match matches with
        | _ :: _ =>
            (false, Some ("Invalid tone. Did you mean: " +:+ join ", " matches +:+ "?"))
        | [] =>
            (false, Some ("Invalid tone. Allowed options are: " +:+ join ", " allowed_tones))
        end
  end.

(** The truth value of an optional [int] and of an optional list. *)
Definition truthy_int (n : option Z) : bool :=
  match n with
  | Some n => negb (n =? 0)%Z
  | None => false
  end.

Definition truthy_list {A} (l : option (list A)) : bool :=
  match l with
  | Some (_ :: _) => true
  | _ => false
  end.

Definition is_empty (s : string) : bool :=
  match s with
  | EmptyString => true
  | _ => false
  end.

(** [langdetect.detect] is a parameter; whatever it raises is caught. *)
Definition validate_text_content (detect : string -> res string) (text : string)
           (max_length min_length : option Z) (allowed_languages : option (list string))
  : bool * option string :=
  if is_empty text || is_empty (str_strip text) then (false, Some "Text cannot be empty")
  else
    let text_clean := str_strip text in
    if truthy_int max_length && (default 0%Z max_length <? len text_clean)%Z then
      (false, Some ("Text exceeds maximum length of "
                    +:+ str_of_int (default 0%Z max_length) +:+ " characters"))
    else if truthy_int min_length && (len text_clean <? default 0%Z min_length)%Z then
      (false, Some ("Text must be at least "
                    +:+ str_of_int (default 0%Z min_length) +:+ " characters"))
    else if truthy_list allowed_languages then
      match detect text_clean with
      | Ok detected_lang =>
          if in_list detected_lang (default [] allowed_languages) then (true, None)
          else (false, Some ("Text language '" +:+ detected_lang +:+ "' not allowed. "
                             +:+ "Supported languages: "
                             +:+ join ", " (default [] allowed_languages)))
      | Raise _ => (false, Some "Could not detect text language")
      end
    else (true, None).

End WithUnicode.

(** [re.sub(r'<[^>]*>', '', text)]: a "<" starts a match when a ">" occurs
    after it, and the match ends at the first such ">"; [in_tag] tells
    that the scan is inside a match. *)
Fixpoint sub_tags (in_tag : bool) (text : string) : string :=
  match text with
  | EmptyString => EmptyString
  | String c rest =>
      if in_tag then sub_tags (negb (Ascii.eqb c ">")) rest
      else if Ascii.eqb c "<" && has_char ">" rest then sub_tags true rest
      else String c (sub_tags false rest)
  end.

(** The characters that [re.sub(r'[^\w\s@.,!?-]', '', text)] keeps in an
    ASCII text; no byte of a longer character is among them. *)
Definition is_kept (c : ascii) : bool :=
  is_word c || is_space c || has_char c "@.,!?-".

Fixpoint sub_unkept (text : string) : string :=
  match text with
  | EmptyString => EmptyString
  | String c rest => if is_kept c then String c (sub_unkept rest) else sub_unkept rest
  end.

(** [s.split()]: the maximal runs of characters that are not spaces. *)
Fixpoint split (s : string) : list string :=
  match s with
  | EmptyString => []
  | String c s' =>
      if is_space c then split s'
      else
        match s' with
        | EmptyString => [String c EmptyString]
        | String d _ =>
            if is_space d then String c EmptyString :: split s'
            else
              match split s' with
              | w :: ws => String c w :: ws
              | [] => [String c EmptyString]
              end
        end
  end.

Definition sanitize_input (text : string) (allow_html : bool) : string :=
  let text := if negb allow_html then sub_tags false text else text in
  let text := sub_unkept text in
  let text := join " " (split text) in
  strip text.

(** A JSON value, as [request.get_json] builds it. *)
#[warnings="-register-all"] Inductive jvalue : Type :=
| JNull
| JBool (b : bool)
| JInt (n : Z)
| JFloat (x : SpecFloat.spec_float)
| JStr (s : string)
| JList (l : list jvalue)
| JDict (d : list (string * jvalue)).

(** The classes that a schema names. *)
Inductive pytype : Type := t_str | t_int | t_float | t_bool | t_list | t_dict.

(** [expected_type.__name__] *)
Definition type_name (t : pytype) : string :=
  match t with
  | t_str => "str"
  | t_int => "int"
  | t_float => "float"
  | t_bool => "bool"
  | t_list => "list"
  | t_dict => "dict"
  end.

(** [isinstance(v, t)]; [bool] is a subclass of [int]. *)
Definition isinstance (v : jvalue) (t : pytype) : bool :=
  match v, t with
  | JBool _, t_bool | JBool _, t_int => true
  | JInt _, t_int => true
  | JFloat _, t_float => true
  | JStr _, t_str => true
  | JList _, t_list => true
  | JDict _, t_dict => true
  | _, _ => false
  end.

(** [field in data and not isinstance(data[field], expected_type)] *)
Definition ill_typed (data : gmap string jvalue) (entry : string * pytype) : bool :=
  match data !! fst entry with
  | Some v => negb (isinstance v (snd entry))
  | None => false
  end.

(** [field_types.items()] is the list of the entries in insertion order. *)
Definition validate_json_structure (data : gmap string jvalue) (required_fields : list string)
           (field_types : list (string * pytype)) : bool * option string :=
  let missing_fields :=
    List.filter (fun field => negb (bool_decide (is_Some (data !! field)))) required_fields in
  match missing_fields with
  | _ :: _ => (false, Some ("Missing required fields: " +:+ join ", " missing_fields))
  | [] =>
      match List.find (ill_typed data) field_types with
      | Some (field, expected_type) =>
          (false, Some ("Field '" +:+ field +:+ "' must be of type "
                        +:+ type_name expected_type))
      | None => (true, None)
      end
  end.

End Validators.

(** ** utils/metrics.py *)

Module Metrics.
Import Generator.

(** A row of [email_records], with the columns that the queries read;
    [user_id] is nullable. *)
Record EmailRecord : Type := {
  id : Z;
  user_id : option Z
}.

(** [query.filter(EmailRecord.user_id == user_id)] *)
Definition filter_user (uid : Z) (query : list EmailRecord) : list EmailRecord :=
  List.filter (fun r => bool_decide (user_id r = Some uid)) query.

(** [email_generation_count._value.set(count)] *)
Definition set_counter (count : Z) : M unit :=
  fun s => (Ok tt, {| email_generation_count := count; calls := calls s |}).

(** The session is a snapshot of the table; [if user_id] is false for
    [None] and for 0. *)
Definition get_email_count (db : list EmailRecord) (uid : option Z) : M Z :=
  let query := db in
  let query :=
    match uid with
    | Some u => if (u =? 0)%Z then query else filter_user u query
    | None => query
    end in
  let count := Z.of_nat (List.length query) in
  bind (set_counter count) (fun _ => ret count).

End Metrics.

(** * Vocabulary of the statements *)

(** ** Strings *)

Module PyStrSpec.
Import PyStr.



End PyStrSpec.

(** ** Floats *)

Module PyFloatSpec.
Import PyFloat.
Local Open Scope Z_scope.

(** Some non-zero bit has been shifted out of the mantissa of [r]. *)
Definition inexact (r : shr_record) : bool := shr_r r || shr_s r.

(** [r'] is [r] shifted right by [n] bits: the mantissa is divided by
    [2^n], and nothing is recorded as lost when nothing was. *)
Definition Shifted (n : Z) (r r' : shr_record) : Prop :=
  0 <= shr_m r ->
  shr_m r' = shr_m r / 2 ^ n
  /\ (inexact r = false -> (exists k, shr_m r = k * 2 ^ n) -> inexact r' = false).

(** [x] is +0 or a positive finite float [m * 2^e] with [e <= E] and
    value at most [K * 2^E]. *)
Definition bounded_by (K E : Z) (x : spec_float) : Prop :=
  match x with
  | S754_zero false => True
  | S754_finite false m e => e <= E /\ Zpos m <= K * 2 ^ (E - e)
  | _ => False
  end.

End PyFloatSpec.

(** ** Tones *)

Module ToneAdapterSpec.
Import PyStr PyUnicode PyFloat ToneAdapter.
Local Open Scope Z_scope.


Section WithUnicode.
Context {U : unicode}.

(** The input once trimmed and capitalised. *)
Definition cleaned (input : string) : string := str_capitalize (str_strip input).


(** How many of [markers] occur, lower-cased, in the lower-cased text. *)
Definition hits (markers : list string) (text : string) : Z :=
  Z.of_nat (length (List.filter (fun m => contains (str_lower m) (str_lower text)) markers)).

(** Preferred words count 1, preferred phrases 2, words to avoid -1. *)
Definition marker_score (chars : tone_chars) (text : string) : Z :=
  hits (words chars) text + 2 * hits (phrases chars) text - hits (avoid chars) text.

(** The score divided by the number of words and phrases, as a rational
    and as the float that the division of the two integers yields. *)
Definition exact_score (chars : tone_chars) (text : string) : Q :=
  Qmake (marker_score chars text) (Z.to_pos (total_markers chars)).

Definition float_score (chars : tone_chars) (text : string) : spec_float :=
  fdiv (raw_int (marker_score chars text)) (raw_int (total_markers chars)).

(** The scores the catalog can produce lie between -7 and 18, over 12 or
    13 markers; [grid_ok] checks on all of them that comparing the floats
    is comparing the exact quotients. *)
Definition score_grid : list Z := seqZ (-7) 26.

Definition grid_ok : bool :=
  forallb (fun a => forallb (fun b => forallb (fun ta => forallb (fun tb =>
    Bool.eqb (flt (fdiv (raw_int a) (raw_int ta)) (fdiv (raw_int b) (raw_int tb)))
             (a * tb <? b * ta)) [12; 13]) [12; 13]) score_grid) score_grid.

(** The entry of [scores] for one entry of the catalog. *)
Definition score_item (text : string) (entry : string * tone_chars) : string * spec_float :=
  (fst entry, float_score (snd entry) text).

End WithUnicode.



End ToneAdapterSpec.

(** ** Email generation *)

Module GeneratorSpec.
Import PyStr Generator.
Local Open Scope Z_scope.

(** The state after a call to a backend has been recorded. *)
Definition logged (s : state) (c : call) : state :=
  {| email_generation_count := email_generation_count s; calls := calls s ++ [c] |}.

(** The state after one more generated email has been counted. *)
Definition counted (s : state) : state :=
  {| email_generation_count := email_generation_count s + 1; calls := calls s |}.

(** The text taken from the pipeline's answer, when it has the expected shape. *)
Definition hf_text (result : list (gmap string string)) : res string :=
  res_bind (first result) (fun r0 =>
  res_bind (getitem r0 "generated_text") (fun text => Ok (strip text))).

(** The text returned when the pipeline fails. *)
Definition error_content (e : exn) : string := "Error generating email: " +:+ exn_str e.

(** The request sent to the OpenAI client for a catalog tone. *)
Definition gpt_request_for (subject context tone : string)
           (recipient_name : option string) (ex : tone_example) : chat_request :=
  chat_call_args
    (gpt_prompt_of (default "professional" (TONE_DESCRIPTIONS !! tone)) subject context tone
                   (replace "[Name]" (or_empty recipient_name) (greeting ex))
                   recipient_name (closing ex)).

(** The text taken from the client's answer, when it has the expected shape. *)
Definition gpt_text (response : chat_completion) : res string :=
  res_bind (first (choices response)) strip_opt.

(** The primary backend raises on the request built for these arguments
    (there is no request when the tone has no entry in [TONE_EXAMPLES]). *)
Definition primary_raises (B : backends) (subject context tone : string)
           (recipient_name : option string) : Prop :=
  forall ex, TONE_EXAMPLES !! tone = Some ex ->
             exists e, openai_create B (gpt_request_for subject context tone recipient_name ex)
                       = Raise e.

(** A fresh process: nothing counted, no call made. *)
Definition start : state := {| email_generation_count := 0; calls := [] |}.

(** The OpenAI call fails, the local pipeline answers. *)
Definition primary_down : backends :=
  {| openai_create := fun _ => Raise (BackendError "Rate limit reached");
     hf_generator := fun _ =>
       Ok [ ({[ "generated_text" := " Dear Sir/Madam, the meeting moves to Thursday. " ]}
             : gmap string string) ];
     HF_MODEL := "microsoft/phi-2";
     now := "2024-05-06 10:00:00.000000" |}.

(** Both backends fail. *)
Definition both_down : backends :=
  {| openai_create := fun _ => Raise (BackendError "Rate limit reached");
     hf_generator := fun _ => Raise (BackendError "CUDA out of memory");
     HF_MODEL := "microsoft/phi-2";
     now := "2024-05-06 10:00:00.000000" |}.

(** Both backends answer. *)
Definition both_up : backends :=
  {| openai_create := fun _ => Ok {| choices := [Some " Dear Ann, see you Thursday. "] |};
     hf_generator := fun _ =>
       Ok [ ({[ "generated_text" := " Dear Sir/Madam, the meeting moves to Thursday. " ]}
             : gmap string string) ];
     HF_MODEL := "microsoft/phi-2";
     now := "2024-05-06 10:00:00.000000" |}.

(** The primary backend answers with a completion whose first choice has
    a content; the fallback pipeline answers with a list whose first
    entry has a generated text; the fallback pipeline raises. *)
Definition primary_answers (B : backends) (subject context tone : string)
           (recipient_name : option string) : Prop :=
  exists ex response text,
    TONE_EXAMPLES !! tone = Some ex
    /\ openai_create B (gpt_request_for subject context tone recipient_name ex) = Ok response
    /\ gpt_text response = Ok text.

Definition fallback_answers (B : backends) (subject context tone : string) : Prop :=
  exists result text,
    hf_generator B (hf_call_args (hf_prompt_of subject context tone)) = Ok result
    /\ hf_text result = Ok text.

Definition fallback_raises (B : backends) (subject context tone : string) : Prop :=
  exists e, hf_generator B (hf_call_args (hf_prompt_of subject context tone)) = Raise e.

End GeneratorSpec.

(** ** Resume matching *)

Module ResumeMatcherSpec.
Import PyStr PyFloat PyFloatSpec ResumeMatcher.

(** The sum that [compute_match_score] truncates, for the three scores
    in the order of [detailed_scores]. *)
Definition weighted_sum (rs ps cs : spec_float) : spec_float :=
  fadd (fadd (fadd (of_int 0) (fmul rs f_0_4)) (fmul ps f_0_2)) (fmul cs f_0_4).



Section WithEnv.
Variable env : nlp_env.

(** The tokens that survive the stop-word and length filter. *)
Definition kept (token : string) : bool :=
  negb (bool_decide (token ∈ stop_words env)) && (2 <? String.length token)%nat.

(** Neither the substitution nor the tokenizer brings in a capital
    letter that their input does not have. *)
Definition keeps_case : Prop :=
  (forall text, no_upper text = true -> no_upper (sub_nonword env text) = true)
  /\ (forall text token, no_upper text = true -> token ∈ word_tokenize env text ->
                         no_upper token = true).

End WithEnv.

(** A float that is +0.0 or positive and at most 1. *)
Definition unit_float (c : spec_float) : Prop := bounded_by 1 0 c.

(** A float that is +0.0 or positive and at most 100. *)
Definition percent_float (x : spec_float) : Prop :=
  is_finite x = true /\ (0 <= to_Q x)%Q /\ (to_Q x <= 100)%Q.

End ResumeMatcherSpec.

(** ** A stand-in for the Unicode tables, to run the tone adapter and
    the validators *)

Module PlainText.
Import PyStr PyUnicode Validators.

(** Tables that know ASCII only: beyond it no character is cased, a space
    or a digit.  They are never asked on an ASCII text. *)
Definition ascii_tables : unicode :=
  {| u_lower := lower;
     u_capitalize := capitalize;
     u_strip := strip;
     u_search_digit := search is_digit;
     u_search_space := search is_space |}.



End PlainText.

(** ** A stand-in for the language packages, to run the matcher

    Nothing here belongs to the repository: a tokenizer that cuts at the
    characters that are not letters, a lemmatizer with three entries and a
    vectorizer with three answers, enough to evaluate the functions of
    resume_matcher.py on small texts. *)

Module Demo.
Import PyStr PyFloat ResumeMatcher.

(** The maximal runs of characters of [s] that satisfy [p]. *)
Fixpoint runs (p : ascii -> bool) (s : string) : list string :=
  match s with
  | EmptyString => []
  | String c s' =>
      let rest := runs p s' in
      if p c then
        match s' with
        | String d _ =>
            if p d then
              match rest with
              | w :: ws => String c w :: ws
              | [] => [String c EmptyString]
              end
            else String c EmptyString :: rest
        | EmptyString => [String c EmptyString]
        end
      else rest
  end.

Definition is_word_char (c : ascii) : bool :=
  is_upper_ascii c || is_lower_ascii c
  || bool_decide (c = "+"%char) || bool_decide (c = "#"%char) || bool_decide (c = "-"%char).

Definition words_of (s : string) : list string := runs is_word_char s.

Definition sentences_of (s : string) : list string :=
  runs (fun c => negb (bool_decide (c = "."%char))) s.

Definition lemma_table : gmap string string :=
  list_to_map [ ("pipelines", "pipeline"); ("skills", "skill"); ("databases", "database") ].

Definition f_0_5 : spec_float := S754_finite false 4503599627370496 (-53).

Definition demo_env : nlp_env :=
  {| ents := fun _ => [];
     sents := sentences_of;
     finditer := fun pattern text =>
       if String.eqb pattern "\b[A-Za-z+#]+(?:\.[A-Za-z+]+)*\b" then words_of text else [];
     sub_nonword := fun text => text;
     word_tokenize := words_of;
     lemmatize := fun token => default token (lemma_table !! token);
     stop_words := list_to_set ["and"; "the"; "for"; "with"; "are"];
     tfidf_cosine := fun a b =>
       match a, b with
       | EmptyString, EmptyString =>
           Raise (ValueError "empty vocabulary; perhaps the documents only contain stop words")
       | EmptyString, _ | _, EmptyString => Ok (S754_zero false)
       | _, _ => Ok f_0_5
       end |}.

Definition resume_1 : string := "Experienced in Python and AWS".
Definition job_1 : string := "Required: Python, SQL. Preferred: AWS.".
Definition job_2 : string := "We build data pipelines for hospitals.".
Definition job_3 : string := "Required: Python, SQL. Preferred: AWS, Docker.".

(** The float after 1.0: the rounded cosine of two equal vectors can be
    1.0000000000000002. *)
Definition f_1_next : spec_float := S754_finite false 4503599627370497 (-52).

(** [demo_env] with a vectorizer that answers [f_1_next] on two equal
    texts with a token. *)
Definition demo_env_equal : nlp_env :=
  {| ents := ents demo_env;
     sents := sents demo_env;
     finditer := finditer demo_env;
     sub_nonword := sub_nonword demo_env;
     word_tokenize := word_tokenize demo_env;
     lemmatize := lemmatize demo_env;
     stop_words := stop_words demo_env;
     tfidf_cosine := fun a b =>
       match a with
       | EmptyString => tfidf_cosine demo_env a b
       | _ => if String.eqb a b then Ok f_1_next else tfidf_cosine demo_env a b
       end |}.

End Demo.

(** ** Tone analysis: texts without marker, confidence *)

Module ConfidenceSpec.
Import PyStr PyUnicode PyFloat ToneAdapter ToneAdapterSpec.
Local Open Scope Z_scope.

(** No preferred word, preferred phrase or word to avoid of any tone
    occurs, lower-cased, in the lower-cased text. *)
Definition no_marker {U : unicode} (text : string) : bool :=
  forallb (fun entry : string * tone_chars =>
             forallb (fun m => negb (contains (str_lower m) (str_lower text)))
                     (words (snd entry) ++ phrases (snd entry) ++ avoid (snd entry)))
          TONE_CHARACTERISTICS.

(** The confidence reported for the score [a / t]. *)
Definition confidence_of (a t : Z) : spec_float :=
  py_min f_1_0 (fdiv (raw_int a) (raw_int t)).

Definition confidence_grid_ok : bool :=
  forallb (fun a => forallb (fun t =>
    implb (-5 * t <=? 13 * a)
          (is_finite (confidence_of a t)
           && Qle_bool (- (2 # 5)) (to_Q (confidence_of a t))
           && Qle_bool (to_Q (confidence_of a t)) 1)) [12; 13]) score_grid.

End ConfidenceSpec.

(** ** Email generation: the calls of a run *)

Module AccountingSpec.
Import PyStr Generator.

(** The backend answered the call (it did not raise). *)
Definition answered (B : backends) (c : call) : bool :=
  match c with
  | OpenAICall req => match openai_create B req with Ok _ => true | Raise _ => false end
  | HFCall req => match hf_generator B req with Ok _ => true | Raise _ => false end
  end.

(** The calls that a run may add to the log: the pipeline alone, the
    client alone, or the client followed by the pipeline. *)
Inductive call_pattern : list call -> Prop :=
| only_fallback (h : hf_request) : call_pattern [HFCall h]
| only_primary (o : chat_request) : call_pattern [OpenAICall o]
| primary_then_fallback (o : chat_request) (h : hf_request) :
    call_pattern [OpenAICall o; HFCall h].


End AccountingSpec.

(** ** Resume matching: the keywords of the requirement sentences *)

Module RequirementsSpec.
Import PyStr.



End RequirementsSpec.

(** ** Validators *)

Module ValidatorsSpec.
Import PyStr PyInt Validators.

(** Some character of [s] is in the class [cls]. *)
Definition some_char (cls : ascii -> bool) (s : string) : Prop :=
  exists c, has_char c s = true /\ cls c = true.

(** Every character of [s] is in the class [cls]. *)
Fixpoint all_chars (cls : ascii -> bool) (s : string) : bool :=
  match s with
  | EmptyString => true
  | String c s' => cls c && all_chars cls s'
  end.

(** The characters a sanitized text is made of: letters, digits, the
    underscore, the space and [@ . , ! ? -]. *)
Definition is_plain (c : ascii) : bool :=
  is_word c || Ascii.eqb c " " || has_char c "@.,!?-".



(** The messages of [validate_password_strength], with the checks they report. *)
Definition password_messages (c : checks) : list (bool * string) :=
  [ (length_check c, "Password must be between 8 and 128 characters");
    (uppercase c, "Include at least one uppercase letter");
    (lowercase c, "Include at least one lowercase letter");
    (digits c, "Include at least one number");
    (special c, "Include at least one special character");
    (no_whitespace c, "Password cannot contain whitespace");
    (no_common c, "Password is too common") ].

(** A word of [s.split()]: not empty and without whitespace. *)
Definition is_word_of_split (w : string) : Prop :=
  w <> "" /\ all_chars (fun c => negb (is_space c)) w = true.

End ValidatorsSpec.

(** ** A vectorizer that recognises equal texts *)

Module Samples.
Import PyStr PyFloat ResumeMatcher Demo.

(** [demo_env] with the similarity 1.0 for two equal cleaned texts. *)
Definition echo_env : nlp_env :=
  {| ents := ents demo_env;
     sents := sents demo_env;
     finditer := finditer demo_env;
     sub_nonword := sub_nonword demo_env;
     word_tokenize := word_tokenize demo_env;
     lemmatize := lemmatize demo_env;
     stop_words := stop_words demo_env;
     tfidf_cosine := fun a b =>
       if String.eqb a b then Ok f_1_0 else tfidf_cosine demo_env a b |}.

End Samples.

(** * Properties *)

(** ** Strings *)

Module PyStrFacts.
Import PyStr PyStrSpec.

Ltac each_ascii c :=
  destruct c as [[] [] [] [] [] [] [] []]; vm_compute; try reflexivity; try congruence.





Lemma lower_ascii_not_upper (c : ascii) : is_upper_ascii (lower_ascii c) = false.
Proof. each_ascii c. Qed.




Lemma lower_app (s t : string) : lower (s +:+ t) = lower s +:+ lower t.
Proof. induction s as [|c s IH]; simpl; [done|]. by rewrite IH. Qed.




(** *** Prefixes and substrings *)









Lemma lower_no_upper (s : string) : no_upper (lower s) = true.
Proof.
  induction s as [|c s IH]; simpl; [done|]. by rewrite lower_ascii_not_upper, IH.
Qed.

Lemma no_upper_isupper (s : string) : no_upper s = true -> isupper s = false.
Proof.
  unfold isupper. induction s as [|c s IH]; simpl; [done|].
  intros H. apply andb_true_iff in H as [Hc Hs]. apply negb_true_iff in Hc.
  rewrite Hc. simpl. destruct (is_lower_ascii c); [done|by apply IH].
Qed.

End PyStrFacts.

(** ** Floats: bounds that survive rounding *)

Module PyFloatFacts.
Import PyFloat PyFloatSpec.
Local Open Scope Z_scope.

Lemma digits2_size (p : positive) : digits2_pos p = Pos.size p.
Proof. induction p; simpl; congruence. Qed.

Lemma digits_upper (p : positive) : Zpos p < 2 ^ Zpos (digits2_pos p).
Proof.
  rewrite digits2_size. pose proof (Pos.size_gt p) as H.
  change 2 with (Zpos 2) at 1. rewrite <- Pos2Z.inj_pow. lia.
Qed.

Lemma digits_lower (p : positive) : 2 ^ Zpos (digits2_pos p) <= 2 * Zpos p.
Proof.
  rewrite digits2_size. pose proof (Pos.size_le p) as H.
  change 2 with (Zpos 2) at 1. rewrite <- Pos2Z.inj_pow. lia.
Qed.

Lemma digits_le (m k : Z) : 0 <= m -> 0 <= k -> m < 2 ^ k -> Zdigits2 m <= k.
Proof.
  intros Hm Hk Hlt. destruct m as [|p|p]; simpl; [lia| |lia].
  destruct (Z_lt_le_dec k (Zpos (digits2_pos p))) as [Hc|Hc]; [|lia].
  exfalso. pose proof (digits_lower p) as Hl.
  assert (2 ^ (k + 1) <= 2 ^ Zpos (digits2_pos p)) by (apply Z.pow_le_mono_r; lia).
  rewrite Z.pow_add_r in H by lia. lia.
Qed.

Lemma shifted_1 (r : shr_record) : Shifted 1 r (shr_1 r).
Proof.
  intros Hm. destruct r as [m rb sb]. cbn [shr_m] in *.
  change (2 ^ 1) with 2. split.
  - rewrite <- Z.div2_div.
    destruct m as [|[p|p|]|p]; cbn [shr_1 shr_m]; try reflexivity; lia.
  - unfold inexact. cbn [shr_r shr_s]. intros Hex [k Hk].
    apply orb_false_iff in Hex as [-> ->].
    destruct m as [|[p|p|]|p]; cbn [shr_1 shr_r shr_s]; try reflexivity; lia.
Qed.

Lemma shifted_comp (a b : Z) (r r1 r2 : shr_record) :
  0 <= a -> 0 <= b -> Shifted a r r1 -> Shifted b r1 r2 -> Shifted (a + b) r r2.
Proof.
  intros Ha Hb H1 H2 Hm.
  destruct (H1 Hm) as [E1 X1].
  assert (Hm1 : 0 <= shr_m r1).
  { rewrite E1. apply Z.div_pos; [done|]. apply Z.pow_pos_nonneg; lia. }
  destruct (H2 Hm1) as [E2 X2].
  assert (Pa : 0 < 2 ^ a) by (apply Z.pow_pos_nonneg; lia).
  assert (Pb : 0 < 2 ^ b) by (apply Z.pow_pos_nonneg; lia).
  split.
  - rewrite E2, E1, Z.pow_add_r by lia. rewrite Z.div_div by lia. reflexivity.
  - intros Hex [k Hk]. apply X2.
    + apply X1; [done|]. exists (k * 2 ^ b). rewrite Hk, Z.pow_add_r by lia. ring.
    + exists k. rewrite E1, Hk, Z.pow_add_r by lia.
      replace (k * (2 ^ a * 2 ^ b)) with (k * 2 ^ b * 2 ^ a) by ring.
      apply Z.div_mul. lia.
Qed.

Lemma shifted_iter (p : positive) (r : shr_record) :
  Shifted (Zpos p) r (SpecFloat.iter_pos shr_1 p r).
Proof.
  revert r. induction p as [p IH|p IH|]; intros r; cbn [SpecFloat.iter_pos].
  - replace (Zpos p~1) with (1 + (Zpos p + Zpos p)) by lia.
    apply (shifted_comp _ _ _ (shr_1 r)); [lia|lia|apply shifted_1|].
    apply (shifted_comp _ _ _ (SpecFloat.iter_pos shr_1 p (shr_1 r))); [lia|lia|apply IH|apply IH].
  - replace (Zpos p~0) with (Zpos p + Zpos p) by lia.
    apply (shifted_comp _ _ _ (SpecFloat.iter_pos shr_1 p r)); [lia|lia|apply IH|apply IH].
  - apply shifted_1.
Qed.


Lemma loc_of_record_of_loc (m : Z) (l : location) :
  loc_of_shr_record (shr_record_of_loc m l) = l.
Proof. by destruct l as [|[]]. Qed.

Lemma record_of_loc_m (m : Z) (l : location) : shr_m (shr_record_of_loc m l) = m.
Proof. by destruct l as [|[]]. Qed.

Lemma record_exact (m : Z) : inexact (shr_record_of_loc m loc_Exact) = false.
Proof. reflexivity. Qed.

Lemma inexact_false_loc (r : shr_record) :
  inexact r = false -> loc_of_shr_record r = loc_Exact.
Proof.
  destruct r as [m rb sb]. unfold inexact. cbn. intros H.
  apply orb_false_iff in H as [-> ->]. reflexivity.
Qed.

Lemma round_nearest_even_bounds (m : Z) (l : location) :
  m <= round_nearest_even m l <= m + 1
  /\ (l = loc_Exact -> round_nearest_even m l = m).
Proof.
  destruct l as [|[]]; cbn; try destruct (Z.even m); split; try lia; try done.
Qed.

(** One alignment step of [binary_round_aux]: the mantissa is shifted to
    the exponent [fexp] asks for, keeping track of what was lost. *)
Lemma shr_fexp_stage (m e : Z) (l : location) (K E : Z) :
  0 <= m -> e <= E -> -1074 <= E -> 0 < K < 2 ^ 53 ->
  m < K * 2 ^ (E - e) \/ (l = loc_Exact /\ m <= K * 2 ^ (E - e)) ->
  forall r e', shr_fexp 53 1024 m e l = (r, e') ->
    e' <= E /\ 0 <= shr_m r
    /\ (shr_m r < K * 2 ^ (E - e')
        \/ (loc_of_shr_record r = loc_Exact /\ shr_m r <= K * 2 ^ (E - e'))).
Proof.
  intros Hm He HE HK Hb r e'. unfold shr_fexp, shr.
  set (n := fexp 53 1024 (Zdigits2 m + e) - e).
  assert (Hfexp : fexp 53 1024 (Zdigits2 m + e) <= E).
  { unfold fexp, emin. apply Z.max_lub; [|lia].
    assert (Zdigits2 m <= 53 + (E - e)); [|lia].
    apply digits_le; [lia|lia|].
    rewrite Z.pow_add_r by lia.
    assert (0 < 2 ^ (E - e)) by (apply Z.pow_pos_nonneg; lia).
    nia. }
  destruct n as [|p|p] eqn:Hn.
  - intros [= <- <-]. rewrite record_of_loc_m, loc_of_record_of_loc. tauto.
  - intros [= <- <-].
    pose proof (shifted_iter p (shr_record_of_loc m l)) as Hs.
    unfold Shifted in Hs. rewrite record_of_loc_m in Hs. destruct (Hs Hm) as [Em Ex].
    assert (P : 0 < 2 ^ Zpos p) by (apply Z.pow_pos_nonneg; lia).
    assert (Epow : 2 ^ (E - e) = 2 ^ (E - (e + Zpos p)) * 2 ^ Zpos p).
    { rewrite <- Z.pow_add_r by lia. f_equal; lia. }
    set (X := K * 2 ^ (E - (e + Zpos p))) in *.
    assert (HX : K * 2 ^ (E - e) = X * 2 ^ Zpos p) by (rewrite Epow; unfold X; ring).
    rewrite HX in Hb.
    split; [lia|]. split; [rewrite Em; apply Z.div_pos; lia|].
    rewrite Em.
    assert (Hle : m / 2 ^ Zpos p <= X).
    { apply Z.div_le_upper_bound; [lia|]. destruct Hb as [Hb|[_ Hb]]; lia. }
    destruct (Z.eq_dec (m / 2 ^ Zpos p) X) as [Heq|Hne]; [|left; lia].
    right. split; [|lia].
    apply inexact_false_loc.
    pose proof (Z.mul_div_le m (2 ^ Zpos p) P) as Hmd. rewrite Heq in Hmd.
    destruct Hb as [Hb|[-> Hb]]; [lia|].
    apply Ex; [reflexivity|]. exists X. lia.
  - intros [= <- <-]. rewrite record_of_loc_m, loc_of_record_of_loc. tauto.
Qed.

Lemma round_aux_bounded (m e : Z) (l : location) (K E : Z) :
  0 <= m -> e <= E -> -1074 <= E <= 971 -> 0 < K < 2 ^ 53 ->
  m < K * 2 ^ (E - e) \/ (l = loc_Exact /\ m <= K * 2 ^ (E - e)) ->
  bounded_by K E (binary_round_aux 53 1024 false m e l).
Proof.
  intros Hm He HE HK Hb. unfold binary_round_aux.
  destruct (shr_fexp 53 1024 m e l) as [r1 e1] eqn:S1.
  destruct (shr_fexp_stage m e l K E Hm He ltac:(lia) HK Hb r1 e1 S1) as (He1 & Hm1 & Hb1).
  pose proof (round_nearest_even_bounds (shr_m r1) (loc_of_shr_record r1)) as [Hr Hrx].
  set (m2 := round_nearest_even (shr_m r1) (loc_of_shr_record r1)) in *.
  assert (Hm2 : m2 <= K * 2 ^ (E - e1)).
  { destruct Hb1 as [Hlt|[Hex Hle]]; [lia|]. rewrite (Hrx Hex). exact Hle. }
  destruct (shr_fexp 53 1024 m2 e1 loc_Exact) as [r2 e2] eqn:S2.
  destruct (shr_fexp_stage m2 e1 loc_Exact K E ltac:(lia) He1 ltac:(lia) HK
              ltac:(right; split; [reflexivity|exact Hm2]) r2 e2 S2) as (He2 & Hm3 & Hb2).
  destruct (shr_m r2) as [|p|p] eqn:Hp; cbn [bounded_by].
  - exact I.
  - replace (e2 <=? 1024 - 53) with true by (symmetry; apply Z.leb_le; lia).
    cbn [bounded_by]. split; [exact He2|]. destruct Hb2 as [?|[_ ?]]; lia.
  - lia.
Qed.

Lemma bounded_by_weaken (K E K' : Z) (x : spec_float) :
  bounded_by K E x -> K <= K' -> bounded_by K' E x.
Proof.
  intros Hx HK. destruct x as [[]|[]| |[] m e]; cbn in *; try done.
  destruct Hx as [He Hm]. split; [done|].
  assert (0 < 2 ^ (E - e)) by (apply Z.pow_pos_nonneg; lia). nia.
Qed.

Lemma fmul_bounded (K1 E1 K2 E2 K E : Z) (x y : spec_float) :
  bounded_by K1 E1 x -> bounded_by K2 E2 y ->
  0 <= K1 -> 0 <= K2 -> E1 + E2 <= E -> -1074 <= E <= 971 -> 0 < K < 2 ^ 53 ->
  K1 * K2 <= K * 2 ^ (E - E1 - E2) ->
  bounded_by K E (fmul x y).
Proof.
  intros Hx Hy HK1 HK2 HE12 HE HK Hprod.
  destruct x as [[]|[]| |[] mx ex]; try done; destruct y as [[]|[]| |[] my ey]; try done.
  unfold fmul, prec, emax. cbn [SFmul xorb]. destruct Hx as [Hex Hmx]. destruct Hy as [Hey Hmy].
  apply round_aux_bounded; [lia|lia|lia|lia|].
  right. split; [reflexivity|].
  assert (P1 : 0 < 2 ^ (E1 - ex)) by (apply Z.pow_pos_nonneg; lia).
  assert (P2 : 0 < 2 ^ (E2 - ey)) by (apply Z.pow_pos_nonneg; lia).
  assert (P3 : 0 < 2 ^ (E - E1 - E2)) by (apply Z.pow_pos_nonneg; lia).
  replace (E - (ex + ey)) with ((E - E1 - E2) + ((E1 - ex) + (E2 - ey))) by lia.
  rewrite !Z.pow_add_r by lia. rewrite Pos2Z.inj_mul.
  apply Z.le_trans with ((K1 * 2 ^ (E1 - ex)) * (K2 * 2 ^ (E2 - ey))).
  - apply Z.mul_le_mono_nonneg; lia.
  - replace (K1 * 2 ^ (E1 - ex) * (K2 * 2 ^ (E2 - ey)))
      with ((K1 * K2) * (2 ^ (E1 - ex) * 2 ^ (E2 - ey))) by ring.
    replace (K * (2 ^ (E - E1 - E2) * (2 ^ (E1 - ex) * 2 ^ (E2 - ey))))
      with ((K * 2 ^ (E - E1 - E2)) * (2 ^ (E1 - ex) * 2 ^ (E2 - ey))) by ring.
    apply Z.mul_le_mono_nonneg_r; [nia|lia].
Qed.

Lemma shl_align_spec (mx : positive) (ex ex' : Z) :
  forall m' e', shl_align mx ex ex' = (m', e') ->
    e' <= ex /\ Zpos m' = Zpos mx * 2 ^ (ex - e').
Proof.
  intros m' e'. unfold shl_align. destruct (ex' - ex) as [|d|d] eqn:Hd.
  - intros [= <- <-]. rewrite Z.sub_diag. simpl. lia.
  - intros [= <- <-]. rewrite Z.sub_diag. simpl. lia.
  - intros [= <- <-]. split; [lia|].
    replace (ex - ex') with (Zpos d) by lia.
    change (Pos.iter xO mx d) with (shift_pos d mx).
    rewrite shift_pos_correct. change (Z.pow_pos 2 d) with (2 ^ Zpos d). ring.
Qed.

Lemma binary_round_bounded (m : positive) (e K E : Z) :
  e <= E -> -1074 <= E <= 971 -> 0 < K < 2 ^ 53 ->
  Zpos m <= K * 2 ^ (E - e) ->
  bounded_by K E (binary_round 53 1024 false m e).
Proof.
  intros He HE HK Hm. unfold binary_round.
  destruct (shl_align m e _) as [mz ez] eqn:Hs.
  apply shl_align_spec in Hs as [Hez Hmz].
  apply round_aux_bounded; [lia|lia|lia|lia|].
  right. split; [reflexivity|]. rewrite Hmz.
  replace (E - ez) with ((E - e) + (e - ez)) by lia.
  rewrite Z.pow_add_r by lia.
  assert (0 < 2 ^ (e - ez)) by (apply Z.pow_pos_nonneg; lia). nia.
Qed.

Lemma fadd_bounded (K1 K2 K E : Z) (x y : spec_float) :
  bounded_by K1 E x -> bounded_by K2 E y ->
  0 <= K1 -> 0 <= K2 -> K1 + K2 <= K -> -1074 <= E <= 971 -> 0 < K < 2 ^ 53 ->
  bounded_by K E (fadd x y).
Proof.
  intros Hx Hy HK1 HK2 Hsum HE HK.
  destruct x as [[]|[]| |[] mx ex]; try done; destruct y as [[]|[]| |[] my ey]; try done.
  - apply (bounded_by_weaken K2); [done|lia].
  - apply (bounded_by_weaken K1); [done|lia].
  - unfold fadd, prec, emax. cbn [SFadd cond_Zopp]. destruct Hx as [Hex Hmx]. destruct Hy as [Hey Hmy].
    set (ez := Z.min ex ey).
    destruct (shl_align mx ex ez) as [ax ez1] eqn:Sx.
    destruct (shl_align my ey ez) as [ay ez2] eqn:Sy.
    pose proof (shl_align_spec _ _ _ _ _ Sx) as [Hx1 Hx2].
    pose proof (shl_align_spec _ _ _ _ _ Sy) as [Hy1 Hy2].
    assert (ez1 = ez).
    { unfold shl_align in Sx. destruct (ez - ex) eqn:?; injection Sx as _ <-; lia. }
    assert (ez2 = ez).
    { unfold shl_align in Sy. destruct (ez - ey) eqn:?; injection Sy as _ <-; lia. }
    subst ez1 ez2. cbn [fst]. rewrite <- Pos2Z.inj_add. cbn [binary_normalize].
    apply binary_round_bounded; [lia|lia|lia|].
    rewrite Pos2Z.inj_add, Hx2, Hy2.
    assert (Px : 2 ^ (E - ez) = 2 ^ (E - ex) * 2 ^ (ex - ez)).
    { rewrite <- Z.pow_add_r by lia. f_equal; lia. }
    assert (Py : 2 ^ (E - ez) = 2 ^ (E - ey) * 2 ^ (ey - ez)).
    { rewrite <- Z.pow_add_r by lia. f_equal; lia. }
    assert (0 < 2 ^ (ex - ez)) by (apply Z.pow_pos_nonneg; lia).
    assert (0 < 2 ^ (ey - ez)) by (apply Z.pow_pos_nonneg; lia).
    assert (0 < 2 ^ (E - ez)) by (apply Z.pow_pos_nonneg; lia).
    assert (Zpos mx * 2 ^ (ex - ez) <= K1 * 2 ^ (E - ez)) by (rewrite Px; nia).
    assert (Zpos my * 2 ^ (ey - ez) <= K2 * 2 ^ (E - ez)) by (rewrite Py; nia).
    nia.
Qed.

Lemma new_location_exact (n : Z) : new_location n 0 = loc_Exact.
Proof. unfold new_location. destruct (Z.even n); reflexivity. Qed.

Lemma fdiv_ratio_bounded (a b : Z) :
  0 <= a <= b -> 0 < b ->
  bounded_by 1 0 (fdiv (raw_int a) (raw_int b)).
Proof.
  intros Ha Hb. destruct b as [|q|q]; try lia. destruct a as [|p|p]; try lia; [done|].
  unfold fdiv, prec, emax. cbn [raw_int SFdiv xorb]. unfold SFdiv_core_binary.
  set (e' := Z.min (fexp 53 1024 (Zdigits2 (Zpos p) + 0 - (Zdigits2 (Zpos q) + 0))) (0 - 0)).
  assert (He' : e' <= 0) by (unfold e'; lia).
  set (s := 0 - 0 - e').
  set (m' := match s with Zpos _ => Z.shiftl (Zpos p) s | Z0 => Zpos p | Zneg _ => 0 end).
  assert (Hm' : m' = Zpos p * 2 ^ s).
  { unfold m'. destruct s as [|u|u] eqn:Hs; [simpl; lia| |lia].
    apply Z.shiftl_mul_pow2. lia. }
  assert (Ps : 0 < 2 ^ s) by (apply Z.pow_pos_nonneg; lia).
  pose proof (Z_div_mod m' (Zpos q) ltac:(lia)) as Hdm.
  destruct (Z.div_eucl m' (Zpos q)) as [qq rr]. destruct Hdm as [Hdm Hr].
  assert (Hq0 : 0 <= qq) by nia.
  apply round_aux_bounded; [exact Hq0|lia|lia|lia|].
  replace (0 - e') with s by lia. rewrite Z.mul_1_l.
  assert (Hle : qq <= 2 ^ s) by nia.
  destruct (Z.eq_dec qq (2 ^ s)) as [Heq|Hne]; [|left; lia].
  right. split; [|lia].
  assert (rr = 0) by nia. subst rr. apply new_location_exact.
Qed.

Lemma to_Q_nonneg (K E : Z) (x : spec_float) : bounded_by K E x -> (0 <= to_Q x)%Q.
Proof.
  destruct x as [[]|[]| |[] m e]; cbn [bounded_by to_Q]; try done.
  intros _. destruct (0 <=? e) eqn:He; unfold Qle; cbn [Qnum Qden inject_Z].
  - assert (0 < 2 ^ e) by (apply Z.pow_pos_nonneg; lia). lia.
  - lia.
Qed.

Lemma to_Q_upper (K E : Z) (x : spec_float) :
  0 <= E -> 0 <= K -> bounded_by K E x -> (to_Q x <= inject_Z (K * 2 ^ E))%Q.
Proof.
  intros HE HK. assert (PE : 0 < 2 ^ E) by (apply Z.pow_pos_nonneg; lia).
  destruct x as [[]|[]| |[] m e]; cbn [bounded_by to_Q]; try done.
  - intros _. unfold Qle. cbn [Qnum Qden inject_Z]. nia.
  - intros [He Hm]. destruct (0 <=? e) eqn:Hs; unfold Qle; cbn [Qnum Qden inject_Z].
    + apply Z.leb_le in Hs. rewrite !Z.mul_1_r.
      assert (Hpow : 2 ^ E = 2 ^ (E - e) * 2 ^ e).
      { rewrite <- Z.pow_add_r by lia. f_equal; lia. }
      assert (0 < 2 ^ e) by (apply Z.pow_pos_nonneg; lia).
      rewrite Hpow. nia.
    + apply Z.leb_gt in Hs.
      assert (P : 0 < 2 ^ (- e)) by (apply Z.pow_pos_nonneg; lia).
      rewrite Z2Pos.id by lia. rewrite Z.mul_1_r.
      assert (Hpow : 2 ^ (E - e) = 2 ^ E * 2 ^ (- e)).
      { rewrite <- Z.pow_add_r by lia. f_equal; lia. }
      rewrite Hpow in Hm. lia.
Qed.

Lemma int_of_float_floor (K E : Z) (x : spec_float) :
  bounded_by K E x ->
  int_of_float x = Ok (Qfloor (to_Q x)) /\ 0 <= Qfloor (to_Q x).
Proof.
  destruct x as [[]|[]| |[] m e]; cbn [bounded_by]; try done.
  intros [He Hm]. cbn [int_of_float to_Q]. destruct (0 <=? e) eqn:Hs.
  - apply Z.leb_le in Hs. cbn [Qfloor inject_Z]. rewrite Z.div_1_r.
    split; [reflexivity|]. assert (0 < 2 ^ e) by (apply Z.pow_pos_nonneg; lia). lia.
  - apply Z.leb_gt in Hs. cbn [Qfloor].
    assert (P : 0 < 2 ^ (- e)) by (apply Z.pow_pos_nonneg; lia).
    rewrite Z2Pos.id by lia. rewrite Z.quot_div_nonneg by lia.
    split; [reflexivity|]. apply Z.div_pos; lia.
Qed.

Lemma floor_upper (K E N : Z) (x : spec_float) :
  E <= 0 -> 0 <= K -> K < (N + 1) * 2 ^ (- E) -> bounded_by K E x -> Qfloor (to_Q x) <= N.
Proof.
  intros HE HK HN. destruct x as [[]|[]| |[] m e]; cbn [bounded_by]; try done.
  - intros _. cbn [to_Q Qfloor Qnum Qden]. change (0 / 1) with 0.
    assert (0 < 2 ^ (- E)) by (apply Z.pow_pos_nonneg; lia).
    destruct (Z_le_gt_dec 0 N) as [?|Hneg]; [done|]. exfalso.
    assert ((N + 1) * 2 ^ (- E) <= 0) by (apply Z.mul_nonpos_nonneg; lia). lia.
  - intros [He Hm]. cbn [to_Q].
    assert (PE : 0 < 2 ^ (- E)) by (apply Z.pow_pos_nonneg; lia).
    assert (P2 : 0 < 2 ^ (E - e)) by (apply Z.pow_pos_nonneg; lia).
    destruct (0 <=? e) eqn:Hs.
    + apply Z.leb_le in Hs. assert (e = 0) by lia. assert (E = 0) by lia. subst e E.
      cbn [Qfloor inject_Z]. rewrite Z.div_1_r.
      change (2 ^ (0 - 0)) with 1 in Hm. change (2 ^ (- 0)) with 1 in HN. lia.
    + apply Z.leb_gt in Hs. cbn [Qfloor].
      assert (P : 0 < 2 ^ (- e)) by (apply Z.pow_pos_nonneg; lia).
      rewrite Z2Pos.id by lia.
      assert (Hpow : 2 ^ (- e) = 2 ^ (- E) * 2 ^ (E - e)).
      { rewrite <- Z.pow_add_r by lia. f_equal; lia. }
      assert (Zpos m / 2 ^ (- e) < N + 1); [|lia].
      apply Z.div_lt_upper_bound; [lia|]. rewrite Hpow. nia.
Qed.

End PyFloatFacts.

(** ** Tone normalisation *)

Module ToneAdapterFacts.
Import PyStr PyUnicode PyFloat PyStrSpec PyStrFacts ToneAdapter ToneAdapterSpec.



Lemma find_elem {A} (p : A -> bool) (l : list A) (x : A) :
  List.find p l = Some x -> x ∈ l.
Proof.
  intros H. apply find_some in H as [H _]. by apply list_elem_of_In.
Qed.


Lemma formal_in_catalog : "Formal" ∈ Config.TONE_OPTIONS.
Proof. by left. Qed.

(** *** ASCII texts stay ASCII *)







Section WithUnicode.
Context {U : unicode}.








Lemma normalize_tone_nonempty (c : ascii) (s : string) :
  normalize_tone (String c s) =
    let tone_clean := cleaned (String c s) in
    if in_list tone_clean Config.TONE_OPTIONS then tone_clean
    else match List.find (fun v => contains (str_lower v) (str_lower tone_clean))
                         Config.TONE_OPTIONS with
         | Some v => v
         | None => "Formal"
         end.
Proof. reflexivity. Qed.




(** *** Tone analysis *)

Local Open Scope Z_scope.

Lemma scan_hits (markers : list string) (text : string) (step score : Z) :
  scan markers (str_lower text) step score = score + step * hits markers text.
Proof.
  unfold scan, hits. revert score.
  induction markers as [|m markers IH]; intros score; simpl; [lia|].
  rewrite IH. destruct (contains (str_lower m) (str_lower text)); simpl length; lia.
Qed.

Lemma raw_score_formula (chars : tone_chars) (text : string) :
  raw_score chars (str_lower text) = marker_score chars text.
Proof. unfold raw_score, marker_score. rewrite !scan_hits. lia. Qed.

Lemma hits_bounds (markers : list string) (text : string) :
  0 <= hits markers text <= Z.of_nat (length markers).
Proof.
  unfold hits. split; [lia|]. apply inj_le.
  induction markers as [|m markers IH]; simpl; [lia|].
  destruct (contains _ _); simpl; lia.
Qed.

Lemma catalog_sizes (tone : string) (chars : tone_chars) :
  (tone, chars) ∈ TONE_CHARACTERISTICS ->
  length (words chars) = 8%nat
  /\ (length (phrases chars) = 4%nat \/ length (phrases chars) = 5%nat)
  /\ (length (avoid chars) <= 7)%nat.
Proof.
  unfold TONE_CHARACTERISTICS. rewrite !elem_of_cons, elem_of_nil.
  intros [H|[H|[H|[H|[H|[]]]]]]; injection H as -> ->; simpl; lia.
Qed.

Lemma marker_score_bounds (tone : string) (chars : tone_chars) (text : string) :
  (tone, chars) ∈ TONE_CHARACTERISTICS ->
  -7 <= marker_score chars text <= 18
  /\ (total_markers chars = 12 \/ total_markers chars = 13).
Proof.
  intros Hin. destruct (catalog_sizes tone chars Hin) as (Hw & Hp & Ha).
  pose proof (hits_bounds (words chars) text).
  pose proof (hits_bounds (phrases chars) text).
  pose proof (hits_bounds (avoid chars) text).
  unfold marker_score, total_markers. lia.
Qed.

Lemma grid_checked : grid_ok = true.
Proof. vm_compute. reflexivity. Qed.

Lemma in_score_grid (a : Z) : -7 <= a <= 18 -> In a score_grid.
Proof.
  intros Ha. apply list_elem_of_In. unfold score_grid.
  apply elem_of_seqZ. lia.
Qed.

Lemma float_order_exact (a b ta tb : Z) :
  -7 <= a <= 18 -> -7 <= b <= 18 ->
  ta = 12 \/ ta = 13 -> tb = 12 \/ tb = 13 ->
  flt (fdiv (raw_int a) (raw_int ta)) (fdiv (raw_int b) (raw_int tb)) = (a * tb <? b * ta).
Proof.
  intros Ha Hb Hta Htb. pose proof grid_checked as G. unfold grid_ok in G.
  rewrite forallb_forall in G. specialize (G a (in_score_grid a Ha)).
  rewrite forallb_forall in G. specialize (G b (in_score_grid b Hb)).
  rewrite forallb_forall in G.
  assert (Hin : forall t, t = 12 \/ t = 13 -> In t [12; 13]).
  { intros t [->| ->]; simpl; tauto. }
  specialize (G ta (Hin ta Hta)).
  rewrite forallb_forall in G. specialize (G tb (Hin tb Htb)).
  by apply eqb_prop in G.
Qed.

Lemma float_order_catalog (t1 t2 : string) (c1 c2 : tone_chars) (text : string) :
  (t1, c1) ∈ TONE_CHARACTERISTICS -> (t2, c2) ∈ TONE_CHARACTERISTICS ->
  flt (float_score c1 text) (float_score c2 text) = true
  <-> (exact_score c1 text < exact_score c2 text)%Q.
Proof.
  intros H1 H2.
  destruct (marker_score_bounds t1 c1 text H1) as [B1 T1].
  destruct (marker_score_bounds t2 c2 text H2) as [B2 T2].
  unfold float_score. rewrite (float_order_exact _ _ _ _ B1 B2 T1 T2).
  unfold exact_score, Qlt. cbn [Qnum Qden].
  rewrite !Z2Pos.id by lia. apply Z.ltb_lt.
Qed.

(** *** The scores dictionary and its maximum *)

Lemma dict_set_fresh {V} (d : list (string * V)) (k : string) (v : V) :
  k ∉ map fst d -> dict_set d k v = (d ++ [(k, v)])%list.
Proof.
  induction d as [|[k' v'] d IH]; intros Hk; simpl; [done|].
  simpl in Hk. rewrite not_elem_of_cons in Hk. destruct Hk as [Hne Hk].
  destruct (String.eqb k' k) eqn:E.
  - apply String.eqb_eq in E. congruence.
  - by rewrite IH.
Qed.

Lemma int_true_div_catalog (tone : string) (chars : tone_chars) (text : string) :
  (tone, chars) ∈ TONE_CHARACTERISTICS ->
  int_true_div (raw_score chars (str_lower text)) (total_markers chars)
  = Ok (float_score chars text).
Proof.
  intros Hin. destruct (marker_score_bounds tone chars text Hin) as [_ Ht].
  unfold int_true_div, float_score. rewrite raw_score_formula.
  destruct Ht as [-> | ->]; reflexivity.
Qed.

Lemma fill_scores_app (text : string) (l : list (string * tone_chars))
      (acc : list (string * spec_float)) :
  (forall entry, entry ∈ l -> entry ∈ TONE_CHARACTERISTICS) ->
  NoDup (map fst acc ++ map fst l)%list ->
  fill_scores l (str_lower text) acc = Ok (acc ++ map (score_item text) l)%list.
Proof.
  revert acc. induction l as [|[tone chars] l IH]; intros acc Hin Hnd; simpl.
  - by rewrite app_nil_r.
  - rewrite (int_true_div_catalog tone chars text) by (apply Hin; by left).
    simpl. rewrite dict_set_fresh.
    + rewrite IH.
      * by rewrite <- app_assoc.
      * intros entry He. apply Hin. by right.
      * rewrite map_app. simpl. simpl in Hnd. by rewrite <- app_assoc.
    + simpl in Hnd. apply NoDup_app in Hnd as (_ & Hdisj & _).
      intros Hk. apply (Hdisj tone Hk). by left.
Qed.

Lemma fill_scores_catalog (text : string) :
  fill_scores TONE_CHARACTERISTICS (str_lower text) []
  = Ok (map (score_item text) TONE_CHARACTERISTICS).
Proof.
  apply (fill_scores_app text TONE_CHARACTERISTICS []); [done|].
  simpl. apply (bool_decide_unpack _). by vm_compute.
Qed.

(** The loop of [max]: the result is the first element that no other
    one exceeds, for any measure that the comparison follows. *)
Lemma fold_max_first {A} (lt : A -> A -> bool) (mu : A -> Q) (l : list A) (x : A) :
  (forall a b, a ∈ x :: l -> b ∈ x :: l -> lt a b = true <-> (mu a < mu b)%Q) ->
  let r := fold_left (fun best item => if lt best item then item else best) l x in
  exists i : nat,
    (x :: l) !! i = Some r
    /\ (forall y, y ∈ x :: l -> (mu y <= mu r)%Q)
    /\ (forall (j : nat) y, (j < i)%nat -> (x :: l) !! j = Some y -> (mu y < mu r)%Q).
Proof.
  induction l as [|a l IH] using rev_ind; intros Hlt; cbv zeta.
  - exists 0%nat. simpl. split; [done|]. split.
    + intros y Hy. apply list_elem_of_singleton in Hy as ->. apply Qle_refl.
    + intros j y Hj. lia.
  - rewrite fold_left_app. simpl.
    destruct IH as (i & Hi & Hmax & Hbefore).
    { intros u v Hu Hv. apply Hlt.
      - rewrite app_comm_cons. apply elem_of_app. by left.
      - rewrite app_comm_cons. apply elem_of_app. by left. }
    set (r := fold_left _ l x) in *.
    assert (Hr : r ∈ (x :: l ++ [a])%list).
    { rewrite app_comm_cons. apply elem_of_app. left.
      by apply list_elem_of_lookup_2 in Hi. }
    assert (Ha : a ∈ (x :: l ++ [a])%list).
    { rewrite app_comm_cons. apply elem_of_app. right. by left. }
    destruct (lt r a) eqn:E.
    + apply (Hlt r a Hr Ha) in E.
      exists (length (x :: l)). split; [|split].
      * rewrite app_comm_cons. rewrite lookup_app_r by lia.
        by rewrite Nat.sub_diag.
      * intros y Hy. rewrite app_comm_cons in Hy. apply elem_of_app in Hy as [Hy|Hy].
        -- apply Qle_trans with (mu r); [by apply Hmax|by apply Qlt_le_weak].
        -- apply list_elem_of_singleton in Hy as ->. apply Qle_refl.
      * intros j y Hj Hy. rewrite app_comm_cons in Hy.
        rewrite lookup_app_l in Hy by done.
        apply Qle_lt_trans with (mu r); [|done].
        apply Hmax. by apply list_elem_of_lookup_2 in Hy.
    + exists i. split; [|split].
      * rewrite app_comm_cons. rewrite lookup_app_l; [done|].
        by apply lookup_lt_Some in Hi.
      * intros y Hy. rewrite app_comm_cons in Hy. apply elem_of_app in Hy as [Hy|Hy].
        -- by apply Hmax.
        -- apply list_elem_of_singleton in Hy as ->.
           apply Qnot_lt_le. intros Hc. apply (Hlt r a Hr Ha) in Hc. congruence.
      * intros j y Hj Hy. apply (Hbefore j y Hj).
        rewrite app_comm_cons in Hy. rewrite lookup_app_l in Hy; [done|].
        apply lookup_lt_Some in Hi. lia.
Qed.

Lemma fold_max_map {A B} (f : A -> B) (lt : B -> B -> bool) (l : list A) (x : A) :
  fold_left (fun best item => if lt best item then item else best) (map f l) (f x)
  = f (fold_left (fun best item => if lt (f best) (f item) then item else best) l x).
Proof.
  revert x. induction l as [|a l IH]; intros x; simpl; [done|].
  destruct (lt (f x) (f a)); apply IH.
Qed.

Lemma py_max_scores (text : string) (x : string * tone_chars)
      (l : list (string * tone_chars)) :
  (forall entry, entry ∈ x :: l -> entry ∈ TONE_CHARACTERISTICS) ->
  exists (i : nat) (tone : string) (chars : tone_chars),
    (x :: l) !! i = Some (tone, chars)
    /\ py_max_by_snd (map (score_item text) (x :: l)) = Ok (tone, float_score chars text)
    /\ (forall entry, entry ∈ x :: l ->
          (exact_score (snd entry) text <= exact_score chars text)%Q)
    /\ (forall (j : nat) entry, (j < i)%nat -> (x :: l) !! j = Some entry ->
          (exact_score (snd entry) text < exact_score chars text)%Q).
Proof.
  intros Hcat. cbn [map py_max_by_snd].
  rewrite (fold_max_map (score_item text) (fun best item => flt (snd best) (snd item)) l x).
  destruct (fold_max_first
              (fun a b => flt (snd (score_item text a)) (snd (score_item text b)))
              (fun entry => exact_score (snd entry) text) l x)
    as (i & Hi & Hmax & Hbefore).
  { intros [t1 c1] [t2 c2] H1 H2. simpl.
    apply (float_order_catalog t1 t2); by apply Hcat. }
  cbv zeta in Hi, Hmax, Hbefore.
  destruct (fold_left _ l x) as [tone chars].
  exists i, tone, chars. split; [exact Hi|]. split; [reflexivity|].
  split; [exact Hmax|exact Hbefore].
Qed.




End WithUnicode.

End ToneAdapterFacts.

(** ** Email generation *)

Module GeneratorFacts.
Import PyStr Generator GeneratorSpec.
Local Open Scope Z_scope.

Lemma hf_run (B : backends) (subject context tone : string) (s : state) :
  generate_email_with_huggingface B subject context tone s =
    let req := hf_call_args (hf_prompt_of subject context tone) in
    match hf_generator B req with
    | Raise e => (Ok (error_content e), logged s (HFCall req))
    | Ok result =>
        match hf_text result with
        | Ok text => (Ok text, counted (logged s (HFCall req)))
        | Raise e => (Ok (error_content e), counted (logged s (HFCall req)))
        end
    end.
Proof.
  unfold generate_email_with_huggingface, try_except, bind, call_hf, hf_text. cbv zeta.
  destruct (hf_generator B _) as [result|e]; [|reflexivity].
  unfold inc, lift, ret. cbn [fst snd].
  destruct (first result) as [r0|e]; [|reflexivity]. cbn [res_bind].
  destruct (getitem r0 "generated_text") as [text|e]; reflexivity.
Qed.

Lemma hf_never_raises (B : backends) (subject context tone : string) (s : state) :
  exists text s', generate_email_with_huggingface B subject context tone s = (Ok text, s').
Proof.
  rewrite hf_run. cbv zeta.
  destruct (hf_generator B _) as [result|e]; [|by eexists _, _].
  destruct (hf_text result); by eexists _, _.
Qed.

Lemma examples_keys (tone : string) :
  tone ∈ Config.TONE_OPTIONS <-> exists ex, TONE_EXAMPLES !! tone = Some ex.
Proof.
  split.
  - unfold Config.TONE_OPTIONS. rewrite !elem_of_cons, elem_of_nil.
    intros [->|[->|[->|[->|[->|[]]]]]]; eexists; by vm_compute.
  - intros [ex Hex]. unfold TONE_EXAMPLES in Hex.
    apply elem_of_list_to_map_2 in Hex.
    unfold Config.TONE_OPTIONS.
    rewrite !elem_of_cons, elem_of_nil in Hex. rewrite !elem_of_cons, elem_of_nil.
    destruct Hex as [H|[H|[H|[H|[H|[]]]]]]; injection H as -> _; tauto.
Qed.

Lemma unknown_tone_lookup (tone : string) :
  tone ∉ Config.TONE_OPTIONS -> getitem TONE_EXAMPLES tone = Raise (KeyError tone).
Proof.
  intros Hn. unfold getitem. destruct (TONE_EXAMPLES !! tone) as [ex|] eqn:E; [|done].
  exfalso. apply Hn. apply examples_keys. by exists ex.
Qed.

Lemma unknown_tone_goes_to_fallback_eq (B : backends) (subject context tone : string)
      (recipient_name : option string) (s : state) :
  tone ∉ Config.TONE_OPTIONS ->
  gpt_body B subject context tone recipient_name s = (Raise (KeyError tone), s)
  /\ generate_email_with_gpt B subject context tone recipient_name s
     = generate_email_with_huggingface B subject context tone s.
Proof.
  intros Hn.
  assert (Hbody : gpt_body B subject context tone recipient_name s = (Raise (KeyError tone), s)).
  { unfold gpt_body, bind, lift. by rewrite (unknown_tone_lookup tone Hn). }
  split; [exact Hbody|].
  unfold generate_email_with_gpt, try_except. by rewrite Hbody.
Qed.

(** C10. For a tone outside the five catalog names, the [try] block of
    [generate_email_with_gpt] fails on the [TONE_EXAMPLES] lookup before
    anything else happens: the function behaves exactly as
    [generate_email_with_huggingface], so it returns a text (the model's or
    the error text), never raises, and the only backend call it records is
    the one to the Hugging Face pipeline. *)
Theorem unknown_tone_goes_to_fallback (B : backends) (subject context tone : string)
        (recipient_name : option string) (s : state) :
  tone ∉ Config.TONE_OPTIONS ->
  gpt_body B subject context tone recipient_name s = (Raise (KeyError tone), s)
  /\ generate_email_with_gpt B subject context tone recipient_name s
     = generate_email_with_huggingface B subject context tone s
  /\ exists text s',
      generate_email_with_gpt B subject context tone recipient_name s = (Ok text, s')
      /\ calls s' = (calls s ++ [HFCall (hf_call_args (hf_prompt_of subject context tone))])%list.
Proof.
  intros Hn.
  destruct (unknown_tone_goes_to_fallback_eq B subject context tone recipient_name s Hn)
    as [Hbody Heq].
  split; [exact Hbody|]. split; [exact Heq|].
  rewrite Heq, hf_run. cbv zeta.
  destruct (hf_generator B _) as [result|e]; [|by eexists _, _].
  destruct (hf_text result); by eexists _, _.
Qed.

(** *** The primary path *)

Lemma gpt_run (B : backends) (subject context tone : string)
      (recipient_name : option string) (ex : tone_example) (s : state) :
  TONE_EXAMPLES !! tone = Some ex ->
  generate_email_with_gpt B subject context tone recipient_name s =
    let req := gpt_request_for subject context tone recipient_name ex in
    match openai_create B req with
    | Raise e =>
        generate_email_with_huggingface B subject context tone (logged s (OpenAICall req))
    | Ok response =>
        match gpt_text response with
        | Ok text => (Ok text, counted (logged s (OpenAICall req)))
        | Raise e =>
            generate_email_with_huggingface B subject context tone
                                            (counted (logged s (OpenAICall req)))
        end
    end.
Proof.
  intros Hex.
  unfold generate_email_with_gpt, try_except, gpt_body, bind, lift, getitem, call_openai.
  rewrite Hex. cbv zeta. fold (gpt_request_for subject context tone recipient_name ex).
  destruct (openai_create B _) as [response|e]; [|reflexivity].
  unfold inc, gpt_text, ret. destruct (first (choices response)) as [c0|e]; [|reflexivity].
  cbn [res_bind]. destruct (strip_opt c0); reflexivity.
Qed.

Lemma gpt_never_raises (B : backends) (subject context tone : string)
      (recipient_name : option string) (s : state) :
  exists text s',
    generate_email_with_gpt B subject context tone recipient_name s = (Ok text, s').
Proof.
  destruct (TONE_EXAMPLES !! tone) as [ex|] eqn:Hex.
  - rewrite (gpt_run _ _ _ _ _ ex s Hex). cbv zeta.
    destruct (openai_create B _) as [response|e]; [|apply hf_never_raises].
    destruct (gpt_text response); [by eexists _, _|apply hf_never_raises].
  - unfold generate_email_with_gpt, try_except, gpt_body, bind, lift, getitem.
    rewrite Hex. apply hf_never_raises.
Qed.

Lemma generate_email_model_used (B : backends) (subject context tone : string)
      (recipient_name : option string) (use_gpt : bool) (s : state) :
  exists r s',
    generate_email B subject context tone recipient_name use_gpt s = (Ok r, s')
    /\ model_used r = (if use_gpt then "GPT-3.5" else HF_MODEL B)
    /\ Generator.tone r = tone /\ Generator.subject r = subject.
Proof.
  unfold generate_email, bind, ret. destruct use_gpt.
  - destruct (gpt_never_raises B subject context tone recipient_name s) as (t & s' & ->).
    by eexists _, _.
  - destruct (hf_never_raises B subject context tone s) as (t & s' & ->).
    by eexists _, _.
Qed.

(** When the primary call raises, the content is what the fallback
    function returns and the metadata still names GPT-3.5. *)
Lemma generate_email_after_primary_failure (B : backends) (subject context tone : string)
      (recipient_name : option string) (s : state) :
  primary_raises B subject context tone recipient_name ->
  exists r s' s1,
    generate_email B subject context tone recipient_name true s = (Ok r, s')
    /\ generate_email_with_huggingface B subject context tone s1 = (Ok (content r), s')
    /\ model_used r = "GPT-3.5".
Proof.
  intros Hraise. unfold generate_email, bind, ret.
  destruct (TONE_EXAMPLES !! tone) as [ex|] eqn:Hex.
  - rewrite (gpt_run _ _ _ _ _ ex s Hex). cbv zeta.
    destruct (Hraise ex Hex) as [e ->].
    destruct (hf_never_raises B subject context tone
                (logged s (OpenAICall (gpt_request_for subject context tone recipient_name ex))))
      as (t & s' & Hhf).
    rewrite Hhf. by eexists _, _, _.
  - unfold generate_email_with_gpt, try_except, gpt_body, bind, lift, getitem.
    rewrite Hex.
    destruct (hf_never_raises B subject context tone s) as (t & s' & Hhf).
    rewrite Hhf. by eexists _, _, _.
Qed.

(** *** Concrete runs *)

(** C1 (the code departs from the claim). With the primary call raising,
    [generate_email(..., use_gpt=True)] returns normally and its content is
    the text of the Hugging Face pipeline, but [model_used] is "GPT-3.5"
    and not [config.HF_MODEL]. *)
Theorem fallback_content_labelled_gpt :
  exists r s',
    generate_email primary_down "Meeting Reschedule"
                   "Need to move Tuesday's meeting to Thursday" "Formal" None true start
    = (Ok r, s')
    /\ content r = "Dear Sir/Madam, the meeting moves to Thursday."
    /\ model_used r = "GPT-3.5"
    /\ model_used r <> HF_MODEL primary_down
    /\ email_generation_count s' = 1.
Proof. eexists _, _. split; [by vm_compute|]. by vm_compute. Qed.

(** C5 (as stated, refuted). The tone "Casual" has no entry in
    [TONE_EXAMPLES], so building the prompt fails with a [KeyError]; yet
    [generate_email] returns normally, with the text of the fallback. *)
Lemma unknown_tone_not_propagated :
  getitem TONE_EXAMPLES "Casual" = Raise (KeyError "Casual")
  /\ exists r s',
      generate_email both_up "Hello" "A quick note" "Casual" None true start = (Ok r, s')
      /\ content r = "Dear Sir/Madam, the meeting moves to Thursday.".
Proof. split; [by vm_compute|]. eexists _, _. split; by vm_compute. Qed.

(** C5 (amended). [generate_email] never raises, whatever the strings it
    is given and whatever the backends do; in particular a tone without
    entry in the catalog, which makes the construction of the GPT prompt
    fail, is handled like a backend failure: the result is the one of
    [generate_email_with_huggingface]. *)
Theorem generate_email_never_raises (B : backends) (subject context tone : string)
        (recipient_name : option string) (use_gpt : bool) (s : state) :
  exists r s',
    generate_email B subject context tone recipient_name use_gpt s = (Ok r, s')
    /\ (use_gpt = true -> tone ∉ Config.TONE_OPTIONS ->
        generate_email_with_huggingface B subject context tone s = (Ok (content r), s')).
Proof.
  unfold generate_email, bind, ret. destruct use_gpt.
  - destruct (gpt_never_raises B subject context tone recipient_name s) as (t & s' & Hg).
    rewrite Hg. eexists _, _. split; [reflexivity|]. intros _ Hn. cbn [content].
    destruct (unknown_tone_goes_to_fallback_eq B subject context tone recipient_name s Hn)
      as [_ Heq].
    by rewrite <- Heq.
  - destruct (hf_never_raises B subject context tone s) as (t & s' & ->).
    eexists _, _. split; [reflexivity|]. intros Hc. discriminate Hc.
Qed.

(** *** The counter *)

Lemma gpt_path_on_primary_failure (B : backends) (subject context tone : string)
      (recipient_name : option string) (s : state) :
  primary_raises B subject context tone recipient_name ->
  exists s1, email_generation_count s1 = email_generation_count s
             /\ generate_email_with_gpt B subject context tone recipient_name s
                = generate_email_with_huggingface B subject context tone s1.
Proof.
  intros Hraise. destruct (TONE_EXAMPLES !! tone) as [ex|] eqn:Hex.
  - rewrite (gpt_run _ _ _ _ _ ex s Hex). cbv zeta.
    destruct (Hraise ex Hex) as [e ->].
    exists (logged s (OpenAICall (gpt_request_for subject context tone recipient_name ex))).
    by split.
  - exists s. split; [done|].
    unfold generate_email_with_gpt, try_except, gpt_body, bind, lift, getitem.
    by rewrite Hex.
Qed.

(** C6 (as stated, refuted). When both backends fail the call returns the
    error text and the counter has not moved. *)
Lemma double_failure_not_counted :
  exists r s',
    generate_email both_down "Meeting Reschedule"
                   "Need to move Tuesday's meeting to Thursday" "Formal" None true start
    = (Ok r, s')
    /\ content r = "Error generating email: CUDA out of memory"
    /\ email_generation_count s' = email_generation_count start.
Proof. eexists _, _. split; [by vm_compute|]. by vm_compute. Qed.

(** C6 (amended). A call to [generate_email] adds exactly one to
    [email_generation_count] when the primary backend answers, and when
    the fallback backend answers after the primary call raised or was not
    attempted; it leaves the counter unchanged when the fallback call
    raises as well. *)
Theorem counter_follows_served_content (B : backends) (subject context tone : string)
        (recipient_name : option string) (use_gpt : bool) (s : state) :
  let s' := snd (generate_email B subject context tone recipient_name use_gpt s) in
  (use_gpt = true -> primary_answers B subject context tone recipient_name ->
   email_generation_count s' = email_generation_count s + 1)
  /\ (use_gpt = false \/ primary_raises B subject context tone recipient_name ->
      fallback_answers B subject context tone ->
      email_generation_count s' = email_generation_count s + 1)
  /\ (use_gpt = false \/ primary_raises B subject context tone recipient_name ->
      fallback_raises B subject context tone ->
      email_generation_count s' = email_generation_count s).
Proof.
  cbv zeta. unfold generate_email, bind, ret. split; [|split].
  - intros -> (ex & response & text & Hex & Hcall & Htext).
    rewrite (gpt_run _ _ _ _ _ ex s Hex). cbv zeta. by rewrite Hcall, Htext.
  - intros Hfb (result & text & Hcall & Htext).
    assert (Hhf : forall s1, email_generation_count s1 = email_generation_count s ->
              snd (generate_email_with_huggingface B subject context tone s1)
              = counted (logged s1 (HFCall (hf_call_args (hf_prompt_of subject context tone))))).
    { intros s1 _. rewrite hf_run. cbv zeta. by rewrite Hcall, Htext. }
    destruct use_gpt.
    + destruct Hfb as [Hc|Hraise]; [discriminate Hc|].
      destruct (gpt_path_on_primary_failure B subject context tone recipient_name s Hraise)
        as (s1 & Hs1 & ->).
      specialize (Hhf s1 Hs1).
      destruct (generate_email_with_huggingface B subject context tone s1) as [[t|e] s2];
        simpl in *; subst s2; simpl; lia.
    + specialize (Hhf s eq_refl).
      destruct (generate_email_with_huggingface B subject context tone s) as [[t|e] s2];
        simpl in *; subst s2; simpl; lia.
  - intros Hfb (e & Hcall).
    assert (Hhf : forall s1, email_generation_count s1 = email_generation_count s ->
              snd (generate_email_with_huggingface B subject context tone s1)
              = logged s1 (HFCall (hf_call_args (hf_prompt_of subject context tone)))).
    { intros s1 _. rewrite hf_run. cbv zeta. by rewrite Hcall. }
    destruct use_gpt.
    + destruct Hfb as [Hc|Hraise]; [discriminate Hc|].
      destruct (gpt_path_on_primary_failure B subject context tone recipient_name s Hraise)
        as (s1 & Hs1 & ->).
      specialize (Hhf s1 Hs1).
      destruct (generate_email_with_huggingface B subject context tone s1) as [[t|e'] s2];
        simpl in *; subst s2; simpl; lia.
    + specialize (Hhf s eq_refl).
      destruct (generate_email_with_huggingface B subject context tone s) as [[t|e'] s2];
        simpl in *; subst s2; simpl; lia.
Qed.

End GeneratorFacts.

(** ** Resume matching *)

Module ResumeMatcherFacts.
Import PyStr PyFloat PyStrSpec PyStrFacts PyFloatSpec PyFloatFacts.
Import ResumeMatcher ResumeMatcherSpec.


Lemma filter_elem {A} (p : A -> bool) (l : list A) (x : A) :
  x ∈ List.filter p l <-> x ∈ l /\ p x = true.
Proof. rewrite !list_elem_of_In. apply filter_In. Qed.


Section WithEnv.
Variable env : nlp_env.





(** *** Text cleaning *)

Lemma clean_tokens_map (tokens acc : list string) :
  fold_left (clean_token env) tokens acc
  = (acc ++ map (fun token => if has_char "-"%char token || isupper token
                               then token else lemmatize env token)
                (List.filter (kept env) tokens))%list.
Proof.
  revert acc. induction tokens as [|t tokens IH]; intros acc.
  - cbn [fold_left List.filter map]. by rewrite app_nil_r.
  - cbn [fold_left List.filter]. rewrite IH. unfold clean_token at 1. unfold kept at 2.
    destruct (negb (bool_decide (t ∈ stop_words env)) && (2 <? String.length t)%nat);
      [|done].
    cbn [map].
    destruct (has_char "-"%char t || isupper t); by rewrite <- app_assoc.
Qed.

(** After [text.lower()] the test [token.isupper()] never holds: only
    the tokens with a hyphen escape the lemmatizer. *)
Lemma clean_text_upper_test_dead (text : string) :
  keeps_case env ->
  clean_text env text
  = join " " (map (fun token => if has_char "-"%char token
                                then token else lemmatize env token)
                  (List.filter (kept env) (word_tokenize env (sub_nonword env (lower text))))).
Proof.
  intros [Hsub Htok]. unfold clean_text. rewrite clean_tokens_map. cbn [app]. f_equal.
  apply map_ext_in. intros token Hin. apply filter_In in Hin as [Hin _].
  rewrite (no_upper_isupper token); [by rewrite orb_false_r|].
  apply (Htok (sub_nonword env (lower text))); [|by apply list_elem_of_In].
  apply Hsub, lower_no_upper.
Qed.

(** *** Match score *)

Lemma skill_match_bounded (resume_skills skills : gset string) :
  exists v, skill_match resume_skills skills = Ok v /\ bounded_by 1 0 v.
Proof.
  unfold skill_match. destruct (size skills =? 0)%nat eqn:Hz.
  - exists f_1_0. split; [done|]. by vm_compute.
  - apply Nat.eqb_neq in Hz. unfold int_true_div.
    rewrite (proj2 (Z.eqb_neq (Z.of_nat (size skills)) 0)) by lia.
    eexists. split; [done|]. apply fdiv_ratio_bounded; [|lia].
    split; [lia|]. apply inj_le. apply subseteq_size. apply intersection_subseteq_r.
Qed.

Lemma skill_match_empty (resume_skills : gset string) :
  skill_match resume_skills ∅ = Ok f_1_0.
Proof. reflexivity. Qed.

End WithEnv.

(** A score [v * 100] for a ratio [v] between 0 and 1. *)
Lemma percent_bounded (v : spec_float) : bounded_by 1 0 v -> bounded_by 25 2 (fmul v f_100).
Proof.
  intros Hv. apply (fmul_bounded 1 0 25 2); try done; try lia; by vm_compute.
Qed.

Lemma weighted_sum_bounded (rs ps cs : spec_float) :
  bounded_by 25 2 rs -> bounded_by 25 2 ps -> bounded_by 25 2 cs ->
  bounded_by 403 (-2) (weighted_sum rs ps cs).
Proof.
  intros Hr Hp Hc. unfold weighted_sum.
  assert (H4 : forall x, bounded_by 25 2 x -> bounded_by 161 (-2) (fmul x f_0_4)).
  { intros x Hx. apply (fmul_bounded 25 2 7205759403792794 (-54)); try done; try lia;
      by vm_compute. }
  assert (H2 : forall x, bounded_by 25 2 x -> bounded_by 81 (-2) (fmul x f_0_2)).
  { intros x Hx. apply (fmul_bounded 25 2 7205759403792794 (-55)); try done; try lia;
      by vm_compute. }
  apply (fadd_bounded 242 161); [|by apply H4|lia|lia|lia|lia|lia].
  apply (fadd_bounded 161 81); [|by apply H2|lia|lia|lia|lia|lia].
  apply (fadd_bounded 0 161); [done|by apply H4|lia|lia|lia|lia|lia].
Qed.

Lemma bounded_percent (x : spec_float) : bounded_by 25 2 x -> percent_float x.
Proof.
  intros Hx. split; [|split].
  - by destruct x as [[]|[]| |[] m e].
  - by apply (to_Q_nonneg 25 2).
  - apply (to_Q_upper 25 2 x); [lia|lia|done].
Qed.

Lemma weighted_detailed (rs ps cs : spec_float) :
  weighted [("required_skills", rs); ("preferred_skills", ps); ("content_similarity", cs)]
  = Ok [fmul rs f_0_4; fmul ps f_0_2; fmul cs f_0_4].
Proof.
  cbn [weighted].
  replace (weights !! "required_skills") with (Some f_0_4) by (by vm_compute).
  replace (weights !! "preferred_skills") with (Some f_0_2) by (by vm_compute).
  replace (weights !! "content_similarity") with (Some f_0_4) by (by vm_compute).
  reflexivity.
Qed.

Section Scores.
Variable env : nlp_env.

(** [compute_match_score] in terms of the two skill ratios and of the
    answer of the vectorizer. *)
Lemma compute_match_score_run (resume_text job_description : string) :
  let resume_skills : gset string := list_to_set (extract_skills env resume_text) in
  let reqs := analyze_requirements env job_description in
  exists rm pm,
    skill_match resume_skills (list_to_set (required_skills reqs)) = Ok rm
    /\ skill_match resume_skills (list_to_set (preferred_skills reqs)) = Ok pm
    /\ unit_float rm /\ unit_float pm
    /\ compute_match_score env resume_text job_description
       = match tfidf_cosine env (clean_text env resume_text)
                            (clean_text env job_description) with
         | Raise e => Raise e
         | Ok c =>
             let rs := fmul rm f_100 in
             let ps := fmul pm f_100 in
             let cs := fmul c f_100 in
             res_bind (int_of_float (weighted_sum rs ps cs)) (fun overall =>
             Ok (overall, [("required_skills", rs); ("preferred_skills", ps);
                           ("content_similarity", cs)]))
         end.
Proof.
  cbv zeta. unfold compute_match_score.
  destruct (skill_match_bounded (list_to_set (extract_skills env resume_text))
              (list_to_set (required_skills (analyze_requirements env job_description))))
    as (rm & Hrm & Brm).
  destruct (skill_match_bounded (list_to_set (extract_skills env resume_text))
              (list_to_set (preferred_skills (analyze_requirements env job_description))))
    as (pm & Hpm & Bpm).
  exists rm, pm. rewrite Hrm, Hpm. cbn [res_bind].
  split; [done|]. split; [done|]. split; [done|]. split; [done|].
  destruct (tfidf_cosine env _ _) as [c|e]; [|done]. cbn [res_bind].
  by rewrite weighted_detailed.
Qed.

(** When the vectorizer answers with a similarity between 0 and 1 the
    function returns, and the sum it truncates stays below 101. *)
Lemma compute_match_score_returns (resume_text job_description : string) (c : spec_float) :
  tfidf_cosine env (clean_text env resume_text) (clean_text env job_description) = Ok c ->
  unit_float c ->
  exists rs ps cs,
    bounded_by 25 2 rs /\ bounded_by 25 2 ps /\ bounded_by 25 2 cs
    /\ bounded_by 403 (-2) (weighted_sum rs ps cs)
    /\ compute_match_score env resume_text job_description
       = Ok (Qfloor (to_Q (weighted_sum rs ps cs)),
             [("required_skills", rs); ("preferred_skills", ps); ("content_similarity", cs)]).
Proof.
  intros Hc Bc.
  destruct (compute_match_score_run resume_text job_description)
    as (rm & pm & _ & _ & Brm & Bpm & Hrun).
  rewrite Hrun, Hc. cbv zeta.
  pose proof (percent_bounded rm Brm) as Brs.
  pose proof (percent_bounded pm Bpm) as Bps.
  pose proof (percent_bounded c Bc) as Bcs.
  pose proof (weighted_sum_bounded _ _ _ Brs Bps Bcs) as Bsum.
  destruct (int_of_float_floor _ _ _ Bsum) as [Hint _].
  rewrite Hint. cbn [res_bind].
  exists (fmul rm f_100), (fmul pm f_100), (fmul c f_100).
  split; [exact Brs|]. split; [exact Bps|]. split; [exact Bcs|]. split; [exact Bsum|].
  reflexivity.
Qed.

(** C2, amended. Whenever the vectorizer answers with a similarity
    between 0 and 1, [compute_match_score] returns; the three category
    scores are the two skill ratios and the similarity times 100, floats
    between 0 and 100; the overall score is the floor of
    [0 + required*0.4 + preferred*0.2 + similarity*0.4] evaluated in
    binary64 from those three scores, from the left, every product and
    sum rounded to nearest, and lies between 0 and 100.  Whatever the
    vectorizer raises, [compute_match_score] raises.  The result is a
    function of the two texts alone: nothing is kept from one call to the
    next.  The literals are 100 and the floats nearest to 2/5 and 1/5. *)
Theorem match_score_weighted_floor (resume_text job_description : string) :
  let resume_skills : gset string := list_to_set (extract_skills env resume_text) in
  let reqs := analyze_requirements env job_description in
  let similarity :=
    tfidf_cosine env (clean_text env resume_text) (clean_text env job_description) in
  (forall c, similarity = Ok c -> unit_float c ->
     exists overall rm pm,
       let rs := fmul rm f_100 in
       let ps := fmul pm f_100 in
       let cs := fmul c f_100 in
       skill_match resume_skills (list_to_set (required_skills reqs)) = Ok rm
       /\ skill_match resume_skills (list_to_set (preferred_skills reqs)) = Ok pm
       /\ compute_match_score env resume_text job_description
          = Ok (overall, [("required_skills", rs); ("preferred_skills", ps);
                          ("content_similarity", cs)])
       /\ percent_float rs /\ percent_float ps /\ percent_float cs
       /\ overall = Qfloor (to_Q (weighted_sum rs ps cs))
       /\ (0 <= overall <= 100)%Z)
  /\ (forall e, similarity = Raise e ->
        compute_match_score env resume_text job_description = Raise e)
  /\ ((to_Q f_100 == 100)%Q
      /\ (2 # 5 <= to_Q f_0_4 <= (2 # 5) + (1 # 36028797018963968))%Q
      /\ (1 # 5 <= to_Q f_0_2 <= (1 # 5) + (1 # 72057594037927936))%Q).
Proof.
  cbv zeta.
  destruct (compute_match_score_run resume_text job_description)
    as (rm & pm & Hrm & Hpm & Brm & Bpm & Hrun).
  cbv zeta in Hrm, Hpm.
  split; [|split].
  - intros c Hc Bc. rewrite Hrun, Hc. cbv zeta.
    pose proof (percent_bounded rm Brm) as Brs.
    pose proof (percent_bounded pm Bpm) as Bps.
    pose proof (percent_bounded c Bc) as Bcs.
    pose proof (weighted_sum_bounded _ _ _ Brs Bps Bcs) as Bsum.
    destruct (int_of_float_floor _ _ _ Bsum) as [Hint Hpos].
    rewrite Hint. cbn [res_bind].
    exists (Qfloor (to_Q (weighted_sum (fmul rm f_100) (fmul pm f_100) (fmul c f_100)))), rm, pm.
    split; [exact Hrm|]. split; [exact Hpm|]. split; [reflexivity|].
    split; [by apply bounded_percent|]. split; [by apply bounded_percent|].
    split; [by apply bounded_percent|]. split; [reflexivity|].
    split; [exact Hpos|].
    apply (floor_upper 403 (-2)); [lia|lia|by vm_compute|done].
  - intros e He. by rewrite Hrun, He.
  - repeat split; vm_compute; discriminate.
Qed.

(** C7, amended. With an empty set of required skills the ratio is 1.0
    and the required_skills score of every result is exactly 100.0, and
    likewise for the preferred skills; [compute_match_score] raises no
    [ZeroDivisionError] of its own, and it returns as soon as the
    vectorizer answers with a similarity between 0 and 1; what the
    vectorizer raises, it raises, empty sets or not. *)
Theorem empty_requirements_score_100 (resume_text job_description : string) :
  let resume_skills : gset string := list_to_set (extract_skills env resume_text) in
  let reqs := analyze_requirements env job_description in
  let result := compute_match_score env resume_text job_description in
  ((list_to_set (required_skills reqs) : gset string) = ∅ ->
     skill_match resume_skills (list_to_set (required_skills reqs)) = Ok f_1_0
     /\ forall overall scores, result = Ok (overall, scores) ->
          scores !! 0%nat = Some ("required_skills", f_100))
  /\ ((list_to_set (preferred_skills reqs) : gset string) = ∅ ->
     skill_match resume_skills (list_to_set (preferred_skills reqs)) = Ok f_1_0
     /\ forall overall scores, result = Ok (overall, scores) ->
          scores !! 1%nat = Some ("preferred_skills", f_100))
  /\ (result = Raise ZeroDivisionError ->
      tfidf_cosine env (clean_text env resume_text) (clean_text env job_description)
      = Raise ZeroDivisionError)
  /\ (forall c, tfidf_cosine env (clean_text env resume_text)
                             (clean_text env job_description) = Ok c ->
                unit_float c -> exists overall scores, result = Ok (overall, scores))
  /\ (forall e, tfidf_cosine env (clean_text env resume_text)
                             (clean_text env job_description) = Raise e ->
                result = Raise e).
Proof.
  cbv zeta.
  destruct (compute_match_score_run resume_text job_description)
    as (rm & pm & Hrm & Hpm & Brm & Bpm & Hrun).
  cbv zeta in Hrm, Hpm.
  split; [|split; [|split; [|split]]]; cycle 4.
  { intros e He. by rewrite Hrun, He. }
  - intros Hempty. rewrite Hempty in *. rewrite skill_match_empty in Hrm.
    injection Hrm as <-. split; [reflexivity|].
    intros overall scores. rewrite Hrun.
    destruct (tfidf_cosine env _ _) as [c|e]; [|done]. cbv zeta.
    destruct (int_of_float _) as [z|e]; [|done]. cbn [res_bind].
    intros [= <- <-]. reflexivity.
  - intros Hempty. rewrite Hempty in *. rewrite skill_match_empty in Hpm.
    injection Hpm as <-. split; [reflexivity|].
    intros overall scores. rewrite Hrun.
    destruct (tfidf_cosine env _ _) as [c|e]; [|done]. cbv zeta.
    destruct (int_of_float _) as [z|e]; [|done]. cbn [res_bind].
    intros [= <- <-]. reflexivity.
  - rewrite Hrun. destruct (tfidf_cosine env _ _) as [c|e] eqn:Hc.
    + cbv zeta. destruct (int_of_float _) as [z|e] eqn:Hi; [done|].
      cbn [res_bind]. intros [= ->].
      destruct (weighted_sum _ _ _) as [[]|[]| |[] m e]; discriminate Hi.
    + intros [= ->]. reflexivity.
  - intros c Hc Bc.
    destruct (compute_match_score_returns resume_text job_description c Hc Bc)
      as (rs & ps & cs & _ & _ & _ & _ & Hres).
    by eexists _, _.
Qed.

End Scores.

(** C9 (the code departs from the claim). [clean_text] lower-cases the
    text before it tokenizes, so no token of the loop is ever all
    upper-case: whenever the substitution and the tokenizer bring in no
    capital letter of their own, the test [token.isupper()] fails on every
    token, and the only tokens kept verbatim are those with a hyphen; an
    acronym of the text reaches the output lower-cased and through the
    lemmatizer. *)
Theorem acronyms_are_not_preserved (env : nlp_env) (text : string) :
  keeps_case env ->
  (forall token, token ∈ word_tokenize env (sub_nonword env (lower text)) ->
                 isupper token = false)
  /\ clean_text env text
     = join " " (map (fun token => if has_char "-"%char token
                                   then token else lemmatize env token)
                     (List.filter (kept env)
                                  (word_tokenize env (sub_nonword env (lower text))))).
Proof.
  intros Hk. split; [|by apply clean_text_upper_test_dead].
  destruct Hk as [Hsub Htok]. intros token Hin. apply no_upper_isupper.
  apply (Htok (sub_nonword env (lower text))); [|done]. apply Hsub, lower_no_upper.
Qed.

Lemma runs_no_upper (p : ascii -> bool) (s token : string) :
  no_upper s = true -> token ∈ Demo.runs p s -> no_upper token = true.
Proof.
  revert token. induction s as [|c s IH]; intros token Hs Hin; simpl in Hin.
  - by apply elem_of_nil in Hin.
  - simpl in Hs. apply andb_true_iff in Hs as [Hc Hs].
    destruct (p c); [|by apply IH].
    destruct s as [|d s'].
    + apply list_elem_of_singleton in Hin as ->. simpl. by rewrite Hc.
    + destruct (p d).
      * destruct (Demo.runs p (String d s')) as [|w ws] eqn:Hr.
        -- apply list_elem_of_singleton in Hin as ->. simpl. by rewrite Hc.
        -- apply elem_of_cons in Hin as [->|Hin].
           ++ cbn [no_upper]. rewrite Hc. cbn [andb]. apply IH; [done|by left].
           ++ apply IH; [done|by right].
      * apply elem_of_cons in Hin as [->|Hin]; [simpl; by rewrite Hc|by apply IH].
Qed.

Lemma demo_keeps_case : keeps_case Demo.demo_env.
Proof.
  split; [done|]. intros text token Ht Hin.
  by apply (runs_no_upper Demo.is_word_char text).
Qed.

(** The sum is the binary64 one: with ratios 1/3 and 1/12 and no
    similarity the exact weighted sum is 15, the float one falls just
    short of it and the overall score is 14. *)
Remark binary64_sum_can_fall_short :
  int_true_div 1 3 = Ok (S754_finite false 6004799503160661 (-54))
  /\ int_true_div 1 12 = Ok (S754_finite false 6004799503160661 (-56))
  /\ int_of_float
       (weighted_sum (fmul (S754_finite false 6004799503160661 (-54)) f_100)
                     (fmul (S754_finite false 6004799503160661 (-56)) f_100)
                     (fmul (S754_zero false) f_100))
     = Ok 14%Z
  /\ (100 * (1 # 3) * (2 # 5) + 100 * (1 # 12) * (1 # 5) + 0 == 15)%Q.
Proof. repeat split; by vm_compute. Qed.

(** C2 as stated fails in three ways.  On two empty texts the
    vectorizer finds no vocabulary and [compute_match_score] raises: not
    every pair of texts has a score.  With one required skill out of
    three, one preferred skill out of three and a similarity of 0.5 the
    overall score is 40, while the floor of the exact sum
    [0.4*r + 0.2*p + 0.4*c] of the three category scores is 39.  And when
    the vectorizer answers the float after 1.0, the content_similarity
    score is above 100. *)
Lemma match_score_not_exact_floor :
  compute_match_score Demo.demo_env "" ""
  = Raise (ValueError "empty vocabulary; perhaps the documents only contain stop words")
  /\ (exists rs ps cs,
        compute_match_score Demo.demo_env Demo.resume_1 Demo.job_3
        = Ok (40%Z, [("required_skills", rs); ("preferred_skills", ps);
                     ("content_similarity", cs)])
        /\ Qfloor ((2 # 5) * to_Q rs + (1 # 5) * to_Q ps + (2 # 5) * to_Q cs) = 39%Z)
  /\ (exists overall rs ps cs,
        compute_match_score Demo.demo_env_equal Demo.resume_1 Demo.resume_1
        = Ok (overall, [("required_skills", rs); ("preferred_skills", ps);
                        ("content_similarity", cs)])
        /\ (100 < to_Q cs)%Q).
Proof.
  split; [vm_compute; reflexivity|]. split.
  - exists (S754_finite false 4691249611844266 (-47)),
      (S754_finite false 4691249611844266 (-47)),
      (S754_finite false 7036874417766400 (-47)).
    split; vm_compute; reflexivity.
  - exists 100%Z, f_100, f_100, (S754_finite false 7036874417766402 (-46)).
    split; vm_compute; reflexivity.
Qed.

(** C7 as stated fails on two empty texts: the job description has no
    required and no preferred skill, and [compute_match_score] raises
    the exception of the vectorizer instead of giving two scores of
    100.0. *)
Lemma empty_requirements_can_raise :
  required_skills (analyze_requirements Demo.demo_env "") = []
  /\ preferred_skills (analyze_requirements Demo.demo_env "") = []
  /\ compute_match_score Demo.demo_env "" ""
     = Raise (ValueError "empty vocabulary; perhaps the documents only contain stop words").
Proof. repeat split; vm_compute; reflexivity. Qed.

End ResumeMatcherFacts.

(** ** Runs on concrete inputs *)

Module Runs.
Import PyStr PyUnicode PyFloat PyStrSpec PyStrFacts PyFloatSpec PyFloatFacts.
Import ToneAdapter ToneAdapterSpec ToneAdapterFacts Generator GeneratorSpec GeneratorFacts.
Import ResumeMatcher ResumeMatcherSpec ResumeMatcherFacts PlainText Demo.



(** C10 on the tone "Casual". *)
Lemma unknown_tone_goes_to_fallback_witness :
  ("Casual" ∉ Config.TONE_OPTIONS)
  /\ generate_email_with_gpt both_up "Hello" "A quick note" "Casual" None start
     = generate_email_with_huggingface both_up "Hello" "A quick note" "Casual" start.
Proof.
  assert (Hn : "Casual" ∉ Config.TONE_OPTIONS)
    by (apply (bool_decide_unpack _); by vm_compute).
  split; [exact Hn|].
  by destruct (unknown_tone_goes_to_fallback both_up "Hello" "A quick note" "Casual"
                 None start Hn) as (_ & Heq & _).
Defined.

(** C5 on the tone "Casual". *)
Lemma generate_email_never_raises_witness :
  exists r s',
    generate_email both_up "Hello" "A quick note" "Casual" None true start = (Ok r, s')
    /\ generate_email_with_huggingface both_up "Hello" "A quick note" "Casual" start
       = (Ok (content r), s').
Proof.
  destruct (generate_email_never_raises both_up "Hello" "A quick note" "Casual" None true
              start) as (r & s' & Hrun & Hfb).
  exists r, s'. split; [exact Hrun|].
  apply Hfb; [reflexivity|]. apply (bool_decide_unpack _). by vm_compute.
Defined.

(** C6 on the three sample backends. *)
Lemma counter_follows_served_content_witness :
  email_generation_count
    (snd (generate_email both_up "Hello" "A quick note" "Formal" None true start)) = 1%Z
  /\ email_generation_count
       (snd (generate_email primary_down "Hello" "A quick note" "Formal" None true start))
     = 1%Z
  /\ email_generation_count
       (snd (generate_email both_down "Hello" "A quick note" "Formal" None true start))
     = 0%Z.
Proof.
  split; [|split].
  - destruct (counter_follows_served_content both_up "Hello" "A quick note" "Formal" None
                true start) as (H & _ & _).
    apply H; [reflexivity|]. eexists _, _, _. split; [by vm_compute|]. split; by vm_compute.
  - destruct (counter_follows_served_content primary_down "Hello" "A quick note" "Formal"
                None true start) as (_ & H & _).
    apply H.
    + right. intros ex Hex. by eexists.
    + eexists _, _. split; by vm_compute.
  - destruct (counter_follows_served_content both_down "Hello" "A quick note" "Formal"
                None true start) as (_ & _ & H).
    apply H.
    + right. intros ex Hex. by eexists.
    + by eexists.
Defined.

(** C2 on a resume and a job description. *)
Lemma match_score_weighted_floor_witness :
  tfidf_cosine demo_env (clean_text demo_env resume_1) (clean_text demo_env job_1) = Ok f_0_5
  /\ unit_float f_0_5
  /\ exists overall rs ps cs,
      compute_match_score demo_env resume_1 job_1
      = Ok (overall, [("required_skills", rs); ("preferred_skills", ps);
                      ("content_similarity", cs)])
      /\ percent_float rs /\ percent_float ps /\ percent_float cs
      /\ overall = Qfloor (to_Q (weighted_sum rs ps cs))
      /\ (0 <= overall <= 100)%Z.
Proof.
  assert (Hc : tfidf_cosine demo_env (clean_text demo_env resume_1)
                            (clean_text demo_env job_1) = Ok f_0_5) by (by vm_compute).
  assert (Bc : unit_float f_0_5) by (by vm_compute).
  split; [exact Hc|]. split; [exact Bc|].
  destruct (proj1 (match_score_weighted_floor demo_env resume_1 job_1) f_0_5 Hc Bc)
    as (overall & rm & pm & _ & _ & Hres).
  exists overall, (fmul rm f_100), (fmul pm f_100), (fmul f_0_5 f_100). exact Hres.
Defined.

(** C7 on a job description that names no requirement. *)
Lemma empty_requirements_score_100_witness :
  exists overall scores,
    compute_match_score demo_env resume_1 job_2 = Ok (overall, scores)
    /\ scores !! 0%nat = Some ("required_skills", f_100)
    /\ scores !! 1%nat = Some ("preferred_skills", f_100).
Proof.
  destruct (empty_requirements_score_100 demo_env resume_1 job_2) as (Hr & Hp & _ & Hret & _).
  destruct (Hret f_0_5 ltac:(by vm_compute) ltac:(by vm_compute)) as (overall & scores & Hres).
  exists overall, scores. split; [exact Hres|]. split.
  - by apply (proj2 (Hr ltac:(by vm_compute)) overall scores).
  - by apply (proj2 (Hp ltac:(by vm_compute)) overall scores).
Defined.


(** C9 on a text with an acronym. *)
Lemma acronyms_are_not_preserved_witness :
  keeps_case demo_env
  /\ clean_text demo_env "AWS and CI-CD pipelines" = "aws ci-cd pipeline".
Proof.
  split; [exact demo_keeps_case|].
  destruct (acronyms_are_not_preserved demo_env "AWS and CI-CD pipelines" demo_keeps_case)
    as [_ ->].
  by vm_compute.
Defined.

End Runs.

(** * Further properties *)

(** ** Tone catalog, prompt prefix and tone analysis *)

Module ToneAdapterLaws.
Import PyStr PyUnicode PyFloat PyStrSpec PyStrFacts PyFloatSpec.
Import ToneAdapter ToneAdapterSpec ToneAdapterFacts ConfidenceSpec PlainText.
Local Open Scope Z_scope.

Lemma append_assoc (a b c : string) : (a +:+ b) +:+ c = a +:+ (b +:+ c).
Proof.
  induction a as [|x a IH]; [reflexivity|].
  change (String x ((a +:+ b) +:+ c) = String x (a +:+ (b +:+ c))). by rewrite IH.
Qed.

Section WithUnicode.
Context {U : unicode}.

(** Each tone of the catalog is left alone by [normalize_tone]. *)
Lemma normalize_tone_catalog (t : string) :
  t ∈ Config.TONE_OPTIONS -> normalize_tone t = t.
Proof.
  unfold Config.TONE_OPTIONS. rewrite !elem_of_cons, elem_of_nil.
  by intros [->|[->|[->|[->|[->|[]]]]]].
Qed.

Lemma normalize_tone_in_catalog (tone : string) : normalize_tone tone ∈ Config.TONE_OPTIONS.
Proof.
  destruct tone as [|c s]; [apply formal_in_catalog|].
  rewrite normalize_tone_nonempty. cbv zeta. unfold in_list.
  case_bool_decide as Hin; [done|].
  destruct (List.find _ _) as [v|] eqn:Hf; [|apply formal_in_catalog].
  by apply find_elem in Hf.
Qed.

(** X1. Normalising twice is normalising once: [normalize_tone] maps every
    string into the catalog and leaves the catalog tones unchanged. *)
Theorem normalize_tone_idempotent (tone : string) :
  normalize_tone (normalize_tone tone) = normalize_tone tone.
Proof. apply normalize_tone_catalog, normalize_tone_in_catalog. Qed.

Lemma dict_get_none {V} (d : list (string * V)) (k : string) :
  k ∉ map fst d -> dict_get d k = None.
Proof.
  induction d as [|[k' v] d IH]; intros Hk; simpl; [done|].
  simpl in Hk. rewrite not_elem_of_cons in Hk. destruct Hk as [Hne Hk].
  destruct (String.eqb k' k) eqn:E; [|by apply IH].
  apply String.eqb_eq in E. congruence.
Qed.

Lemma dict_get_some {V} (d : list (string * V)) (k : string) :
  k ∈ map fst d -> exists v, dict_get d k = Some v /\ (k, v) ∈ d.
Proof.
  induction d as [|[k' v] d IH]; intros Hk; simpl in *; [by apply elem_of_nil in Hk|].
  destruct (String.eqb k' k) eqn:E.
  - apply String.eqb_eq in E as ->. exists v. split; [done|by left].
  - apply String.eqb_neq in E. apply elem_of_cons in Hk as [Hk|Hk]; [congruence|].
    destruct (IH Hk) as (w & Hw & Hin). exists w. split; [done|by right].
Qed.

(** The entry of Formal, and the part of its prefix after the heading. *)
Lemma formal_entry :
  exists formal, dict_getitem TONE_CHARACTERISTICS "Formal" = Ok formal
                 /\ ("Formal", formal) ∈ TONE_CHARACTERISTICS.
Proof. eexists. split; [reflexivity|]. by left. Qed.

Lemma tone_characteristics_default_unknown (tone : string) :
  tone ∉ Config.TONE_OPTIONS ->
  get_tone_characteristics tone
  = Ok {| words := ["respectfully"; "kindly"; "accordingly"; "pursuant"; "regarding";
                    "furthermore"; "nevertheless"; "therefore"];
          phrases := ["I am writing to"; "please be advised"; "as per our discussion";
                      "thank you for your consideration"; "at your earliest convenience"];
          avoid := ["hey"; "yeah"; "cool"; "awesome"; "thanks"; "btw"; "okay"] |}.
Proof.
  intros Hn. unfold get_tone_characteristics. cbn [dict_getitem res_bind].
  change (dict_get TONE_CHARACTERISTICS "Formal") with
    (Some {| words := ["respectfully"; "kindly"; "accordingly"; "pursuant"; "regarding";
                       "furthermore"; "nevertheless"; "therefore"];
             phrases := ["I am writing to"; "please be advised"; "as per our discussion";
                         "thank you for your consideration"; "at your earliest convenience"];
             avoid := ["hey"; "yeah"; "cool"; "awesome"; "thanks"; "btw"; "okay"] |}).
  cbn [res_bind]. by rewrite (dict_get_none TONE_CHARACTERISTICS tone Hn).
Qed.

(** X2. [get_tone_characteristics] never fails: a tone of the catalog gets
    its own entry, any other string gets the entry of Formal; after
    [normalize_tone] the entry is always the tone's own. *)
Theorem tone_characteristics_default (tone : string) :
  (tone ∈ Config.TONE_OPTIONS ->
     exists chars, get_tone_characteristics tone = Ok chars
                   /\ (tone, chars) ∈ TONE_CHARACTERISTICS)
  /\ (tone ∉ Config.TONE_OPTIONS ->
      get_tone_characteristics tone = get_tone_characteristics "Formal")
  /\ (exists chars, get_tone_characteristics (normalize_tone tone) = Ok chars
                    /\ (normalize_tone tone, chars) ∈ TONE_CHARACTERISTICS).
Proof.
  assert (Hin : forall t, t ∈ Config.TONE_OPTIONS ->
            exists chars, get_tone_characteristics t = Ok chars
                          /\ (t, chars) ∈ TONE_CHARACTERISTICS).
  { intros t Ht. destruct (dict_get_some TONE_CHARACTERISTICS t Ht) as (chars & Hget & Hmem).
    exists chars. split; [|done]. unfold get_tone_characteristics.
    destruct formal_entry as (formal & -> & _). cbn [res_bind]. by rewrite Hget. }
  split; [apply Hin|]. split; [|exact (Hin _ (normalize_tone_in_catalog tone))].
  intros Hn. by rewrite (tone_characteristics_default_unknown tone Hn).
Qed.

(** X3. [get_tone_prompt_prefix] never fails; for a tone outside the
    catalog it is the prompt of Formal under a heading that names the given
    tone in lower case. *)
Theorem prompt_prefix_unknown_tone (tone : string) :
  (exists prefix, get_tone_prompt_prefix tone = Ok prefix)
  /\ (tone ∉ Config.TONE_OPTIONS ->
      get_tone_prompt_prefix tone
      = Ok ("Write in a " +:+ str_lower tone +:+ " tone, incorporating these elements:" +:+ nl
            +:+ nl +:+ "Preferred words and phrases:" +:+ nl
            +:+ "respectfully, kindly, accordingly, I am writing to, please be advised" +:+ nl
            +:+ nl +:+ "Avoid:" +:+ nl
            +:+ "hey, yeah, cool")).
Proof.
  split.
  - unfold get_tone_prompt_prefix, get_tone_characteristics.
    destruct formal_entry as (formal & -> & _). cbn [res_bind]. by eexists.
  - intros Hn. unfold get_tone_prompt_prefix.
    rewrite (tone_characteristics_default_unknown tone Hn).
    cbn [res_bind]. cbv zeta. f_equal. cbn [join words phrases avoid firstn app].
    rewrite !append_assoc. reflexivity.
Qed.

(** *** Tone analysis: the default answer and the range of the confidence *)

Lemma analyze_tone_run (text : string) :
  exists (i : nat) (tone : string) (chars : tone_chars),
    TONE_CHARACTERISTICS !! i = Some (tone, chars)
    /\ analyze_tone text = Ok (tone, py_min f_1_0 (float_score chars text))
    /\ (forall tone' chars', (tone', chars') ∈ TONE_CHARACTERISTICS ->
          (exact_score chars' text <= exact_score chars text)%Q)
    /\ (forall (j : nat) tone' chars', (j < i)%nat ->
          TONE_CHARACTERISTICS !! j = Some (tone', chars') ->
          (exact_score chars' text < exact_score chars text)%Q).
Proof.
  unfold analyze_tone. rewrite fill_scores_catalog. cbn [res_bind].
  destruct (py_max_scores text (List.hd ("", Build_tone_chars [] [] []) TONE_CHARACTERISTICS)
                          (tail TONE_CHARACTERISTICS))
    as (i & tone & chars & Hi & Hmax & Hle & Hlt).
  { intros entry He. exact He. }
  change (List.hd _ TONE_CHARACTERISTICS :: tail TONE_CHARACTERISTICS)
    with TONE_CHARACTERISTICS in *.
  exists i, tone, chars. split; [exact Hi|]. rewrite Hmax. cbn [res_bind fst snd].
  split; [reflexivity|]. split.
  - intros tone' chars' Hin. apply (Hle (tone', chars') Hin).
  - intros j tone' chars' Hj Hl. apply (Hlt j (tone', chars') Hj Hl).
Qed.

Lemma hits_none (markers : list string) (text : string) :
  forallb (fun m => negb (contains (str_lower m) (str_lower text))) markers = true ->
  hits markers text = 0.
Proof.
  unfold hits. induction markers as [|m markers IH]; simpl; [done|].
  intros H. apply andb_true_iff in H as [Hm H]. apply negb_true_iff in Hm.
  rewrite Hm. by apply IH.
Qed.

Lemma no_marker_score (text tone : string) (chars : tone_chars) :
  no_marker text = true -> (tone, chars) ∈ TONE_CHARACTERISTICS ->
  marker_score chars text = 0.
Proof.
  intros Hno Hin. unfold no_marker in Hno. rewrite forallb_forall in Hno.
  specialize (Hno (tone, chars) ltac:(by apply list_elem_of_In)). cbn [snd] in Hno.
  rewrite !forallb_app in Hno.
  apply andb_true_iff in Hno as [Hw Hno]. apply andb_true_iff in Hno as [Hp Ha].
  unfold marker_score. rewrite (hits_none _ _ Hw), (hits_none _ _ Hp), (hits_none _ _ Ha).
  reflexivity.
Qed.

(** X4. On a text in whose lower-cased form no lower-cased marker of any
    tone occurs (the empty text for one) every tone scores 0 and
    [analyze_tone] answers Formal, the first tone of the catalog, with
    confidence 0.0. *)
Theorem analyze_tone_without_markers (text : string) :
  no_marker text = true -> analyze_tone text = Ok ("Formal", S754_zero false).
Proof.
  intros Hno. destruct (analyze_tone_run text) as (i & tone & chars & Hi & Hrun & _ & Hlt).
  assert (Hzero : forall t c, (t, c) ∈ TONE_CHARACTERISTICS -> (exact_score c text == 0)%Q).
  { intros t c Hin. unfold exact_score. rewrite (no_marker_score text t c Hno Hin).
    reflexivity. }
  destruct i as [|i].
  - injection Hi as <- <-. rewrite Hrun. unfold float_score.
    rewrite (no_marker_score text "Formal" _ Hno ltac:(by left)). reflexivity.
  - exfalso. specialize (Hlt 0%nat _ _ ltac:(lia) eq_refl).
    rewrite (Hzero "Formal") in Hlt by (by left).
    rewrite (Hzero tone chars) in Hlt by (by apply list_elem_of_lookup_2 in Hi).
    by apply Qlt_irrefl in Hlt.
Qed.

Lemma confidence_grid_checked : confidence_grid_ok = true.
Proof. by vm_compute. Qed.

Lemma catalog_keys : map fst TONE_CHARACTERISTICS = Config.TONE_OPTIONS.
Proof. reflexivity. Qed.

(** X5. The tone that [analyze_tone] detects is one of
    [config.TONE_OPTIONS], and the confidence is a finite float between
    -0.4 and 1: the upper end is the clamp, the lower end holds because the
    best tone scores at least as much as Friendly, which has five words to
    avoid over thirteen markers. *)
Theorem analyze_tone_confidence_range (text : string) :
  exists tone conf,
    analyze_tone text = Ok (tone, conf)
    /\ tone ∈ Config.TONE_OPTIONS
    /\ is_finite conf = true
    /\ (- (2 # 5) <= to_Q conf)%Q /\ (to_Q conf <= 1)%Q.
Proof.
  destruct (analyze_tone_run text) as (i & tone & chars & Hi & Hrun & Hle & _).
  exists tone, (py_min f_1_0 (float_score chars text)). split; [exact Hrun|].
  assert (Hin : (tone, chars) ∈ TONE_CHARACTERISTICS) by (by apply list_elem_of_lookup_2 in Hi).
  split.
  { rewrite <- catalog_keys. apply list_elem_of_fmap. by exists (tone, chars). }
  destruct (marker_score_bounds tone chars text Hin) as [Hb Ht].
  set (friendly := {| words := ["great"; "wonderful"; "appreciate"; "thanks"; "helpful";
                                "excited"; "looking forward"; "pleased"];
                      phrases := ["hope you're doing well"; "great to hear from you";
                                  "thanks so much"; "looking forward to"; "all the best"];
                      avoid := ["hereby"; "pursuant"; "moreover"; "thus"; "henceforth"] |}).
  assert (Hf : ("Friendly", friendly) ∈ TONE_CHARACTERISTICS) by (right; by left).
  specialize (Hle "Friendly" friendly Hf).
  assert (Hlow : -5 * total_markers chars <= 13 * marker_score chars text).
  { unfold exact_score, Qle in Hle. cbn [Qnum Qden] in Hle.
    rewrite !Z2Pos.id in Hle by (destruct Ht as [-> | ->]; done).
    change (total_markers friendly) with 13 in Hle.
    change (Z.pos (Z.to_pos 13)) with 13 in Hle.
    pose proof (hits_bounds (words friendly) text) as H.
    pose proof (hits_bounds (phrases friendly) text) as H0.
    pose proof (hits_bounds (avoid friendly) text) as Ha. change (Z.of_nat _) with 5 in Ha.
    assert (-5 <= marker_score friendly text) by (unfold marker_score; lia).
    clear H H0 Ha. generalize dependent (marker_score friendly text). intros mf Hle Hmf.
    destruct Ht as [Ht | Ht]; rewrite Ht in Hle |- *; lia. }
  pose proof confidence_grid_checked as G. unfold confidence_grid_ok in G.
  rewrite forallb_forall in G. specialize (G _ (in_score_grid _ Hb)).
  rewrite forallb_forall in G.
  assert (Htin : In (total_markers chars) [12; 13]) by (destruct Ht as [-> | ->]; simpl; tauto).
  specialize (G _ Htin). apply Z.leb_le in Hlow. rewrite Hlow in G. cbn [implb] in G.
  apply andb_true_iff in G as [G G3]. apply andb_true_iff in G as [G1 G2].
  apply Qle_bool_iff in G2, G3. unfold float_score. by repeat split.
Qed.

End WithUnicode.

(** X4 on a note without any marker. *)
Lemma analyze_tone_without_markers_witness :
  analyze_tone (U := ascii_tables) "See you at 10 in room B2" = Ok ("Formal", S754_zero false).
Proof. apply analyze_tone_without_markers. vm_compute. reflexivity. Defined.

(** X2 on a tone of the catalog and on one outside it. *)
Lemma tone_characteristics_default_witness :
  (exists chars, get_tone_characteristics "Friendly" = Ok chars
                 /\ ("Friendly", chars) ∈ TONE_CHARACTERISTICS)
  /\ get_tone_characteristics "Casual" = get_tone_characteristics "Formal".
Proof.
  destruct (tone_characteristics_default (U := ascii_tables) "Friendly") as (Hin & _ & _).
  destruct (tone_characteristics_default (U := ascii_tables) "Casual") as (_ & Hout & _).
  split.
  - apply Hin. apply (bool_decide_unpack _). by vm_compute.
  - apply Hout. apply (bool_decide_unpack _). by vm_compute.
Defined.

(** X3 on the tone "Casual". *)
Lemma prompt_prefix_unknown_tone_witness :
  exists prefix, get_tone_prompt_prefix (U := ascii_tables) "Casual" = Ok prefix
                 /\ String.prefix "Write in a casual tone" prefix = true.
Proof.
  destruct (prompt_prefix_unknown_tone (U := ascii_tables) "Casual") as (_ & H).
  eexists. split; [apply H; apply (bool_decide_unpack _); by vm_compute|]. by vm_compute.
Defined.

End ToneAdapterLaws.

(** ** Email generation: log, counter and content *)

Module GeneratorLaws.
Import PyStr PyStrSpec PyStrFacts Generator GeneratorSpec GeneratorFacts AccountingSpec.
Local Open Scope Z_scope.

Lemma hf_accounting (B : backends) (subject context tone : string) (s : state) :
  let s' := snd (generate_email_with_huggingface B subject context tone s) in
  let c := HFCall (hf_call_args (hf_prompt_of subject context tone)) in
  calls s' = (calls s ++ [c])%list
  /\ email_generation_count s'
     = email_generation_count s + (if answered B c then 1 else 0).
Proof.
  cbv zeta. rewrite hf_run. cbv zeta. unfold answered.
  destruct (hf_generator B _) as [result|e]; [|simpl; split; [done|lia]].
  destruct (hf_text result); simpl; split; done.
Qed.

(** X6. Whatever the arguments and the backends, a call to
    [generate_email] only appends to the log of backend calls: one call to
    the pipeline, or one call to the client, or one to the client followed
    by one to the pipeline; and the counter grows by the number of those
    calls that were answered (so by 0, 1 or 2, and it never goes down). *)
Theorem generate_email_accounting (B : backends) (subject context tone : string)
        (recipient_name : option string) (use_gpt : bool) (s : state) :
  let s' := snd (generate_email B subject context tone recipient_name use_gpt s) in
  exists new,
    calls s' = (calls s ++ new)%list
    /\ call_pattern new
    /\ email_generation_count s'
       = email_generation_count s + Z.of_nat (length (List.filter (answered B) new)).
Proof.
  cbv zeta.
  assert (Hhf : forall s1 : state, exists c,
            calls (snd (generate_email_with_huggingface B subject context tone s1))
            = (calls s1 ++ [HFCall c])%list
            /\ email_generation_count (snd (generate_email_with_huggingface B subject context
                                                                            tone s1))
               = email_generation_count s1 + (if answered B (HFCall c) then 1 else 0)).
  { intros s1. eexists. apply hf_accounting. }
  assert (Hsnd : snd (generate_email B subject context tone recipient_name use_gpt s)
                 = snd ((if use_gpt
                         then generate_email_with_gpt B subject context tone recipient_name
                         else generate_email_with_huggingface B subject context tone) s)).
  { unfold generate_email, bind, ret. destruct use_gpt.
    - by destruct (generate_email_with_gpt B subject context tone recipient_name s)
        as [[t|e] s'].
    - by destruct (generate_email_with_huggingface B subject context tone s) as [[t|e] s']. }
  rewrite Hsnd. clear Hsnd. destruct use_gpt.
  - destruct (TONE_EXAMPLES !! tone) as [ex|] eqn:Hex.
    + rewrite (gpt_run _ _ _ _ _ ex s Hex). cbv zeta.
      set (req := gpt_request_for subject context tone recipient_name ex).
      destruct (openai_create B req) as [response|e] eqn:Hcall.
      * destruct (gpt_text response) as [text|e].
        -- exists [OpenAICall req]. cbn [snd logged counted calls email_generation_count].
           split; [done|]. split; [constructor|]. cbn [List.filter answered]. by rewrite Hcall.
        -- destruct (Hhf (counted (logged s (OpenAICall req)))) as (c & Hc & Hn).
           exists [OpenAICall req; HFCall c]. rewrite Hc, Hn.
           cbn [logged counted calls email_generation_count].
           split; [by rewrite <- app_assoc|]. split; [constructor|].
           assert (Ha : answered B (OpenAICall req) = true)
             by (cbn [answered]; by rewrite Hcall).
           cbn [List.filter]. rewrite Ha.
           destruct (answered B (HFCall c)); simpl; lia.
      * destruct (Hhf (logged s (OpenAICall req))) as (c & Hc & Hn).
        exists [OpenAICall req; HFCall c]. rewrite Hc, Hn.
        cbn [logged calls email_generation_count].
        split; [by rewrite <- app_assoc|]. split; [constructor|].
        assert (Ha : answered B (OpenAICall req) = false)
          by (cbn [answered]; by rewrite Hcall).
        cbn [List.filter]. rewrite Ha.
        destruct (answered B (HFCall c)); simpl; lia.
    + assert (Hn : tone ∉ Config.TONE_OPTIONS).
      { intros Hin. apply examples_keys in Hin as [ex Hin]. congruence. }
      destruct (unknown_tone_goes_to_fallback_eq B subject context tone recipient_name s Hn)
        as [_ ->].
      destruct (Hhf s) as (c & Hc & Hcount). exists [HFCall c]. rewrite Hc, Hcount.
      split; [done|]. split; [constructor|]. cbn [List.filter].
      destruct (answered B (HFCall c)); simpl; lia.
  - destruct (Hhf s) as (c & Hc & Hcount). exists [HFCall c]. rewrite Hc, Hcount.
    split; [done|]. split; [constructor|]. cbn [List.filter].
    destruct (answered B (HFCall c)); simpl; lia.
Qed.


(** X8. A tone that went through [normalize_tone] always has its entry in
    [TONE_EXAMPLES]: the prompt is built and the first backend that
    [generate_email_with_gpt] calls is the OpenAI client. *)
Theorem normalized_tone_reaches_primary {U : PyUnicode.unicode} (B : backends)
        (subject context raw : string) (recipient_name : option string) (s : state) :
  let tone := ToneAdapter.normalize_tone raw in
  exists ex later,
    TONE_EXAMPLES !! tone = Some ex
    /\ calls (snd (generate_email_with_gpt B subject context tone recipient_name s))
       = (calls s ++ OpenAICall (gpt_request_for subject context tone recipient_name ex)
                  :: later)%list.
Proof.
  cbv zeta.
  assert (Hin : ToneAdapter.normalize_tone raw ∈ Config.TONE_OPTIONS).
  { apply ToneAdapterLaws.normalize_tone_in_catalog. }
  apply examples_keys in Hin as [ex Hex]. exists ex.
  rewrite (gpt_run _ _ _ _ _ ex s Hex). cbv zeta.
  set (req := gpt_request_for subject context (ToneAdapter.normalize_tone raw)
                              recipient_name ex).
  destruct (openai_create B req) as [response|e].
  - destruct (gpt_text response) as [text|e].
    + exists []. done.
    + destruct (hf_accounting B subject context (ToneAdapter.normalize_tone raw)
                              (counted (logged s (OpenAICall req)))) as [Hc _].
      eexists. rewrite Hc. cbn [logged counted calls]. by rewrite <- app_assoc.
  - destruct (hf_accounting B subject context (ToneAdapter.normalize_tone raw)
                            (logged s (OpenAICall req))) as [Hc _].
    eexists. rewrite Hc. cbn [logged calls]. by rewrite <- app_assoc.
Qed.

(** *** Stripped content *)









End GeneratorLaws.

(** ** Resume matching: skills, requirements and scores *)

Module ResumeMatcherLaws.
Import PyStr PyFloat PyStrSpec PyStrFacts PyFloatSpec PyFloatFacts.
Import Generator GeneratorSpec GeneratorFacts.
Import ResumeMatcher ResumeMatcherSpec ResumeMatcherFacts RequirementsSpec Demo Samples.
Local Open Scope Z_scope.

Section WithEnv.
Variable env : nlp_env.



(** X12. [get_missing_requirements] reports exactly the required skills
    that [extract_skills] does not find in the resume: a required skill is
    either found or reported, never both, and the list is empty exactly
    when every required skill is found; the same holds for the preferred
    skills. *)
Theorem missing_requirements_complete (resume_text job_description : string) :
  let found := extract_skills env resume_text in
  let reqs := analyze_requirements env job_description in
  let m := get_missing_requirements env resume_text job_description in
  (forall x, x ∈ missing_required m <-> x ∈ required_skills reqs /\ x ∉ found)
  /\ (forall x, x ∈ missing_preferred m <-> x ∈ preferred_skills reqs /\ x ∉ found)
  /\ (missing_required m = [] <-> forall x, x ∈ required_skills reqs -> x ∈ found)
  /\ (missing_preferred m = [] <-> forall x, x ∈ preferred_skills reqs -> x ∈ found).
Proof.
  cbv zeta. unfold get_missing_requirements. cbn [missing_required missing_preferred].
  assert (Hmem : forall l x,
    x ∈ List.filter (fun skill => negb (bool_decide
           (skill ∈ (list_to_set (extract_skills env resume_text) : gset string)))) l
    <-> x ∈ l /\ x ∉ extract_skills env resume_text).
  { intros l x. rewrite filter_elem, negb_true_iff, bool_decide_eq_false.
    by rewrite elem_of_list_to_set. }
  assert (Hnil : forall l,
    List.filter (fun skill => negb (bool_decide
           (skill ∈ (list_to_set (extract_skills env resume_text) : gset string)))) l = []
    <-> forall x, x ∈ l -> x ∈ extract_skills env resume_text).
  { intros l. split.
    - intros Hf x Hx. destruct (decide (x ∈ extract_skills env resume_text)) as [|Hn]; [done|].
      assert (Hin : x ∈ @nil string); [|by apply elem_of_nil in Hin].
      rewrite <- Hf. by apply Hmem.
    - intros Hall. destruct (List.filter _ l) as [|y ys] eqn:Hf; [done|].
      assert (Hy : y ∈ y :: ys) by (by left). rewrite <- Hf in Hy.
      apply Hmem in Hy as [Hy Hn]. by specialize (Hall y Hy). }
  split; [apply Hmem|]. split; [apply Hmem|]. split; apply Hnil.
Qed.

Lemma fdiv_self (p : positive) : fdiv (raw_int (Zpos p)) (raw_int (Zpos p)) = f_1_0.
Proof.
  unfold fdiv, prec, emax. cbn [raw_int SFdiv xorb]. unfold SFdiv_core_binary.
  replace (Zdigits2 (Zpos p) + 0 - (Zdigits2 (Zpos p) + 0)) with 0 by lia.
  change (Z.min (fexp 53 1024 0) (0 - 0)) with (-53).
  change (0 - 0 - -53) with 53.
  cbv iota beta.
  assert (Hm : Z.shiftl (Zpos p) 53 = Zpos p * 2 ^ 53)
    by (apply Z.shiftl_mul_pow2; lia).
  rewrite Hm.
  pose proof (Z_div_mod (Zpos p * 2 ^ 53) (Zpos p) ltac:(lia)) as Hdm.
  destruct (Z.div_eucl (Zpos p * 2 ^ 53) (Zpos p)) as [qq rr]. destruct Hdm as [Hdm Hr].
  assert (Hq : qq = 2 ^ 53) by nia. assert (Hr0 : rr = 0) by nia. subst qq rr.
  rewrite new_location_exact. by vm_compute.
Qed.

Lemma fdiv_zero (q : positive) : fdiv (raw_int 0) (raw_int (Zpos q)) = S754_zero false.
Proof. reflexivity. Qed.

Lemma skill_match_all (resume_skills skills : gset string) :
  skills ⊆ resume_skills -> skill_match resume_skills skills = Ok f_1_0.
Proof.
  intros Hsub. unfold skill_match. destruct (size skills =? 0)%nat eqn:Hz; [done|].
  apply Nat.eqb_neq in Hz.
  rewrite (comm_L (∩) resume_skills skills), (subseteq_intersection_1_L _ _ Hsub).
  unfold int_true_div. rewrite (proj2 (Z.eqb_neq (Z.of_nat (size skills)) 0)) by lia.
  destruct (Z.of_nat (size skills)) as [|p|p] eqn:Hs; [lia| |lia].
  by rewrite fdiv_self.
Qed.

Lemma skill_match_none (resume_skills skills : gset string) :
  skills ≠ ∅ -> resume_skills ∩ skills = ∅ ->
  skill_match resume_skills skills = Ok (S754_zero false).
Proof.
  intros Hne Hdis. unfold skill_match.
  assert (Hz : size skills <> 0%nat) by (intros H0; by apply size_empty_inv in H0; apply leibniz_equiv in H0).
  rewrite (proj2 (Nat.eqb_neq _ _) Hz). rewrite Hdis, size_empty.
  unfold int_true_div. rewrite (proj2 (Z.eqb_neq (Z.of_nat (size skills)) 0)) by lia.
  destruct (Z.of_nat (size skills)) as [|p|p] eqn:Hs; [lia| |lia]. reflexivity.
Qed.

(** X13. The score of the required skills is tied to the list of missing
    ones: when [compute_match_score] returns, the entry "required_skills"
    of the detailed scores is exactly 100.0 if [get_missing_requirements]
    reports no missing required skill, and exactly 0.0 if the job text has
    required skills and all of them are reported missing. *)
Theorem required_score_extremes (resume_text job_description : string)
        (overall : Z) (detailed : list (string * spec_float)) :
  compute_match_score env resume_text job_description = Ok (overall, detailed) ->
  let reqs := analyze_requirements env job_description in
  let m := get_missing_requirements env resume_text job_description in
  (missing_required m = [] ->
   exists ps cs, detailed = [("required_skills", f_100); ("preferred_skills", ps);
                             ("content_similarity", cs)])
  /\ (required_skills reqs <> [] -> missing_required m = required_skills reqs ->
      exists ps cs, detailed = [("required_skills", S754_zero false); ("preferred_skills", ps);
                                ("content_similarity", cs)]).
Proof.
  intros Hrun. cbv zeta.
  destruct (compute_match_score_run env resume_text job_description)
    as (rm & pm & Hrm & _ & _ & _ & Heq).
  rewrite Heq in Hrun. clear Heq.
  destruct (tfidf_cosine env _ _) as [c|e]; [|done]. cbv zeta in Hrun.
  destruct (int_of_float _) as [ov|e]; [|done]. cbn [res_bind] in Hrun.
  injection Hrun as _ <-.
  destruct (missing_requirements_complete resume_text job_description)
    as (Hmem & _ & Hnil & _). cbv zeta in Hmem, Hnil.
  split.
  - intros Hall. rewrite Hnil in Hall.
    rewrite skill_match_all in Hrm.
    + injection Hrm as <-. by eexists _, _.
    + intros x. rewrite !elem_of_list_to_set. apply Hall.
  - intros Hne Hmiss.
    rewrite skill_match_none in Hrm.
    + injection Hrm as <-. by eexists _, _.
    + intros H0. apply Hne.
      destruct (required_skills (analyze_requirements env job_description)) as [|x l]; [done|].
      assert (Hx : x ∈ (list_to_set (x :: l) : gset string))
        by (apply elem_of_list_to_set; by left).
      rewrite H0 in Hx. by apply elem_of_empty in Hx.
    + apply leibniz_equiv. apply elem_of_equiv_empty. intros x Hx.
      apply elem_of_intersection in Hx as [Hf Hr].
      rewrite elem_of_list_to_set in Hf, Hr.
      rewrite <- Hmiss in Hr. apply Hmem in Hr as [_ Hn]. by apply Hn.
Qed.

(** X14. The two ends of the scale are reached exactly, without loss in
    the floating-point sum: when the vectorizer answers 1.0 and no
    required or preferred skill is missing, the overall score is 100 and
    the three detailed scores are 100.0; when it answers 0.0, the job text
    has required and preferred skills and all of them are missing, the
    overall score is 0 and the three detailed scores are 0.0. *)
Theorem match_score_extremes (resume_text job_description : string) :
  let reqs := analyze_requirements env job_description in
  let m := get_missing_requirements env resume_text job_description in
  let similarity := tfidf_cosine env (clean_text env resume_text)
                                 (clean_text env job_description) in
  (similarity = Ok f_1_0 -> missing_required m = [] -> missing_preferred m = [] ->
   compute_match_score env resume_text job_description
   = Ok (100, [("required_skills", f_100); ("preferred_skills", f_100);
               ("content_similarity", f_100)]))
  /\ (similarity = Ok (S754_zero false) ->
      required_skills reqs <> [] -> missing_required m = required_skills reqs ->
      preferred_skills reqs <> [] -> missing_preferred m = preferred_skills reqs ->
      compute_match_score env resume_text job_description
      = Ok (0, [("required_skills", S754_zero false); ("preferred_skills", S754_zero false);
                ("content_similarity", S754_zero false)])).
Proof.
  cbv zeta.
  destruct (compute_match_score_run env resume_text job_description)
    as (rm & pm & Hrm & Hpm & _ & _ & Heq).
  destruct (missing_requirements_complete resume_text job_description)
    as (Hmr & Hmp & Hnr & Hnp). cbv zeta in Hmr, Hmp, Hnr, Hnp.
  assert (Hall : forall l : list string,
            (forall x, x ∈ l -> x ∈ extract_skills env resume_text) ->
            skill_match (list_to_set (extract_skills env resume_text)) (list_to_set l)
            = Ok f_1_0).
  { intros l Hl. apply skill_match_all. intros x. rewrite !elem_of_list_to_set. apply Hl. }
  assert (Hnone : forall l : list string,
            l <> [] -> (forall x, x ∈ l -> x ∉ extract_skills env resume_text) ->
            skill_match (list_to_set (extract_skills env resume_text)) (list_to_set l)
            = Ok (S754_zero false)).
  { intros l Hne Hl. apply skill_match_none.
    - intros H0. apply Hne. destruct l as [|x l]; [done|].
      assert (Hx : x ∈ (list_to_set (x :: l) : gset string))
        by (apply elem_of_list_to_set; by left).
      rewrite H0 in Hx. by apply elem_of_empty in Hx.
    - apply leibniz_equiv. apply elem_of_equiv_empty. intros x Hx.
      apply elem_of_intersection in Hx as [Hf Hr].
      rewrite elem_of_list_to_set in Hf, Hr. by apply (Hl x). }
  split.
  - intros Hc Hr Hp. rewrite Heq, Hc. cbv zeta.
    rewrite Hall in Hrm by (by apply Hnr). rewrite Hall in Hpm by (by apply Hnp).
    injection Hrm as <-. injection Hpm as <-. by vm_compute.
  - intros Hc Hrne Hr Hpne Hp. rewrite Heq, Hc. cbv zeta.
    rewrite Hnone in Hrm; [|done|].
    2:{ intros x Hx. rewrite <- Hr in Hx. by apply Hmr in Hx as [_ ?]. }
    rewrite Hnone in Hpm; [|done|].
    2:{ intros x Hx. rewrite <- Hp in Hx. by apply Hmp in Hx as [_ ?]. }
    injection Hrm as <-. injection Hpm as <-. by vm_compute.
Qed.

End WithEnv.

(** X13 on a resume that shows every required skill, and on one that
    shows none. *)
Lemma required_score_extremes_witness :
  (exists overall ps cs,
     compute_match_score demo_env "Python is required" "Required: Python. Preferred: SQL."
     = Ok (overall, [("required_skills", f_100); ("preferred_skills", ps);
                     ("content_similarity", cs)]))
  /\ (exists overall ps cs,
        compute_match_score demo_env "Java" "Required: Python. Preferred: SQL."
        = Ok (overall, [("required_skills", S754_zero false); ("preferred_skills", ps);
                        ("content_similarity", cs)])).
Proof.
  split.
  - destruct (ResumeMatcherFacts.compute_match_score_returns demo_env "Python is required"
                "Required: Python. Preferred: SQL." f_0_5
                ltac:(vm_compute; reflexivity) ltac:(by vm_compute))
      as (rs & ps & cs & _ & _ & _ & _ & Hrun).
    destruct (ResumeMatcherLaws.required_score_extremes demo_env "Python is required"
                "Required: Python. Preferred: SQL." _ _ Hrun) as [Hall _].
    destruct (Hall ltac:(vm_compute; reflexivity)) as (ps' & cs' & Heq).
    rewrite Hrun, Heq. eexists _, _, _. reflexivity.
  - destruct (ResumeMatcherFacts.compute_match_score_returns demo_env "Java"
                "Required: Python. Preferred: SQL." f_0_5
                ltac:(vm_compute; reflexivity) ltac:(by vm_compute))
      as (rs & ps & cs & _ & _ & _ & _ & Hrun).
    destruct (ResumeMatcherLaws.required_score_extremes demo_env "Java"
                "Required: Python. Preferred: SQL." _ _ Hrun) as [_ Hnone].
    destruct (Hnone ltac:(vm_compute; discriminate) ltac:(vm_compute; reflexivity))
      as (ps' & cs' & Heq).
    rewrite Hrun, Heq. eexists _, _, _. reflexivity.
Defined.

(** X14 on a resume equal to the job text, and on an empty resume. *)
Lemma match_score_extremes_witness :
  compute_match_score echo_env "Python required" "Python required"
  = Ok (100, [("required_skills", f_100); ("preferred_skills", f_100);
              ("content_similarity", f_100)])
  /\ compute_match_score demo_env "" "Required: Python. Preferred: SQL."
     = Ok (0, [("required_skills", S754_zero false); ("preferred_skills", S754_zero false);
               ("content_similarity", S754_zero false)]).
Proof.
  split.
  - destruct (ResumeMatcherLaws.match_score_extremes echo_env "Python required"
                "Python required") as [H _].
    apply H; vm_compute; reflexivity.
  - destruct (ResumeMatcherLaws.match_score_extremes demo_env ""
                "Required: Python. Preferred: SQL.") as [_ H].
    apply H; vm_compute; first [reflexivity | discriminate].
Defined.

End ResumeMatcherLaws.

(** ** The application email *)

Module ApplicationEmailLaws.
Import PyStr PyFloat PyStrSpec PyStrFacts PyFloatSpec PyFloatFacts.
Import Generator GeneratorSpec GeneratorFacts.
Import ResumeMatcher ResumeMatcherSpec ResumeMatcherFacts ApplicationEmail.
Import PyInt Demo.
Local Open Scope Z_scope.

Section WithEnv.
Variable env : nlp_env.
Variable B : backends.

(** X15. [generate_application_email] can only fail in the scoring step:
    if it raises, the exception is the one of [compute_match_score], no
    backend has been called and the generation counter is untouched. *)
Theorem application_email_failure (resume_text job_description tone : string)
        (include_match_info : bool) (s s' : state) (e : exn) :
  generate_application_email env B resume_text job_description tone include_match_info s
  = (Raise e, s') ->
  compute_match_score env resume_text job_description = Raise e /\ s' = s.
Proof.
  unfold generate_application_email, bind, lift, ret.
  destruct (compute_match_score env resume_text job_description) as [[ov det]|e0].
  - cbv zeta. cbn [fst snd].
    destruct (generate_email_model_used B "Job Application"
                (prompt_context_of (extract_skills env resume_text)
                   (analyze_requirements env job_description) ov tone) tone None true s)
      as (r & s1 & -> & _). discriminate.
  - intros [= <- <-]. done.
Qed.


End WithEnv.

(** X15 on two empty texts, which the vectorizer refuses. *)
Lemma application_email_failure_witness :
  compute_match_score demo_env "" "" 
  = Raise (ValueError "empty vocabulary; perhaps the documents only contain stop words")
  /\ snd (generate_application_email demo_env both_up "" "" "Formal" false start) = start.
Proof.
  assert (Hrun : exists s',
            generate_application_email demo_env both_up "" "" "Formal" false start
            = (Raise (ValueError "empty vocabulary; perhaps the documents only contain stop words"),
               s')) by (eexists; by vm_compute).
  destruct Hrun as [s' Hrun].
  destruct (ApplicationEmailLaws.application_email_failure demo_env both_up "" "" "Formal"
              false start s' _ Hrun) as [Hscore ->].
  split; [exact Hscore|]. by rewrite Hrun.
Defined.


End ApplicationEmailLaws.

(** ** Validators *)

Module ValidatorsLaws.
Import PyStr PyUnicode PyInt PyStrSpec PyStrFacts Validators ValidatorsSpec.
Local Open Scope Z_scope.

Lemma code_points_ascii (s : string) :
  is_ascii s = true -> code_points s = String.length s.
Proof.
  induction s as [|c s IH]; [done|]. cbn [is_ascii code_points String.length].
  rewrite andb_true_iff. intros [Hc Hs]. rewrite (IH Hs).
  unfold is_ascii_char in Hc. unfold is_continuation. cbv zeta.
  apply Nat.ltb_lt in Hc.
  destruct (Nat.leb_spec 128 (nat_of_ascii c)) as [Hge|_]; [lia|reflexivity].
Qed.

Lemma search_spec (cls : ascii -> bool) (s : string) :
  search cls s = true <-> some_char cls s.
Proof.
  unfold some_char. induction s as [|c s IH]; cbn [search has_char].
  - split; [done|]. by intros (c & H & _).
  - rewrite orb_true_iff, IH. split.
    + intros [H|(d & Hd & Hc)].
      * exists c. by destruct (ascii_dec c c).
      * exists d. split; [|done]. destruct (ascii_dec d c); [done|exact Hd].
    + intros (d & Hd & Hc). destruct (ascii_dec d c) as [->|Hne]; [by left|].
      right. by exists d.
Qed.

Lemma values_all (c : checks) :
  forallb (fun check => check) (values c) = true
  <-> length_check c = true /\ uppercase c = true /\ lowercase c = true
      /\ digits c = true /\ special c = true /\ no_whitespace c = true
      /\ no_common c = true.
Proof.
  destruct c as [[] [] [] [] [] [] []]; cbn; intuition congruence.
Qed.

Section WithUnicode.
Context {U : unicode}.

(** X17. [validate_password_strength] accepts a password exactly when it
    has between 8 and 128 characters (code points, as [len] counts them),
    a letter of [A-Z], a letter of [a-z], a match of [\d] and one of the
    special characters, no match of [\s], and none of "password",
    "123456", "qwerty" inside [password.lower()]; the report of an
    accepted password is always "strong" with score 7 and carries the
    length of the password.  For an ASCII password the length is the
    number of its bytes, [\d] is a digit of 0..9, [\s] is one of the ASCII
    spaces and [lower] maps [A-Z] to [a-z]. *)
Theorem password_accepted_iff (password : string) (report : password_report) :
  (validate_password_strength password = (true, report)
   <-> (report = Strength "strong" 7 (len password)
        /\ 8 <= len password <= 128
        /\ some_char is_upper_ascii password
        /\ some_char is_lower_ascii password
        /\ search_digit password = true
        /\ some_char is_special password
        /\ search_space password = false
        /\ forall common, common ∈ ["password"; "123456"; "qwerty"] ->
             contains common (str_lower password) = false))
  /\ (is_ascii password = true ->
        len password = Z.of_nat (String.length password)
        /\ (search_digit password = true <-> some_char is_digit password)
        /\ (search_space password = false <-> ~ some_char is_space password)
        /\ str_lower password = lower password).
Proof.
  split; cycle 1.
  { intros Ha. unfold len, search_digit, search_space, str_lower. rewrite Ha.
    rewrite (code_points_ascii _ Ha), <- !search_spec.
    split; [reflexivity|]. split; [reflexivity|]. split; [|reflexivity].
    by destruct (search is_space password). }
  unfold validate_password_strength. cbv zeta.
  assert (Hcommon : no_common (checks_of password) = true
                    <-> forall common, common ∈ ["password"; "123456"; "qwerty"] ->
                          contains common (str_lower password) = false).
  { cbn [checks_of no_common any_in existsb]. rewrite negb_true_iff, !orb_false_iff.
    split.
    - intros (H1 & H2 & H3 & _) common Hin.
      rewrite !elem_of_cons, elem_of_nil in Hin. by destruct Hin as [->|[->|[->|[]]]].
    - intros H. repeat split; apply H; rewrite !elem_of_cons; tauto. }
  assert (Hlen : length_check (checks_of password) = true <-> 8 <= len password <= 128).
  { cbn [checks_of length_check]. unfold MIN_LENGTH, MAX_LENGTH.
    rewrite andb_true_iff, !Z.leb_le. tauto. }
  rewrite <- !search_spec.
  assert (Hws : no_whitespace (checks_of password) = true <-> search_space password = false).
  { cbn [checks_of no_whitespace]. by rewrite negb_true_iff. }
  destruct (forallb (fun check => check) (values (checks_of password))) eqn:Hall.
  - pose proof (proj1 (values_all _) Hall) as (H1 & H2 & H3 & H4 & H5 & H6 & H7).
    assert (Hscore : Z.of_nat (List.length (List.filter (fun check => check)
                                              (values (checks_of password)))) = 7).
    { unfold values. rewrite H1, H2, H3, H4, H5, H6, H7. reflexivity. }
    rewrite Hscore. change (strength_level_of 7) with "strong".
    split.
    + intros [= <-]. split; [done|]. split; [by apply Hlen|].
      cbn [checks_of uppercase lowercase digits special] in H2, H3, H4, H5.
      split; [done|]. split; [done|]. split; [done|].
      split; [done|]. split; [by apply Hws|]. by apply Hcommon.
    + by intros (-> & _).
  - split; [discriminate|].
    intros (_ & L & Up & Lo & D & S & W & C). exfalso.
    assert (Ht : forallb (fun check => check) (values (checks_of password)) = true).
    { apply values_all. cbn [checks_of uppercase lowercase digits special].
      split; [by apply Hlen|]. split; [done|]. split; [done|].
      split; [done|]. split; [done|]. split; [by apply Hws|]. by apply Hcommon. }
    congruence.
Qed.

(** X18. A rejected password gets one message per failed check and
    nothing else: the list of errors is the list of the seven messages,
    in their fixed order, restricted to the checks that failed; it is not
    empty; its length and the score add up to 7; and the strength level
    is never "strong". *)
Theorem password_rejected_report (password : string) (report : password_report) :
  validate_password_strength password = (false, report) ->
  exists level score errors,
    report = Weakness level score errors
    /\ errors = map snd (List.filter (fun m => negb (fst m))
                           (password_messages (checks_of password)))
    /\ errors <> []
    /\ 0 <= score <= 6
    /\ Z.of_nat (List.length errors) + score = 7
    /\ level = strength_level_of score
    /\ level <> "strong".
Proof.
  unfold validate_password_strength. cbv zeta.
  change (str_of_int MIN_LENGTH) with "8". change (str_of_int MAX_LENGTH) with "128".
  change ("Password must be between " +:+ "8" +:+ " and " +:+ "128" +:+ " characters")
    with "Password must be between 8 and 128 characters".
  generalize (checks_of password). intros c.
  destruct (forallb (fun check => check) (values c)) eqn:Hall; [done|].
  intros [= <-]. eexists _, _, _. split; [reflexivity|].
  unfold password_messages. revert Hall. unfold values.
  destruct c as [[] [] [] [] [] [] []];
    cbn [length_check uppercase lowercase digits special no_whitespace no_common];
    intros Hall; try discriminate Hall; clear Hall;
    (split; [reflexivity|]); (split; [discriminate|]);
    (split; [vm_compute; split; discriminate|]); (split; [reflexivity|]);
    (split; [reflexivity|]); vm_compute; discriminate.
Qed.

(** X19. Against the catalog of tones, [validate_tone] accepts exactly
    the non-empty inputs that [normalize_tone] maps to their own stripped
    and capitalized form, [tone.strip().capitalize()]; every other input
    is rejected with a message, although [normalize_tone] still maps it to
    a tone of the catalog. *)
Theorem validate_tone_agrees_with_normalize
        (get_close_matches : string -> list string -> list string) (tone : string) :
  let r := validate_tone get_close_matches tone Config.TONE_OPTIONS in
  (fst r = true
   <-> tone <> "" /\ ToneAdapter.normalize_tone tone = str_capitalize (str_strip tone))
  /\ (fst r = true -> snd r = None)
  /\ (fst r = false -> exists msg, snd r = Some msg)
  /\ ToneAdapter.normalize_tone tone ∈ Config.TONE_OPTIONS.
Proof.
  cbv zeta. split; [|split; [|split]].
  - destruct tone as [|c t]; [split; [done|by intros [? _]]|].
    unfold validate_tone, ToneAdapter.normalize_tone, in_list.
    set (tone_clean := str_capitalize (str_strip (String c t))).
    case_bool_decide as Hin.
    + split; [intros _; split; [discriminate|reflexivity]|intros _; reflexivity].
    + split.
      * by destruct (get_close_matches tone_clean Config.TONE_OPTIONS).
      * intros [_ Heq]. exfalso. apply Hin. rewrite <- Heq.
        destruct (List.find _ _) as [v|] eqn:Hf;
          [by apply ToneAdapterFacts.find_elem in Hf|apply ToneAdapterFacts.formal_in_catalog].
  - destruct tone as [|c t]; [done|]. unfold validate_tone.
    destruct (in_list _ _); [done|]. by destruct (get_close_matches _ _).
  - destruct tone as [|c t]; [by eexists|]. unfold validate_tone.
    destruct (in_list _ _); [done|]. destruct (get_close_matches _ _); by eexists.
  - apply ToneAdapterLaws.normalize_tone_in_catalog.
Qed.

Lemma is_empty_spec (s : string) : is_empty s = false <-> s <> "".
Proof. by destruct s. Qed.

(** X20. [validate_text_content] accepts a text exactly when its stripped
    form, [text.strip()], is not empty, is no longer than a non-zero
    [max_length], no shorter than a non-zero [min_length], and, for a
    non-empty list of languages, is detected as one of them; a limit of
    0, like no limit, is not checked, and the lengths are those of the
    stripped text, in code points. *)
Theorem text_content_accepted_iff (detect : string -> res string) (text : string)
        (max_length min_length : option Z) (allowed_languages : option (list string))
        (msg : option string) :
  validate_text_content detect text max_length min_length allowed_languages = (true, msg)
  <-> (msg = None
       /\ str_strip text <> ""
       /\ (forall n, max_length = Some n -> n <> 0 -> len (str_strip text) <= n)
       /\ (forall n, min_length = Some n -> n <> 0 -> n <= len (str_strip text))
       /\ (forall l, allowed_languages = Some l -> l <> [] ->
             exists lang, detect (str_strip text) = Ok lang /\ lang ∈ l)).
Proof.
  unfold validate_text_content.
  destruct (is_empty text || is_empty (str_strip text)) eqn:He.
  - split; [done|]. intros (_ & Hne & _). exfalso.
    apply orb_true_iff in He as [He|He].
    + destruct text; [|done]. by apply Hne.
    + destruct (str_strip text); [|done]. by apply Hne.
  - apply orb_false_iff in He as [_ He]. apply is_empty_spec in He. cbv zeta.
    assert (Hmax : truthy_int max_length && (default 0 max_length <? len (str_strip text)) = false
                   <-> forall n, max_length = Some n -> n <> 0 -> len (str_strip text) <= n).
    { destruct max_length as [n|]; cbn [truthy_int default andb].
      - destruct (Z.eqb_spec n 0) as [->|Hn]; cbn [negb andb].
        + split; [by intros _ ? [= <-] ?|done].
        + rewrite Z.ltb_ge. split; [by intros H ? [= <-] _|intros H; by apply H].
      - split; [by intros _ ? [=]|done]. }
    assert (Hmin : truthy_int min_length && (len (str_strip text) <? default 0 min_length) = false
                   <-> forall n, min_length = Some n -> n <> 0 -> n <= len (str_strip text)).
    { destruct min_length as [n|]; cbn [truthy_int default andb].
      - destruct (Z.eqb_spec n 0) as [->|Hn]; cbn [negb andb].
        + split; [by intros _ ? [= <-] ?|done].
        + rewrite Z.ltb_ge. split; [by intros H ? [= <-] _|intros H; by apply H].
      - split; [by intros _ ? [=]|done]. }
    destruct (truthy_int max_length && _) eqn:Emax.
    { split; [done|]. intros (_ & _ & H & _). apply Hmax in H. discriminate. }
    destruct (truthy_int min_length && _) eqn:Emin.
    { split; [done|]. intros (_ & _ & _ & H & _). apply Hmin in H. discriminate. }
    pose proof (proj1 Hmax eq_refl) as Hmax'. pose proof (proj1 Hmin eq_refl) as Hmin'.
    destruct allowed_languages as [[|l0 ls]|]; cbn [truthy_list default].
    + split; [intros [= <-]|by intros (-> & _)].
      split; [done|]. split; [done|]. split; [done|]. split; [done|]. by intros ? [= <-] ?.
    + destruct (detect (str_strip text)) as [lang|e] eqn:Hd.
      * unfold in_list. case_bool_decide as Hin.
        -- split; [intros [= <-]|by intros (-> & _)].
           split; [done|]. split; [done|]. split; [done|]. split; [done|].
           intros ? [= <-] _. by exists lang.
        -- split; [done|]. intros (_ & _ & _ & _ & H).
           destruct (H (l0 :: ls) eq_refl ltac:(done)) as (lang' & [= <-] & Hin'). done.
      * split; [done|]. intros (_ & _ & _ & _ & H).
        destruct (H (l0 :: ls) eq_refl ltac:(done)) as (lang' & [=] & _).
    + split; [intros [= <-]|by intros (-> & _)].
      split; [done|]. split; [done|]. split; [done|]. split; [done|]. by intros ? [=].
Qed.

End WithUnicode.

(** *** Sanitized text *)

Lemma all_chars_app (cls : ascii -> bool) (a b : string) :
  all_chars cls (a +:+ b) = all_chars cls a && all_chars cls b.
Proof.
  induction a as [|c a IH]; [reflexivity|].
  change (String c a +:+ b) with (String c (a +:+ b)). cbn [all_chars].
  by rewrite IH, andb_assoc.
Qed.

Lemma all_chars_weaken (p q : ascii -> bool) (s : string) :
  (forall c, p c = true -> q c = true) -> all_chars p s = true -> all_chars q s = true.
Proof.
  intros Hpq. induction s as [|c s IH]; [done|]. cbn [all_chars].
  rewrite !andb_true_iff. intros [Hc Hs]. split; [by apply Hpq|by apply IH].
Qed.

Lemma sub_unkept_kept (text : string) : all_chars is_kept (sub_unkept text) = true.
Proof.
  induction text as [|c s IH]; [done|]. cbn [sub_unkept].
  destruct (is_kept c) eqn:Hc; [|exact IH]. cbn [all_chars]. by rewrite Hc.
Qed.

Lemma sub_unkept_fixed (text : string) :
  all_chars is_kept text = true -> sub_unkept text = text.
Proof.
  induction text as [|c s IH]; [done|]. cbn [all_chars sub_unkept].
  rewrite andb_true_iff. intros [-> Hs]. by rewrite IH.
Qed.

Lemma split_words (cls : ascii -> bool) (s : string) :
  all_chars cls s = true ->
  Forall (fun w => is_word_of_split w /\ all_chars cls w = true) (split s).
Proof.
  induction s as [|c s IH]; [constructor|]. cbn [all_chars]. rewrite andb_true_iff.
  intros [Hc Hs]. specialize (IH Hs). cbn [split].
  destruct (is_space c) eqn:Hsp; [exact IH|].
  assert (Hone : is_word_of_split (String c EmptyString)
                 /\ all_chars cls (String c EmptyString) = true).
  { split; [split; [done|]|]; cbn [all_chars]; by rewrite ?Hsp, ?Hc. }
  destruct s as [|d s']; [by constructor|].
  destruct (is_space d) eqn:Hd; [by constructor|].
  destruct (split (String d s')) as [|w ws]; [by constructor|].
  apply Forall_cons in IH as [[[Hw Hws] Hwc] IH]. constructor; [|exact IH].
  split; [split; [done|]|]; cbn [all_chars]; by rewrite ?Hsp, ?Hc.
Qed.

Lemma rstrip_word (w : string) : is_word_of_split w -> rstrip w = w.
Proof.
  induction w as [|c w IH]; [by intros [? _]|]. intros [_ Hw]. cbn [all_chars] in Hw.
  apply andb_true_iff in Hw as [Hc Hw]. apply negb_true_iff in Hc. cbn [rstrip].
  destruct w as [|d w']; [cbn [rstrip]; by rewrite Hc|].
  rewrite IH by (by split). done.
Qed.

Lemma rstrip_app (a b : string) : b <> "" -> rstrip b = b -> rstrip (a +:+ b) = a +:+ b.
Proof.
  intros Hne Hb. induction a as [|c a IH]; [exact Hb|].
  change (String c a +:+ b) with (String c (a +:+ b)). cbn [rstrip]. rewrite IH.
  destruct (a +:+ b) eqn:Hab; [|done]. destruct a; [|done]. by destruct b.
Qed.

Lemma join_cons (sep x y : string) (l : list string) :
  join sep (x :: y :: l) = x +:+ sep +:+ join sep (y :: l).
Proof. reflexivity. Qed.

Lemma join_words_nonempty (w : string) (ws : list string) :
  w <> "" -> join " " (w :: ws) <> "".
Proof.
  intros Hw. destruct ws as [|y l]; [exact Hw|]. rewrite join_cons. by destruct w.
Qed.

Lemma strip_join_words (ws : list string) :
  Forall is_word_of_split ws -> strip (join " " ws) = join " " ws.
Proof.
  intros Hws. unfold strip.
  assert (Hr : rstrip (join " " ws) = join " " ws).
  { induction Hws as [|w ws Hw Hws IH]; [done|]. destruct ws as [|y l].
    - by apply rstrip_word.
    - rewrite join_cons. apply rstrip_app.
      + by destruct (join " " (y :: l)).
      + change (" " +:+ join " " (y :: l)) with (String " " (join " " (y :: l))).
        cbn [rstrip]. rewrite IH.
        apply Forall_cons in Hws as [[Hy _] _].
        pose proof (join_words_nonempty y l Hy) as Hne.
        by destruct (join " " (y :: l)). }
  rewrite Hr. destruct Hws as [|w ws [Hw Hc] Hws]; [done|].
  assert (Hj : exists c r, join " " (w :: ws) = String c r /\ is_space c = false).
  { destruct w as [|c w']; [done|]. cbn [all_chars] in Hc.
    apply andb_true_iff in Hc as [Hc _]. apply negb_true_iff in Hc.
    destruct ws as [|y l]; [by exists c, w'|].
    rewrite join_cons. by exists c, (w' +:+ " " +:+ join " " (y :: l)). }
  destruct Hj as (c & r & -> & Hsp). cbn [lstrip]. by rewrite Hsp.
Qed.

Lemma split_word (w : string) : is_word_of_split w -> split w = [w].
Proof.
  induction w as [|c w IH]; [by intros [? _]|]. intros [_ Hw]. cbn [all_chars] in Hw.
  apply andb_true_iff in Hw as [Hc Hw]. apply negb_true_iff in Hc. cbn [split]. rewrite Hc.
  destruct w as [|d w']; [done|].
  assert (Hd : is_space d = false).
  { cbn [all_chars] in Hw. apply andb_true_iff in Hw as [Hd _]. by apply negb_true_iff. }
  rewrite Hd, IH by (by split). done.
Qed.

Lemma split_word_app (w rest : string) :
  is_word_of_split w -> split (w +:+ String " " rest) = w :: split rest.
Proof.
  induction w as [|c w IH]; [by intros [? _]|]. intros [_ Hw]. cbn [all_chars] in Hw.
  apply andb_true_iff in Hw as [Hc Hw]. apply negb_true_iff in Hc.
  change (String c w +:+ String " " rest) with (String c (w +:+ String " " rest)).
  cbn [split]. rewrite Hc. destruct w as [|d w'].
  - change ("" +:+ String " " rest) with (String " " rest).
    change (is_space " ") with true. cbv iota. cbn [split].
    change (is_space " ") with true. done.
  - assert (Hd : is_space d = false).
    { cbn [all_chars] in Hw. apply andb_true_iff in Hw as [Hd _]. by apply negb_true_iff. }
    change (String d w' +:+ String " " rest) with (String d (w' +:+ String " " rest)).
    cbv iota. rewrite Hd.
    change (String d (w' +:+ String " " rest)) with (String d w' +:+ String " " rest).
    rewrite IH by (by split). done.
Qed.

Lemma split_join_words (ws : list string) :
  Forall is_word_of_split ws -> split (join " " ws) = ws.
Proof.
  induction 1 as [|w ws Hw Hws IH]; [done|]. destruct ws as [|y l].
  - by apply split_word.
  - rewrite join_cons. change (" " +:+ join " " (y :: l)) with (String " " (join " " (y :: l))).
    rewrite split_word_app by done. by rewrite IH.
Qed.

Lemma all_chars_join (cls : ascii -> bool) (ws : list string) :
  cls " "%char = true -> Forall (fun w => all_chars cls w = true) ws ->
  all_chars cls (join " " ws) = true.
Proof.
  intros Hsp. induction 1 as [|w ws Hw Hws IH]; [done|]. destruct ws as [|y l]; [done|].
  rewrite join_cons, !all_chars_app, Hw, IH. cbn [all_chars]. by rewrite Hsp.
Qed.



Lemma kept_word_plain (c : ascii) :
  is_kept c = true -> negb (is_space c) = true -> is_plain c = true.
Proof.
  unfold is_kept, is_plain. destruct (is_space c); [done|]. intros H _.
  rewrite orb_false_r in H. apply orb_true_iff in H as [Hw | Hw]; rewrite Hw; [done|].
  by rewrite orb_true_r.
Qed.

Lemma plain_kept (c : ascii) : is_plain c = true -> is_kept c = true.
Proof.
  unfold is_kept, is_plain. rewrite !orb_true_iff. intros [[H|H]|H]; [tauto| |tauto].
  apply Ascii.eqb_eq in H as ->. by vm_compute; tauto.
Qed.

(** The result of [sanitize_input] in terms of the words it is made of. *)
Lemma sanitize_input_words (text : string) (allow_html : bool) :
  exists ws,
    sanitize_input text allow_html = join " " ws
    /\ Forall (fun w => is_word_of_split w /\ all_chars is_plain w = true) ws.
Proof.
  unfold sanitize_input. cbv zeta.
  set (t1 := if negb allow_html then sub_tags false text else text).
  pose proof (split_words is_kept (sub_unkept t1) (sub_unkept_kept t1)) as Hws.
  exists (split (sub_unkept t1)). split.
  - apply strip_join_words. eapply Forall_impl; [exact Hws|]. by intros w [Hw _].
  - eapply Forall_impl; [exact Hws|]. intros w [[Hne Hsp] Hk]. split; [by split|].
    clear Hne. induction w as [|c w IH]; [done|]. cbn [all_chars] in *.
    apply andb_true_iff in Hsp as [Hc Hsp]. apply andb_true_iff in Hk as [Hkc Hk].
    by rewrite (kept_word_plain c Hkc Hc), IH.
Qed.


Lemma sub_tags_fixed (s : string) : has_char "<" s = false -> sub_tags false s = s.
Proof.
  induction s as [|c s IH]; [done|]. cbn [has_char sub_tags].
  destruct (ascii_dec "<" c) as [<-|Hne]; [done|]. intros Hs.
  destruct (Ascii.eqb_spec c "<") as [->|_]; [done|]. cbn [andb]. by rewrite IH.
Qed.

(** X22. [sanitize_input] is idempotent: sanitizing a sanitized text
    changes nothing, with or without [allow_html]. *)
Theorem sanitize_input_idempotent (text : string) (allow_html : bool) :
  sanitize_input (sanitize_input text allow_html) allow_html
  = sanitize_input text allow_html.
Proof.
  destruct (sanitize_input_words text allow_html) as (ws & -> & Hws).
  assert (Hw : Forall is_word_of_split ws)
    by (eapply Forall_impl; [exact Hws|]; by intros w [? _]).
  assert (Hplain : all_chars is_plain (join " " ws) = true).
  { apply all_chars_join; [done|]. eapply Forall_impl; [exact Hws|]. by intros w [_ ?]. }
  unfold sanitize_input. cbv zeta.
  assert (Htags : (if negb allow_html then sub_tags false (join " " ws) else join " " ws)
                  = join " " ws).
  { destruct allow_html; [done|]. cbn [negb]. apply sub_tags_fixed.
    revert Hplain. generalize (join " " ws). intros s.
    induction s as [|d s IH]; [done|]. cbn [all_chars has_char]. rewrite andb_true_iff.
    intros [Hd Hs]. destruct (ascii_dec "<" d) as [<-|_]; [done|]. by apply IH. }
  rewrite Htags.
  rewrite sub_unkept_fixed by (eapply all_chars_weaken; [apply plain_kept|exact Hplain]).
  rewrite split_join_words by done. by apply strip_join_words.
Qed.

Lemma sub_tags_app_plain (a rest : string) :
  has_char "<" a = false -> sub_tags false (a +:+ rest) = a +:+ sub_tags false rest.
Proof.
  induction a as [|c a IH]; [done|]. cbn [has_char].
  destruct (ascii_dec "<" c) as [<-|Hne]; [done|]. intros Ha.
  change (String c a +:+ rest) with (String c (a +:+ rest)). cbn [sub_tags].
  destruct (Ascii.eqb_spec c "<") as [->|_]; [done|]. cbn [andb]. by rewrite IH.
Qed.

Lemma sub_tags_inside (body rest : string) :
  has_char ">" body = false ->
  sub_tags true (body +:+ String ">" rest) = sub_tags false rest.
Proof.
  induction body as [|c body IH]; [done|]. cbn [has_char].
  destruct (ascii_dec ">" c) as [<-|Hne]; [done|]. intros Hb.
  change (String c body +:+ String ">" rest) with (String c (body +:+ String ">" rest)).
  cbn [sub_tags]. destruct (Ascii.eqb_spec c ">") as [->|_]; [done|]. cbn [negb]. by apply IH.
Qed.

Lemma has_char_app_r (c : ascii) (a b : string) :
  has_char c b = true -> has_char c (a +:+ b) = true.
Proof.
  intros Hb. induction a as [|d a IH]; [exact Hb|].
  change (String d a +:+ b) with (String d (a +:+ b)). cbn [has_char].
  by destruct (ascii_dec c d).
Qed.

(** X23. Without [allow_html], a tag is removed as a whole: for a text
    [before] without "<" and a [body] without ">", sanitizing
    [before <body> after] gives the same result as sanitizing
    [before after]; nothing of what stands between the brackets is kept. *)
Theorem sanitize_input_drops_tags (before body after : string) :
  has_char "<" before = false -> has_char ">" body = false ->
  sanitize_input (before +:+ "<" +:+ body +:+ ">" +:+ after) false
  = sanitize_input (before +:+ after) false.
Proof.
  intros Hb Hbody. unfold sanitize_input. cbv zeta. cbn [negb].
  rewrite (sub_tags_app_plain before after Hb), (sub_tags_app_plain before _ Hb).
  change ("<" +:+ body +:+ ">" +:+ after) with (String "<" (body +:+ String ">" after)).
  cbn [sub_tags]. change (Ascii.eqb "<" "<") with true. cbn [andb].
  rewrite has_char_app_r by (cbn [has_char]; by destruct (ascii_dec ">" ">")).
  by rewrite sub_tags_inside.
Qed.

(** X24. [validate_json_structure] accepts the data exactly when every
    required field is present and every field that is present and has a
    declared type holds a value of that type, where a boolean counts as
    an [int] and an integer does not count as a [float]; a missing
    required field is reported before any type error, with all the
    missing fields in the order of the list. *)
Theorem json_structure_accepted_iff (data : gmap string jvalue)
        (required_fields : list string) (field_types : list (string * pytype))
        (msg : option string) :
  (validate_json_structure data required_fields field_types = (true, msg)
   <-> msg = None
       /\ (forall field, field ∈ required_fields -> is_Some (data !! field))
       /\ (forall field t v, (field, t) ∈ field_types -> data !! field = Some v ->
             isinstance v t = true))
  /\ (forall field, field ∈ required_fields -> data !! field = None ->
      validate_json_structure data required_fields field_types
      = (false, Some ("Missing required fields: "
                      +:+ join ", " (List.filter (fun f => bool_decide (data !! f = None))
                                                 required_fields))))
  /\ isinstance (JBool true) t_int = true
  /\ isinstance (JInt 1) t_float = false.
Proof.
  assert (Hfilter : List.filter (fun f => negb (bool_decide (is_Some (data !! f))))
                                required_fields
                    = List.filter (fun f => bool_decide (data !! f = None)) required_fields).
  { apply List.filter_ext. intros f. destruct (data !! f) as [v|].
    - rewrite bool_decide_eq_true_2 by (by eexists). by rewrite bool_decide_eq_false_2.
    - rewrite bool_decide_eq_false_2 by (by intros [? ?]). by rewrite bool_decide_eq_true_2. }
  unfold validate_json_structure. cbv zeta. rewrite Hfilter. clear Hfilter.
  split; [|split; [|by split]].
  - destruct (List.filter _ required_fields) as [|f0 fs] eqn:Hmiss.
    + assert (Hreq : forall field, field ∈ required_fields -> is_Some (data !! field)).
      { intros field Hin. destruct (data !! field) as [v|] eqn:Hd; [by eexists|].
        assert (Hf : field ∈ List.filter (fun f => bool_decide (data !! f = None))
                                         required_fields).
        { apply list_elem_of_In, List.filter_In. split; [by apply list_elem_of_In|].
          by apply bool_decide_eq_true_2. }
        rewrite Hmiss in Hf. by apply elem_of_nil in Hf. }
      destruct (List.find (ill_typed data) field_types) as [[field t]|] eqn:Hfind.
      * split; [done|]. intros (_ & _ & Htyped). exfalso.
        apply List.find_some in Hfind as [Hin Hill]. unfold ill_typed in Hill.
        cbn [fst snd] in Hill. destruct (data !! field) as [v|] eqn:Hd; [|done].
        apply list_elem_of_In in Hin. rewrite (Htyped field t v Hin Hd) in Hill. done.
      * split; [|by intros (-> & _)]. intros [= <-]. split; [done|]. split; [exact Hreq|].
        intros field t v Hin Hd. apply list_elem_of_In in Hin.
        pose proof (List.find_none _ _ Hfind _ Hin) as Hok. unfold ill_typed in Hok.
        cbn [fst snd] in Hok. rewrite Hd in Hok. by apply negb_false_iff in Hok.
    + split; [done|]. intros (_ & Hreq & _). exfalso.
      assert (Hf : f0 ∈ List.filter (fun f => bool_decide (data !! f = None)) required_fields)
        by (rewrite Hmiss; by left).
      apply list_elem_of_In, List.filter_In in Hf as [Hin Hnone].
      apply bool_decide_eq_true_1 in Hnone. apply list_elem_of_In in Hin.
      destruct (Hreq f0 Hin) as [v Hv]. congruence.
  - intros field Hin Hnone.
    destruct (List.filter _ required_fields) as [|f0 fs] eqn:Hmiss; [|done]. exfalso.
    assert (Hf : field ∈ List.filter (fun f => bool_decide (data !! f = None)) required_fields).
    { apply list_elem_of_In, List.filter_In. split; [by apply list_elem_of_In|].
      by apply bool_decide_eq_true_2. }
    rewrite Hmiss in Hf. by apply elem_of_nil in Hf.
Qed.

(** X18 on a password that only fails the check of common passwords. *)
Lemma password_rejected_report_witness :
  exists level score errors,
    validate_password_strength (U := PlainText.ascii_tables) "MyPassword1!"
    = (false, Weakness level score errors)
    /\ errors = ["Password is too common"] /\ score = 6 /\ level = "good".
Proof.
  destruct (ValidatorsLaws.password_rejected_report (U := PlainText.ascii_tables) "MyPassword1!"
              (Weakness "good" 6 ["Password is too common"]) ltac:(by vm_compute))
    as (level & score & errors & [= <- <- <-] & _).
  by exists "good", 6, ["Password is too common"].
Defined.

(** X23 on a script tag. *)
Lemma sanitize_input_drops_tags_witness :
  sanitize_input "Hello <script>alert(1)</script> team" false
  = sanitize_input "Hello alert(1)</script> team" false.
Proof.
  exact (ValidatorsLaws.sanitize_input_drops_tags "Hello " "script" "alert(1)</script> team"
           ltac:(by vm_compute) ltac:(by vm_compute)).
Defined.

End ValidatorsLaws.

(** ** Metrics *)

Module MetricsLaws.
Import Generator GeneratorSpec GeneratorFacts Metrics.
Local Open Scope Z_scope.

(** X25. The counter that [generate_email] increments is overwritten by
    [get_email_count]: whatever the generations before it did, after the
    call the counter is the number of rows counted, which is also the
    value returned; the rows counted are those of the user, or all rows
    when the user id is missing or 0; the log of backend calls is left
    alone. *)
Theorem email_count_overwrites_counter (B : backends) (subject context tone : string)
        (recipient_name : option string) (use_gpt : bool)
        (db : list EmailRecord) (uid : option Z) (s : state) :
  let s1 := snd (generate_email B subject context tone recipient_name use_gpt s) in
  let rows := match uid with
              | Some u => if decide (u = 0) then db
                          else List.filter (fun r => bool_decide (user_id r = Some u)) db
              | None => db
              end in
  exists s2,
    get_email_count db uid s1 = (Ok (Z.of_nat (List.length rows)), s2)
    /\ email_generation_count s2 = Z.of_nat (List.length rows)
    /\ calls s2 = calls s1
    /\ 0 <= email_generation_count s2 <= Z.of_nat (List.length db).
Proof.
  cbv zeta. unfold get_email_count, bind, set_counter, ret. cbv zeta. cbn [fst snd].
  assert (Hrows : match uid with
                  | Some u => if (u =? 0) then db else filter_user u db
                  | None => db
                  end
                  = match uid with
                    | Some u => if decide (u = 0) then db
                                else List.filter (fun r => bool_decide (user_id r = Some u)) db
                    | None => db
                    end).
  { destruct uid as [u|]; [|reflexivity].
    destruct (Z.eqb_spec u 0) as [->|Hu]; [reflexivity|]. by destruct (decide (u = 0)). }
  rewrite Hrows. eexists. split; [reflexivity|]. cbn [email_generation_count calls].
  split; [reflexivity|]. split; [reflexivity|]. split; [lia|]. apply inj_le.
  destruct uid as [u|]; [|done]. destruct (decide (u = 0)); [done|].
  apply List.filter_length_le.
Qed.

End MetricsLaws.
